(** * static/app.js: the event handlers of the statement page

    A shallow embedding of the browser script [static/app.js].  The script
    wires DOM events (menu toggles, row drag, cell click, double click, digit
    keys, header click) to four endpoints of the backend and rewrites CSS
    classes and the sum bar from the answers.

    - [JS]     : the ECMAScript primitives the script calls ([trim],
                 [parseInt], [toLowerCase], [replace], ToString, truthiness,
                 property access on parsed JSON);
    - [Dom]    : the document as the list of its elements in document order,
                 each with its identity, tag, class list, attributes and
                 parent; [closest], [querySelectorAll], [classList] methods,
                 [insertBefore];
    - [Script] : the handlers of [app.js], one definition per listener and
                 per promise chain, over a state that holds the document,
                 [lastClickedCell], the console, the requests issued and the
                 navigations asked for;
    - [Exact]  : an interpretation of the numbers by exact rationals, to run
                 the handlers on concrete pages;
    - the vocabulary of the properties, and the properties.

    Strings are sequences of code units below 256 (Latin-1).  The integers
    that [parseInt] yields are exact ([Z]) and [NaN] is [None]; the numbers
    in an answer of the server are integers.  The double-precision
    arithmetic behind [Number(...)], [+] and [Intl.NumberFormat] is the
    class [Script.Float]: a property stated for every [Float] holds for the
    doubles of the browser.  The geometry that [getBoundingClientRect] reads
    is the class [Script.Layout] in the same way. *)

From Stdlib Require Import ZArith List String Ascii Bool Lia.
From Stdlib Require Import DecimalString DecimalPos DecimalZ QArith Permutation.
Import ListNotations.

Local Open Scope string_scope.
Local Open Scope Z_scope.

(* ================================================================== *)
(** ** ECMAScript primitives *)

Module JS.

(** WhiteSpace and LineTerminator code units below 256: TAB, LF, VT, FF, CR,
    SP and NBSP.  [String.prototype.trim] and the prefix skipped by
    [parseInt] use this set. *)
Definition is_ws (c : ascii) : bool :=
  let n := nat_of_ascii c in
  ((9 <=? n) && (n <=? 13) || (n =? 32) || (n =? 160))%nat.

Fixpoint trimStart (s : string) : string :=
  match s with
  | String c r => if is_ws c then trimStart r else s
  | EmptyString => EmptyString
  end.

(** [trimEnd] drops the white space that is followed by white space only. *)
Fixpoint trimEnd (s : string) : string :=
  match s with
  | EmptyString => EmptyString
  | String c r =>
      match trimEnd r with
      | EmptyString => if is_ws c then EmptyString else String c EmptyString
      | r' => String c r'
      end
  end.

Definition trim (s : string) : string := trimEnd (trimStart s).

(** Value of a code unit as a digit of the given radix (10 or 16). *)
Definition digit_of (radix : Z) (c : ascii) : option Z :=
  let n := Z.of_nat (nat_of_ascii c) in
  let v :=
    if (48 <=? n) && (n <=? 57) then Some (n - 48)
    else if (97 <=? n) && (n <=? 122) then Some (n - 87)
    else if (65 <=? n) && (n <=? 90) then Some (n - 55)
    else None in
  match v with
  | Some d => if d <? radix then Some d else None
  | None => None
  end.

(** The longest prefix of radix digits, read left to right; [None] when the
    prefix is empty. *)
Fixpoint digits_prefix (radix : Z) (acc : option Z) (s : string) : option Z :=
  match s with
  | String c r =>
      match digit_of radix c with
      | Some d =>
          digits_prefix radix
            (Some (match acc with Some a => a * radix + d | None => d end)) r
      | None => acc
      end
  | EmptyString => acc
  end.

(** [parseInt(string)] with the radix argument missing: leading white space
    is skipped, a sign is read, a [0x]/[0X] prefix selects radix 16, and the
    digits up to the first other character are read.  [None] is [NaN]. *)
Definition parseInt (input : string) : option Z :=
  let s := trimStart input in
  let '(sign, s) :=
    match s with
    | String "-" r => (-1, r)
    | String "+" r => (1, r)
    | _ => (1, s)
    end in
  let '(radix, s) :=
    match s with
    | String "0" (String "x" r) => (16, r)
    | String "0" (String "X" r) => (16, r)
    | _ => (10, s)
    end in
  match digits_prefix radix None s with
  | Some n => Some (sign * n)
  | None => None
  end.

(** [Number::toString] of an integer: its decimal digits, [-] in front of a
    negative one (the form JavaScript prints below 10^21). *)
Definition string_of_Z (z : Z) : string := NilZero.string_of_int (Z.to_int z).

(** [String.prototype.toLowerCase] on code units below 256: [A]-[Z] and the
    Latin-1 capitals (0xC0-0xDE but 0xD7) move up by 32. *)
Definition lower_char (c : ascii) : ascii :=
  let n := nat_of_ascii c in
  if ((65 <=? n) && (n <=? 90)
      || (192 <=? n) && (n <=? 222) && negb (n =? 215))%nat
  then ascii_of_nat (n + 32) else c.

Fixpoint toLowerCase (s : string) : string :=
  match s with
  | String c r => String (lower_char c) (toLowerCase r)
  | EmptyString => EmptyString
  end.

(** [s.replace(/\./g, '')]. *)
Fixpoint remove_dots (s : string) : string :=
  match s with
  | String c r => if Ascii.eqb c "." then remove_dots r else String c (remove_dots r)
  | EmptyString => EmptyString
  end.

(** [s.replace(',', '.')]: a string pattern replaces its first occurrence
    only. *)
Fixpoint replace_first_comma (s : string) : string :=
  match s with
  | String c r => if Ascii.eqb c "," then String "." r else String c (replace_first_comma r)
  | EmptyString => EmptyString
  end.

(** [/^\d+$/.test(s)]: one or more of [0]-[9] and nothing else. *)
Definition is_digit (c : ascii) : bool :=
  let n := nat_of_ascii c in ((48 <=? n) && (n <=? 57))%nat.

Fixpoint all_digits (s : string) : bool :=
  match s with
  | String c r => is_digit c && all_digits r
  | EmptyString => true
  end.

Definition test_digits (s : string) : bool :=
  match s with
  | EmptyString => false
  | _ => all_digits s
  end.

(** *** Values

    What [response.json()] yields, and [undefined] for a property that is
    not there.  Numbers are the integers the mark protocol exchanges, below
    10^21 in magnitude, which [Number::toString] prints in full. *)
#[local] Set Warnings "-register-all".
Inductive value : Type :=
| VUndefined
| VNull
| VBool (b : bool)
| VNum (z : Z)
| VStr (s : string)
| VArr (items : list value)
| VObj (fields : list (string * value)).

(** ToBoolean: [undefined], [null], [false], [0] and [''] are falsy. *)
Definition truthy (v : value) : bool :=
  match v with
  | VUndefined | VNull => false
  | VBool b => b
  | VNum z => negb (z =? 0)
  | VStr s => negb (String.eqb s "")
  | VArr _ | VObj _ => true
  end.

Fixpoint assoc {A} (k : string) (l : list (string * A)) : option A :=
  match l with
  | [] => None
  | (k', v) :: r => if String.eqb k k' then Some v else assoc k r
  end.

(** [v.k] for a [v] that is neither [null] nor [undefined]: an own property
    of a parsed object, [undefined] otherwise (no primitive, array or
    [Object.prototype] has a property [ok] or [mark]). *)
Definition get (v : value) (k : string) : value :=
  match v with
  | VObj fields => match assoc k fields with Some x => x | None => VUndefined end
  | _ => VUndefined
  end.

(** [a || b]. *)
Definition or_else (a b : value) : value := if truthy a then a else b.

(** [v === false]. *)
Definition is_false (v : value) : bool :=
  match v with VBool false => true | _ => false end.

(** ToString.  An array joins its items with commas, [null] and [undefined]
    items printing as nothing. *)
Fixpoint toString (v : value) : string :=
  match v with
  | VUndefined => "undefined"
  | VNull => "null"
  | VBool true => "true"
  | VBool false => "false"
  | VNum z => string_of_Z z
  | VStr s => s
  | VArr items =>
      (fix join (first : bool) (l : list value) : string :=
         match l with
         | [] => ""
         | x :: r =>
             (if first then "" else ",")
               ++ match x with
                  | VUndefined | VNull => ""
                  | _ => toString x
                  end
               ++ join false r
         end) true items
  | VObj _ => "[object Object]"
  end.

(** [parseInt(v)]: the argument is converted to a string first. *)
Definition parseInt_value (v : value) : option Z := parseInt (toString v).

End JS.

(* ================================================================== *)
(** ** The document *)

Module Dom.

(** An element is referred to by its identity; a reference stays valid when
    elements are inserted or their classes change. *)
Definition node := nat.
Bind Scope nat_scope with node.

Record element := mkElement {
  nid : node;
  tagName : string;                     (* in lower case *)
  classList : list string;
  attributes : list (string * string);
  parentNode : option node;             (* [None]: a child of the document *)
  style_display : option string;
  style_cursor : option string;
  innerHTML : option string             (* markup written by the script, kept as text *)
}.

(** The elements of the page in document order. *)
Definition document := list element.

Definition with_classList (f : list string -> list string) (e : element) : element :=
  mkElement (nid e) (tagName e) (f (classList e)) (attributes e) (parentNode e)
            (style_display e) (style_cursor e) (innerHTML e).

Definition with_attributes (f : list (string * string) -> list (string * string))
    (e : element) : element :=
  mkElement (nid e) (tagName e) (classList e) (f (attributes e)) (parentNode e)
            (style_display e) (style_cursor e) (innerHTML e).

Definition with_display (v : string) (e : element) : element :=
  mkElement (nid e) (tagName e) (classList e) (attributes e) (parentNode e)
            (Some v) (style_cursor e) (innerHTML e).

Definition with_cursor (v : string) (e : element) : element :=
  mkElement (nid e) (tagName e) (classList e) (attributes e) (parentNode e)
            (style_display e) (Some v) (innerHTML e).

Definition with_innerHTML (v : string) (e : element) : element :=
  mkElement (nid e) (tagName e) (classList e) (attributes e) (parentNode e)
            (style_display e) (style_cursor e) (Some v).

(** *** [classList] *)

Definition contains (tok : string) (l : list string) : bool :=
  existsb (String.eqb tok) l.

Definition remove (tok : string) (l : list string) : list string :=
  filter (fun c => negb (String.eqb tok c)) l.

Definition add (tok : string) (l : list string) : list string :=
  if contains tok l then l else l ++ [tok].

(** *** Attributes *)

Definition getAttribute (e : element) (k : string) : option string :=
  JS.assoc k (attributes e).

Fixpoint set_assoc (k v : string) (l : list (string * string)) : list (string * string) :=
  match l with
  | [] => [(k, v)]
  | (k', v') :: r => if String.eqb k k' then (k, v) :: r else (k', v') :: set_assoc k v r
  end.

Definition setAttribute (k v : string) : element -> element :=
  with_attributes (set_assoc k v).

Definition removeAttribute (k : string) : element -> element :=
  with_attributes (filter (fun kv => negb (String.eqb k (fst kv)))).

(** *** Lookup and update by identity *)

Definition getElement (d : document) (n : node) : option element :=
  find (fun e => Nat.eqb (nid e) n) d.

Definition modify (n : node) (f : element -> element) (d : document) : document :=
  map (fun e => if Nat.eqb (nid e) n then f e else e) d.

(** *** Selectors *)

Definition selector := element -> bool.

Definition has_tag (t : string) : selector := fun e => String.eqb (tagName e) t.
Definition has_class (c : string) : selector := fun e => contains c (classList e).
Definition has_attr (k v : string) : selector := fun e =>
  match getAttribute e k with
  | Some v' => String.eqb v' v
  | None => false
  end.
Definition sel_and (p q : selector) : selector := fun e => p e && q e.
Definition sel_or (p q : selector) : selector := fun e => p e || q e.

(** [n.closest(sel)]: [n] itself or its nearest ancestor matching [sel].
    The walk is bounded by the size of the document. *)
Fixpoint closest_from (fuel : nat) (d : document) (sel : selector) (n : node)
  : option node :=
  match fuel with
  | O => None
  | S fuel' =>
      match getElement d n with
      | None => None
      | Some e =>
          if sel e then Some n
          else match parentNode e with
               | Some p => closest_from fuel' d sel p
               | None => None
               end
      end
  end.

Definition closest (d : document) (sel : selector) (n : node) : option node :=
  closest_from (S (List.length d)) d sel n.

(** [e] lies inside [root]: a proper ancestor of [e] is [root]. *)
Definition inside (d : document) (root : node) (e : element) : bool :=
  match parentNode e with
  | Some p =>
      match closest_from (List.length d) d (fun a => Nat.eqb (nid a) root) p with
      | Some _ => true
      | None => false
      end
  | None => false
  end.

(** [root.querySelectorAll(sel)]: the descendants of [root] that match, in
    document order. *)
Definition querySelectorAll (d : document) (root : node) (sel : selector)
  : list element :=
  filter (fun e => sel e && inside d root e) d.

Definition querySelector (d : document) (root : node) (sel : selector)
  : option element :=
  hd_error (querySelectorAll d root sel).

(** [document.querySelectorAll(sel)]. *)
Definition document_querySelectorAll (d : document) (sel : selector)
  : list element :=
  filter sel d.

(** *** Creating and inserting *)

Definition fresh (d : document) : node :=
  S (fold_right (fun e m => Nat.max (nid e) m) O d).

Definition createElement (d : document) (tag : string) : element :=
  mkElement (fresh d) tag [] [] None None None None.

(** [parent.insertBefore(new, ref)] for a [ref] that is a child of [parent]:
    [new] becomes the sibling just before [ref], which is also its place in
    document order. *)
Fixpoint insert_before (new : element) (ref : node) (d : document) : document :=
  match d with
  | [] => []
  | e :: r =>
      if Nat.eqb (nid e) ref then new :: e :: r
      else e :: insert_before new ref r
  end.

Definition insertBefore (new : element) (ref : element) (d : document) : document :=
  insert_before
    (mkElement (nid new) (tagName new) (classList new) (attributes new)
               (parentNode ref) (style_display new) (style_cursor new)
               (innerHTML new))
    (nid ref) d.

(** *** Lookup by [id] *)

(** [document.getElementById(id)]: the first element, in document order,
    whose [id] attribute is [id]; an empty [id] names no element. *)
Definition getElementById (d : document) (id : string) : option element :=
  if String.eqb id "" then None else find (has_attr "id" id) d.

(** *** Moving an element that is in the document

    [appendChild] and [insertBefore] on an element of the document move it
    with everything below it.  In the list of the elements that is a block:
    the element and the elements inside it. *)

Definition in_subtree (d : document) (n : node) (e : element) : bool :=
  Nat.eqb (nid e) n || inside d n e.

Definition with_parentNode (p : node) (e : element) : element :=
  mkElement (nid e) (tagName e) (classList e) (attributes e) (Some p)
            (style_display e) (style_cursor e) (innerHTML e).

(** The block of [child], with [child] itself hung under [parent]. *)
Definition block_of (d : document) (parent child : node) : list element :=
  map (fun e => if Nat.eqb (nid e) child then with_parentNode parent e else e)
      (filter (in_subtree d child) d).

(** The document without the block of [child]. *)
Definition without (d : document) (child : node) : document :=
  filter (fun e => negb (in_subtree d child e)) d.

Fixpoint insert_block_before (block : list element) (ref : node) (d : document)
  : document :=
  match d with
  | [] => []
  | e :: r =>
      if Nat.eqb (nid e) ref then (block ++ e :: r)%list
      else e :: insert_block_before block ref r
  end.

(** After the last element that satisfies [p]. *)
Fixpoint insert_block_after_last (p : element -> bool) (block : list element)
    (d : document) : document :=
  match d with
  | [] => []
  | e :: r =>
      if p e && negb (existsb p r) then (e :: block ++ r)%list
      else e :: insert_block_after_last p block r
  end.

(** [parent.appendChild(child)] for a [child] of the document: [child]
    becomes the last child of [parent].  [None] is the [HierarchyRequestError]
    thrown when [parent] is [child] or lies inside it. *)
Definition appendChild (parent child : node) (d : document) : option document :=
  match getElement d parent with
  | None => None
  | Some parent_el =>
      if in_subtree d child parent_el then None
      else Some (insert_block_after_last (in_subtree d parent)
                   (block_of d parent child) (without d child))
  end.

(** [parent.insertBefore(child, ref)] for a [child] of the document:
    [child] becomes the sibling just before [ref].  [None] stands for the
    exceptions: [ref] is not a child of [parent] ([NotFoundError]), or
    [parent] is [child] or lies inside it ([HierarchyRequestError]).  With
    [ref] being [child] itself nothing moves. *)
Definition insertBefore_moving (parent child : node) (ref : element) (d : document)
  : option document :=
  match getElement d parent, parentNode ref with
  | Some parent_el, Some p =>
      if negb (Nat.eqb p parent) || in_subtree d child parent_el then None
      else if Nat.eqb (nid ref) child then Some d
      else Some (insert_block_before (block_of d parent child) (nid ref) (without d child))
  | _, _ => None
  end.

End Dom.

(* ================================================================== *)
(** ** The script *)

Module Script.
Import JS Dom.

(** *** Numbers

    JavaScript numbers are doubles.  [double] stands for the doubles other
    than [NaN], and a JavaScript number is an [option double] with [None]
    for [NaN].  [Number] is [Number(string)], [plus] the sum of two doubles
    ([Infinity + -Infinity] is [NaN]), [is_zero x] the test [x === 0], and
    [format] the text [Intl.NumberFormat('es-ES', {minimumFractionDigits: 2,
    maximumFractionDigits: 2}).format] prints. *)
Class Float := {
  double : Type;
  Number : string -> option double;
  plus : double -> double -> option double;
  zero : double;
  is_zero : double -> bool;
  format : option double -> string
}.

(** *** What the script leaves outside the document *)

Inductive level := Log | Warn | Error.

Record request := mkRequest {
  url : string;
  method : string;
  content_type : option string;
  body : option value                  (* the argument of [JSON.stringify] *)
}.

(** Which promise chain waits for the answer to a request. *)
Inductive continuation :=
| OnReordenar
| OnMarkClick (td : node)
| OnMarkKey
| OnPagado (tr : node).

(** [window.location]: what comes before the query, the query's pairs, and
    the fragment. *)
Record location := mkLocation {
  path : string;
  searchParams : list (string * string);
  fragment : string
}.

Inductive navigation :=
| Reload
| Assign (href : location).

Record state := mkState {
  dom : document;
  lastClickedCell : option node;
  DEBUG_LOG : bool;
  console : list (level * string);
  fetched : list (request * continuation);
  navigated : list navigation;
  href : location
}.

Definition set_dom (d : document) (st : state) : state :=
  mkState d (lastClickedCell st) (DEBUG_LOG st) (console st) (fetched st)
          (navigated st) (href st).

Definition set_lastClickedCell (c : node) (st : state) : state :=
  mkState (dom st) (Some c) (DEBUG_LOG st) (console st) (fetched st)
          (navigated st) (href st).

Definition print (l : level) (msg : string) (st : state) : state :=
  mkState (dom st) (lastClickedCell st) (DEBUG_LOG st) (console st ++ [(l, msg)])
          (fetched st) (navigated st) (href st).

Definition log (msg : string) (st : state) : state :=
  if DEBUG_LOG st then print Log msg st else st.

Definition warn (msg : string) (st : state) : state :=
  if DEBUG_LOG st then print Warn msg st else st.

Definition err (msg : string) (st : state) : state := print Error msg st.

Definition fetch (r : request) (k : continuation) (st : state) : state :=
  mkState (dom st) (lastClickedCell st) (DEBUG_LOG st) (console st)
          (fetched st ++ [(r, k)]) (navigated st) (href st).

Definition navigate (n : navigation) (st : state) : state :=
  mkState (dom st) (lastClickedCell st) (DEBUG_LOG st) (console st) (fetched st)
          (navigated st ++ [n]) (href st).

(** How a [fetch(...)] settles: it rejects, or it resolves with a response
    whose body parses as JSON or does not ([r.json()] rejects then). *)
Inductive outcome :=
| Rejected
| Resolved (status : Z) (json : option value).

(** *** Helpers of the handlers *)

(** [encodeURIComponent] on code units below 256: letters, digits and
    [-_.!~*'()] stay, every other one becomes the [%XX] of its UTF-8 bytes. *)
Definition hex_digit (n : nat) : ascii :=
  ascii_of_nat (if (n <? 10)%nat then 48 + n else 55 + n).

Definition percent (n : nat) : string :=
  String "%" (String (hex_digit (n / 16)) (String (hex_digit (n mod 16)) "")).

Definition unreserved (c : ascii) : bool :=
  let n := nat_of_ascii c in
  ((48 <=? n) && (n <=? 57) || (65 <=? n) && (n <=? 90) || (97 <=? n) && (n <=? 122))%nat
  || existsb (Ascii.eqb c) (list_ascii_of_string "-_.!~*'()").

Fixpoint encodeURIComponent (s : string) : string :=
  match s with
  | EmptyString => EmptyString
  | String c r =>
      let n := nat_of_ascii c in
      (if unreserved c then String c ""
       else if (n <? 128)%nat then percent n
       else percent (192 + n / 64) ++ percent (128 + n mod 64))
        ++ encodeURIComponent r
  end.

(** A [null] from [getAttribute] is printed as [null] where a string is
    expected. *)
Definition string_of_attr (a : option string) : string :=
  match a with Some s => s | None => "null" end.

(** [isValidId] of the reorder block, applied to what [getAttribute] gave. *)
Definition isValidId (v : option string) : bool :=
  match v with
  | Some s => test_digits (trim s)
  | None => false
  end.

(** ToBoolean of what [getAttribute] gave: [null] and [''] are falsy. *)
Definition attr_truthy (a : option string) : bool :=
  match a with
  | Some s => negb (String.eqb s "")
  | None => false
  end.

Definition td_num_cell : selector := sel_and (has_tag "td") (has_class "num-cell").

Definition marks : list Z := [1; 2; 3; 4; 5; 6; 7; 8; 9].

Definition mark_class (i : Z) : string := "mark-" ++ string_of_Z i.

(** The mark the click handler sends: [-1], or [0] with Shift, or [1] with
    Ctrl or Meta. *)
Definition click_mark (shiftKey ctrlKey metaKey : bool) : Z :=
  if shiftKey then 0 else if ctrlKey || metaKey then 1 else -1.

(** The digit the keydown handler reads from [e.key]; [None] when the
    handler returns before sending. *)
Definition keydown_mark (key : string) : option Z :=
  match parseInt key with
  | None => None
  | Some d => if (d <? 0) || (d >? 9) then None else Some d
  end.

Definition mark_request (id col : option string) (mark : Z) : request :=
  mkRequest
    ("/estado-cuenta/marcar/" ++ encodeURIComponent (string_of_attr id) ++ "/"
       ++ encodeURIComponent (string_of_attr col))
    "POST" (Some "application/json") (Some (VObj [("mark", VNum mark)])).

(** The clean-up at load: a cell with none of [mark-1] .. [mark-9] loses
    [marked]. *)
Definition cleanup (td : element) : element :=
  if forallb (fun i => negb (contains (mark_class i) (classList td))) marks
  then with_classList (remove "marked") td
  else td.

(** [(!data || data.ok === false)]: the answer is not acted upon. *)
Definition refused (data : value) : bool :=
  negb (truthy data) || is_false (get data "ok").

(** [parseInt(data.mark || 0)]. *)
Definition response_mark (data : value) : option Z :=
  parseInt_value (or_else (get data "mark") (VNum 0)).

(** The class update of both mark handlers: [marked] and [mark-1] ..
    [mark-9] are removed, and for [m > 0] the classes [marked] and [mark-m]
    are added. *)
Definition set_mark_classes (data : value) (cell : element) : element :=
  let cell := with_classList (remove "marked") cell in
  let cell :=
    fold_left (fun c i => with_classList (remove (mark_class i)) c) marks cell in
  match response_mark data with
  | Some m =>
      if m >? 0
      then with_classList (fun l => add (mark_class m) (add "marked" l)) cell
      else cell
  | None => cell
  end.

(** [URLSearchParams.set]: the first pair of that name takes the value and
    the others of that name go; without one, the pair is appended. *)
Fixpoint searchParams_set (name v : string) (l : list (string * string))
  : list (string * string) :=
  match l with
  | [] => [(name, v)]
  | (k, x) :: r =>
      if String.eqb k name
      then (name, v) :: filter (fun kv => negb (String.eqb (fst kv) name)) r
      else (k, x) :: searchParams_set name v r
  end.

(** [current === 'asc' ? 'desc' : 'asc'] for
    [current = (table.getAttribute('data-orden') || 'asc').toLowerCase()]. *)
Definition next_orden (data_orden : option string) : string :=
  let current :=
    toLowerCase (if attr_truthy data_orden then string_of_attr data_orden else "asc") in
  if String.eqb current "asc" then "desc" else "asc".

(** *** The handlers *)

Section Handlers.
Context {F : Float}.

Definition isNaN (n : option double) : bool :=
  match n with None => true | Some _ => false end.

(** [a + b] on numbers: [NaN] with a [NaN] operand. *)
Definition js_add (a b : option double) : option double :=
  match a, b with
  | Some x, Some y => plus x y
  | _, _ => None
  end.

(** [n === 0]. *)
Definition strict_zero (n : option double) : bool :=
  match n with Some x => is_zero x | None => false end.

Definition parseNum (raw : string) : option double :=
  let str := trim raw in
  let n := Number str in
  if negb (isNaN n) then n
  else
    let es := replace_first_comma (remove_dots str) in
    let n := Number es in
    if isNaN n then Some zero else n.

(** [td.num-cell.marked[data-col='col']]. *)
Definition marked_cell (col : string) : selector :=
  sel_and td_num_cell (sel_and (has_class "marked") (has_attr "data-col" col)).

Definition sumMarked (d : document) (table : node) (col : string) : option double :=
  fold_left
    (fun s cell =>
       let raw := match getAttribute cell "data-val" with
                  | Some v => v
                  | None => "0"
                  end in
       js_add s (parseNum raw))
    (querySelectorAll d table (marked_cell col))
    (Some zero).

Definition fmt (n : option double) : string := format n.

(** The markup [computeSumBar] writes into the bar.  The sigma and the
    middle dot of the source are kept in their UTF-8 bytes. *)
Definition sum_bar_html (sumDebe sumHaber : option double) : string :=
  "Σ Debe: <strong>" ++ fmt sumDebe ++ "</strong> · Σ Haber: <strong>"
    ++ fmt sumHaber ++ "</strong>".

(** [computeSumBar(table)].  [table] is [None] for [null]; the result pairs
    the bar that was written (if the function got that far) with the new
    document.  The markup given to [bar.innerHTML] is kept as text: the two
    [strong] it makes are content of the bar and not elements of the
    document here, and the document is the one of the browser as long as
    the bar holds no element before the assignment. *)
Definition computeSumBar_bar (table : option node) (d : document)
  : option node * document :=
  match table with
  | None => (None, d)
  | Some t =>
      match closest d (has_class "card") t, getElement d t with
      | Some card, Some table_el =>
          let bar := querySelector d card (has_class "sum-bar") in
          let sumDebe := sumMarked d t "DEBE" in
          let sumHaber := sumMarked d t "HABER" in
          let '(bar, d) :=
            match bar with
            | Some b => (nid b, d)
            | None =>
                let b := with_classList (fun _ => ["sum-bar"]) (createElement d "div") in
                (nid b, insertBefore b table_el d)
            end in
          let d := modify bar (with_innerHTML (sum_bar_html sumDebe sumHaber)) d in
          let d :=
            modify bar
              (with_display
                 (if strict_zero sumDebe && strict_zero sumHaber then "none" else "block"))
              d in
          (Some bar, d)
      | _, _ => (None, d)
      end
  end.

Definition computeSumBar (table : option node) (d : document) : document :=
  snd (computeSumBar_bar table d).

(** **** Load: the body of the [DOMContentLoaded] listener *)

(** Rows of a reorder table become draggable when their [data-id] is a
    valid identifier. *)
Definition init_rows (d : document) : document :=
  fold_left
    (fun d table =>
       match querySelector d (nid table) (has_tag "tbody") with
       | None => d
       | Some tbody =>
           fold_left
             (fun d tr =>
                if isValidId (getAttribute tr "data-id")
                then modify (nid tr) (setAttribute "draggable" "true") d
                else modify (nid tr) (removeAttribute "draggable") d)
             (querySelectorAll d (nid tbody) (has_tag "tr")) d
       end)
    (document_querySelectorAll d (sel_and (has_tag "table") (has_class "reorder-table")))
    d.

Definition init_cells (d : document) : document :=
  fold_left (fun d td => modify (nid td) cleanup d)
            (document_querySelectorAll d td_num_cell) d.

Definition init_bars (d : document) : document :=
  fold_left (fun d t => computeSumBar (Some (nid t)) d)
            (document_querySelectorAll d (sel_and (has_tag "table") (has_class "reorder-table")))
            d.

Definition sortable_fecha : selector :=
  sel_and (has_tag "th") (sel_and (has_class "sortable") (has_attr "data-sort" "fecha")).

Definition init_headers (d : document) : document :=
  fold_left (fun d th => modify (nid th) (with_cursor "pointer") d)
            (document_querySelectorAll d sortable_fecha) d.

Definition DOMContentLoaded (d : document) (loc : location) : state :=
  mkState (init_headers (init_bars (init_cells (init_rows d))))
          None true [(Log, "DOMContentLoaded")] [] [] loc.

(** **** Reorder: [dragend] on a row [tr] of the [tbody] of [table] *)

Definition reorder_ids (d : document) (tbody : node) : list string :=
  map string_of_attr
      (filter isValidId
              (map (fun r => getAttribute r "data-id")
                   (querySelectorAll d tbody (has_tag "tr")))).

Definition reorder_request (cliente : string) (ids : list string) : request :=
  mkRequest ("/estado-cuenta/reordenar/" ++ encodeURIComponent cliente)
            "POST" (Some "application/json")
            (Some (VObj [("ids", VArr (map VStr ids))])).

Definition tr_dragend (table tbody tr : node) (st : state) : state :=
  let st := set_dom (modify tr (with_classList (remove "dragging")) (dom st)) st in
  match getElement (dom st) table with
  | None => st
  | Some table_el =>
      let cliente := getAttribute table_el "data-cliente" in
      let ids := reorder_ids (dom st) tbody in
      if negb (attr_truthy cliente) || (Nat.eqb (List.length ids) 0) then st
      else
        fetch (reorder_request (string_of_attr cliente) ids) OnReordenar
              (log "reordenar POST" st)
  end.

(** **** Mark: [click] on a [td.num-cell] *)

Definition td_click (td : node) (shiftKey ctrlKey metaKey : bool) (st : state) : state :=
  match getElement (dom st) td with
  | None => st
  | Some td_el =>
      let id := getAttribute td_el "data-id" in
      let col := getAttribute td_el "data-col" in
      let mark := click_mark shiftKey ctrlKey metaKey in
      fetch (mark_request id col mark) (OnMarkClick td) (log "mark click" st)
  end.

(** **** Paid: [dblclick] on a [td.venc-cell] or [td.venc-days] *)

Definition pagado_request (id : string) : request :=
  mkRequest ("/estado-cuenta/pagado/" ++ encodeURIComponent id) "POST" None None.

Definition td_dblclick (td : node) (st : state) : state :=
  match closest (dom st) (has_tag "tr") td with
  | None => st
  | Some tr =>
      let id := match getElement (dom st) tr with
                | Some tr_el => getAttribute tr_el "data-id"
                | None => None
                end in
      if negb (attr_truthy id) then st
      else fetch (pagado_request (string_of_attr id)) (OnPagado tr) st
  end.

(** **** The [click] and [keydown] listeners of the document *)

Definition document_click (target : node) (st : state) : state :=
  match closest (dom st) td_num_cell target with
  | Some cell => set_lastClickedCell cell st
  | None => st
  end.

Definition document_keydown (key : string) (st : state) : state :=
  match lastClickedCell st with
  | None => st
  | Some cell =>
      match keydown_mark key, getElement (dom st) cell with
      | Some d, Some cell_el =>
          let id := getAttribute cell_el "data-id" in
          let col := getAttribute cell_el "data-col" in
          fetch (mark_request id col d) OnMarkKey (log "mark keydown" st)
      | _, _ => st
      end
  end.

(** A click on a numeric cell itself: the listener of the cell runs, then,
    the event bubbling, the one of the document. *)
Definition click_cell (td : node) (shiftKey ctrlKey metaKey : bool) (st : state) : state :=
  document_click td (td_click td shiftKey ctrlKey metaKey st).

(** **** Sort: [click] on a [th.sortable[data-sort="fecha"]] *)

Definition th_click (th : node) (st : state) : state :=
  match closest (dom st) (has_tag "table") th with
  | None => st
  | Some table =>
      let data_orden := match getElement (dom st) table with
                        | Some table_el => getAttribute table_el "data-orden"
                        | None => None
                        end in
      let next := next_orden data_orden in
      let url := href st in
      let url := mkLocation (path url) (searchParams_set "orden" next (searchParams url))
                            (fragment url) in
      navigate (Assign url) st
  end.

(** **** The promise chains *)

(** The [then] callback of both mark requests.  [cell] is the [td] of the
    click handler, or [lastClickedCell] as it is when the answer arrives for
    the keydown handler; reading [classList] of [null] throws, which the
    [catch] of the chain logs. *)
Definition mark_response (cell : option node) (data : value) (st : state) : state :=
  let st := log "mark resp" st in
  if refused data then st
  else
    match cell with
    | None => err "mark error" st
    | Some cell =>
        let d := modify cell (set_mark_classes data) (dom st) in
        set_dom (computeSumBar (closest d (has_tag "table") cell) d) st
    end.

Definition pagado_response (tr : node) (data : value) (st : state) : state :=
  if refused data then st
  else
    set_dom
      (fold_left (fun d el => modify (nid el) (with_classList (remove "overdue")) d)
                 (querySelectorAll (dom st) tr (has_class "overdue")) (dom st))
      st.

(** What happens when the request that [k] waits for settles with [o]. *)
Definition settle (k : continuation) (o : outcome) (st : state) : state :=
  match k, o with
  | OnReordenar, Resolved _ _ => navigate Reload (log "reordenar resp" st)
  | OnReordenar, Rejected => err "reordenar error" st
  | OnMarkClick td, Resolved _ (Some data) => mark_response (Some td) data st
  | OnMarkClick _, _ => err "mark error" st
  | OnMarkKey, Resolved _ (Some data) => mark_response (lastClickedCell st) data st
  | OnMarkKey, _ => err "mark error" st
  | OnPagado tr, Resolved _ (Some data) => pagado_response tr data st
  | OnPagado _, _ => err "pagado error" st
  end.

End Handlers.

(** *** The listener of [window] for errors

    An exception that leaves a listener reaches [window.onerror], which the
    script sends to [err]. *)
Definition uncaught (st : state) : state := err "window.error" st.

(** *** The groups of the navigation: [click] on a [.nav-group-toggle] *)

Definition toggle_click (btn : node) (st : state) : state :=
  match getElement (dom st) btn with
  | None => st
  | Some btn_el =>
      let targetId := getAttribute btn_el "data-target" in
      match getElementById (dom st) (string_of_attr targetId) with
      | None => st
      | Some sub =>
          let parent := closest (dom st) (has_class "nav-group") btn in
          let isOpen :=
            match parent with
            | Some p =>
                match getElement (dom st) p with
                | Some parent_el => contains "open" (classList parent_el)
                | None => false
                end
            | None => false
            end in
          if isOpen then
            let d := modify (nid sub) (with_display "none") (dom st) in
            match parent with
            | Some p => set_dom (modify p (with_classList (remove "open")) d) st
            | None => set_dom d st
            end
          else
            let d := modify (nid sub) (with_display "block") (dom st) in
            match parent with
            | Some p => set_dom (modify p (with_classList (add "open")) d) st
            | None => uncaught (set_dom d st)     (* [parent.classList] of [null] *)
            end
      end
  end.

(** *** Dragging the rows of a reorder table *)

(** The state of the block of one table: the page and its [dragRow]. *)
Record reorder := mkReorder {
  page : state;
  dragRow : option node
}.

(** What a listener did to its event. *)
Record effects := mkEffects {
  defaultPrevented : bool;
  effectAllowed : option string;
  dropEffect : option string;
  setData : list (string * string)
}.

Definition no_effects : effects := mkEffects false None None [].

(** [dragstart] on the row [tr], whose [data-id] was [id] at load.
    [transfer] tells whether the event has a [dataTransfer]. *)
Definition tr_dragstart (id : option string) (tr : node) (transfer : bool) (r : reorder)
  : reorder * effects :=
  if negb (isValidId id) then (r, mkEffects true None None [])
  else
    let st := set_dom (modify tr (with_classList (add "dragging")) (dom (page r))) (page r) in
    let st := log "dragstart" st in
    (mkReorder st (Some tr),
     if transfer
     then mkEffects false (Some "move") None [("text/plain", string_of_attr id)]
     else no_effects).

(** [dragend] on the row [tr]: [dragRow] is forgotten and the order posted. *)
Definition reorder_dragend (table tbody tr : node) (r : reorder) : reorder :=
  mkReorder (tr_dragend table tbody tr (page r)) None.

(** The layout.  [px] are the doubles of the coordinates, [lt] is [<],
    [minus] is [-], [half x] is [x / 2]; [box_top] and [box_height] are
    what [getBoundingClientRect()] gives for an element. *)
Class Layout := {
  px : Type;
  lt : px -> px -> bool;
  minus : px -> px -> px;
  half : px -> px;
  px_zero : px;
  NEGATIVE_INFINITY : px;
  box_top : node -> px;
  box_height : node -> px
}.

Section Drag.
Context {L : Layout}.

(** [tr:not(.dragging)]. *)
Definition tr_not_dragging : selector :=
  fun e => has_tag "tr" e && negb (has_class "dragging" e).

Definition offset_of (y : px) (child : element) : px :=
  minus (minus y (box_top (nid child))) (half (box_height (nid child))).

(** [getDragAfterElement(container, y)]: the [reduce] keeps the child whose
    offset is below 0 and above the one kept so far. *)
Definition getDragAfterElement (d : document) (container : node) (y : px)
  : option element :=
  snd (fold_left
         (fun closest child =>
            let offset := offset_of y child in
            if lt offset px_zero && lt (fst closest) offset
            then (offset, Some child)
            else closest)
         (querySelectorAll d container tr_not_dragging)
         (NEGATIVE_INFINITY, None)).

(** [dragover] on the [tbody], the pointer at height [clientY]. *)
Definition tbody_dragover (tbody : node) (clientY : px) (transfer : bool) (r : reorder)
  : reorder * effects :=
  let fx := mkEffects true None (if transfer then Some "move" else None) [] in
  let after := getDragAfterElement (dom (page r)) tbody clientY in
  match dragRow r with
  | None => (r, fx)
  | Some row =>
      let moved :=
        match after with
        | None => Some (appendChild tbody row (dom (page r)))
        | Some a =>
            if match parentNode a with Some p => Nat.eqb p tbody | None => false end
            then Some (insertBefore_moving tbody row a (dom (page r)))
            else None
        end in
      match moved with
      | None => (r, fx)
      | Some (Some d) => (mkReorder (set_dom d (page r)) (dragRow r), fx)
      | Some None => (mkReorder (uncaught (page r)) (dragRow r), fx)
      end
  end.

End Drag.

End Script.

(* ================================================================== *)
(** ** An interpretation of the numbers

    Exact rationals in the place of doubles: what the script computes as
    long as no rounding occurs.  It serves to run the handlers on concrete
    pages. *)

Module Exact.
Import JS.

Inductive num :=
| Fin (q : Q)
| PosInf
| NegInf.

(** Decimal digits at the front of [s]: their value after [acc], how many
    were read, and what follows. *)
Fixpoint scan (acc : Z) (count : nat) (s : string) : Z * nat * string :=
  match s with
  | String c r =>
      if is_digit c
      then scan (acc * 10 + (Z.of_nat (nat_of_ascii c) - 48)) (S count) r
      else (acc, count, s)
  | EmptyString => (acc, count, s)
  end.

(** A string made of digits of the radix only. *)
Fixpoint read_all (radix : Z) (acc : Z) (s : string) : option Z :=
  match s with
  | EmptyString => Some acc
  | String c r =>
      match digit_of radix c with
      | Some d => read_all radix (acc * radix + d) r
      | None => None
      end
  end.

Definition nondecimal (s : string) : option (option Z) :=
  match s with
  | String "0" (String c r) =>
      let radix :=
        if Ascii.eqb c "x" || Ascii.eqb c "X" then Some 16
        else if Ascii.eqb c "o" || Ascii.eqb c "O" then Some 8
        else if Ascii.eqb c "b" || Ascii.eqb c "B" then Some 2
        else None in
      match radix with
      | Some rx => Some (match r with EmptyString => None | _ => read_all rx 0 r end)
      | None => None
      end
  | _ => None
  end.

(** [m * 10^e] as a reduced fraction. *)
Definition scale (m e : Z) : Q :=
  if 0 <=? e then Qmake (m * 10 ^ e) 1
  else Qred (Qmake m (Z.to_pos (10 ^ (- e)))).

(** The exponent part: nothing, or [e] or [E], a sign, and digits to the
    end of the string. *)
Definition exponent (s : string) : option Z :=
  match s with
  | EmptyString => Some 0
  | String c r =>
      if Ascii.eqb c "e" || Ascii.eqb c "E" then
        let '(sg, r) :=
          match r with
          | String "-" r' => (-1, r')
          | String "+" r' => (1, r')
          | _ => (1, r)
          end in
        match scan 0 0 r with
        | (_, O, _) => None
        | (e, _, EmptyString) => Some (sg * e)
        | _ => None
        end
      else None
  end.

Definition decimal (s : string) : option num :=
  let '(neg, s) :=
    match s with
    | String "-" r => (true, r)
    | String "+" r => (false, r)
    | _ => (false, s)
    end in
  if String.eqb s "Infinity" then Some (if neg then NegInf else PosInf)
  else
    let '(ip, n1, s) := scan 0 0 s in
    let '(m, n2, s) :=
      match s with
      | String "." r => scan ip 0 r
      | _ => (ip, O, s)
      end in
    match (n1 + n2)%nat, exponent s with
    | O, _ => None
    | _, None => None
    | _, Some e => Some (Fin (scale (if neg then - m else m) (e - Z.of_nat n2)))
    end.

(** [Number(string)]: white space around is dropped, the empty string is 0,
    then a literal with a [0x], [0o] or [0b] prefix or a decimal one. *)
Definition toNumber (input : string) : option num :=
  let s := trim input in
  match s with
  | EmptyString => Some (Fin 0)
  | _ =>
      match nondecimal s with
      | Some r => option_map (fun z => Fin (inject_Z z)) r
      | None => decimal s
      end
  end.

Definition plus (a b : num) : option num :=
  match a, b with
  | Fin x, Fin y => Some (Fin (Qred (x + y)))
  | PosInf, NegInf | NegInf, PosInf => None
  | PosInf, _ | _, PosInf => Some PosInf
  | NegInf, _ | _, NegInf => Some NegInf
  end.

Definition is_zero (a : num) : bool :=
  match a with
  | Fin q => (Qnum q =? 0)%Z
  | _ => false
  end.

(** Dots between groups of three digits, counted from the right. *)
Fixpoint group3 (rev_digits : list ascii) (k : nat) : list ascii :=
  match rev_digits with
  | [] => []
  | c :: r =>
      match k, r with
      | 2%nat, _ :: _ => c :: "."%char :: group3 r 0
      | _, _ => c :: group3 r (S k)
      end
  end.

(** Two decimals after a comma, halves rounded away from zero, and the
    integer part grouped from five digits on. *)
Definition format (n : option num) : string :=
  match n with
  | None => "NaN"
  | Some PosInf => "∞"
  | Some NegInf => "-∞"
  | Some (Fin q) =>
      let a := Z.abs (Qnum q) in
      let b := Zpos (Qden q) in
      let cents := (200 * a + b) / (2 * b) in
      let ip := list_ascii_of_string (string_of_Z (cents / 100)) in
      let ip := if (5 <=? List.length ip)%nat then rev (group3 (rev ip) 0) else ip in
      let fp := cents mod 100 in
      (if (Qnum q <? 0)%Z then "-" else "")
        ++ string_of_list_ascii ip ++ ","
        ++ (if fp <? 10 then "0" else "") ++ string_of_Z fp
  end.

#[export] Instance float : Script.Float := {
  Script.double := num;
  Script.Number := toNumber;
  Script.plus := plus;
  Script.zero := Fin 0;
  Script.is_zero := is_zero;
  Script.format := format
}.

(** Coordinates: [None] is [NaN]. *)
Definition lt (a b : option num) : bool :=
  match a, b with
  | Some (Fin x), Some (Fin y) => match (x ?= y)%Q with Lt => true | _ => false end
  | Some NegInf, Some (Fin _) | Some NegInf, Some PosInf | Some (Fin _), Some PosInf => true
  | _, _ => false
  end.

Definition minus (a b : option num) : option num :=
  match a, b with
  | Some (Fin x), Some (Fin y) => Some (Fin (Qred (x - y)%Q))
  | Some PosInf, Some PosInf | Some NegInf, Some NegInf => None
  | Some PosInf, Some _ | Some (Fin _), Some NegInf => Some PosInf
  | Some NegInf, Some _ | Some (Fin _), Some PosInf => Some NegInf
  | _, _ => None
  end.

Definition half (a : option num) : option num :=
  match a with
  | Some (Fin x) => Some (Fin (Qred (x / 2)%Q))
  | _ => a
  end.

(** The layout in which the box of [n] starts at [top n] and is [height n]
    high. *)
Definition layout (top height : Dom.node -> Q) : Script.Layout := {|
  Script.px := option num;
  Script.lt := lt;
  Script.minus := minus;
  Script.half := half;
  Script.px_zero := Some (Fin 0);
  Script.NEGATIVE_INFINITY := Some NegInf;
  Script.box_top := fun n => Some (Fin (top n));
  Script.box_height := fun n => Some (Fin (height n))
|}.

End Exact.

(* ================================================================== *)
(** ** Observations on states, and pages to run the handlers on *)

Import JS Dom Script.

(** The requests issued between [st] and a later state [st']: [fetch] only
    appends. *)
Definition issued (st st' : state) : list request :=
  map fst (skipn (List.length (fetched st)) (fetched st')).

(** The [mark] of a request body. *)
Definition request_mark (r : request) : option Z :=
  match body r with
  | Some b => match get b "mark" with VNum m => Some m | _ => None end
  | None => None
  end.

(** The class list of the element [n]. *)
Definition classes_of (d : document) (n : node) : option (list string) :=
  option_map classList (getElement d n).

(** Identities are distinct in a document. *)
Definition wf_document (d : document) : Prop := NoDup (map nid d).

(** The parents form a tree: every parent is an element of the document and
    lies at a smaller depth than its child, and depths stay below the
    number of elements. *)
Definition tree_shaped (d : document) : Prop :=
  exists depth : node -> nat,
    forall e, In e d ->
      (depth (nid e) < List.length d)%nat
      /\ forall p, parentNode e = Some p ->
                   In p (map nid d) /\ (depth p < depth (nid e))%nat.

(** A numeric cell is coherent when [marked] comes with one of [mark-1] ..
    [mark-9]. *)
Definition cell_ok (e : element) : bool :=
  implb (td_num_cell e && contains "marked" (classList e))
        (existsb (fun i => contains (mark_class i) (classList e)) marks).

Definition cells_ok (d : document) : bool := forallb cell_ok d.

(** [f] keeps the identity and the parent of every element. *)
Definition frames (f : element -> element) : Prop :=
  forall e, nid (f e) = nid e /\ parentNode (f e) = parentNode e.

(** The settlements of a mark request on which the handler does not act:
    the fetch rejects, no JSON comes back, the data is missing (falsy), or
    [data.ok === false]. *)
Definition mark_failed (o : outcome) : Prop :=
  match o with
  | Rejected => True
  | Resolved _ None => True
  | Resolved _ (Some data) => truthy data = false \/ get data "ok" = VBool false
  end.

Definition mark_continuation (k : continuation) : Prop :=
  match k with
  | OnMarkClick _ | OnMarkKey => True
  | _ => False
  end.

(** What the specification's wording asks of the double click: a request whenever the
    row has a [data-id] attribute. *)
Definition dblclick_requests_as_stated (d : document) (td : node) : list request :=
  match closest d (has_tag "tr") td with
  | Some tr =>
      match getElement d tr with
      | Some tr_el =>
          match getAttribute tr_el "data-id" with
          | Some id => [pagado_request id]
          | None => []
          end
      | None => []
      end
  | None => []
  end.

Section Totals.
Context {F : Float}.

(** The specification's wording: the values [parseNum(data-val)] of the cells
    [td.num-cell] with class [marked] and the given [data-col] inside the
    table, in document order, and their sum from 0.  A cell without
    [data-val] counts as ['0'], as in the script. *)
Definition marked_values (d : document) (table : node) (col : string)
  : list (option double) :=
  map (fun cell => parseNum (match getAttribute cell "data-val" with
                             | Some v => v
                             | None => "0"
                             end))
      (filter (fun e => has_tag "td" e && has_class "num-cell" e
                        && has_class "marked" e && has_attr "data-col" col e
                        && inside d table e) d).

Definition total (d : document) (table : node) (col : string) : option double :=
  fold_left js_add (marked_values d table col) (Some zero).

End Totals.

(** The classes that survive the removals of the mark update. *)
Definition keep (c : string) : bool :=
  negb (String.eqb "marked" c)
  && forallb (fun i => negb (String.eqb (mark_class i) c)) marks.

(** The specification's wording of the toggle: the attribute, ['asc'] when it is
    absent, in lower case. *)
Definition next_orden_as_stated (data_orden : option string) : string :=
  let current := toLowerCase (match data_orden with Some s => s | None => "asc" end) in
  if String.eqb current "asc" then "desc" else "asc".

(** The identifiers of the rows under [tbody], in document order: the
    [data-id] values that are digits once trimmed. *)
Definition row_ids (d : document) (tbody : node) : list string :=
  flat_map (fun r => match getAttribute r "data-id" with
                     | Some i => if test_digits (trim i) then [i] else []
                     | None => []
                     end)
           (querySelectorAll d tbody (has_tag "tr")).

(** The specification's wording: all [data-id] attributes of the rows, and a request
    unless [data-cliente] is absent or there is no identifier. *)
Definition dragend_requests_as_stated (d : document) (table tbody : node) : list request :=
  match getElement d table with
  | Some table_el =>
      match getAttribute table_el "data-cliente" with
      | Some cliente =>
          match flat_map (fun r => match getAttribute r "data-id" with
                                   | Some i => [i]
                                   | None => []
                                   end)
                         (querySelectorAll d tbody (has_tag "tr")) with
          | [] => []
          | ids => [reorder_request cliente ids]
          end
      | None => []
      end
  | None => []
  end.


(** [f] keeps the identity, the parent and what makes a numeric cell. *)
Definition keeps_cell (f : element -> element) : Prop :=
  frames f /\ forall e, td_num_cell (f e) = td_num_cell e.

(** One run of a listener, or one settlement of a request, takes the page
    from [st] to [st']. *)
Definition one_step {F : Float} {L : Layout} (st st' : state) : Prop :=
  (exists target, st' = document_click target st)
  \/ (exists td shiftKey ctrlKey metaKey, st' = td_click td shiftKey ctrlKey metaKey st)
  \/ (exists key, st' = document_keydown key st)
  \/ (exists td, st' = td_dblclick td st)
  \/ (exists th, st' = th_click th st)
  \/ (exists btn, st' = toggle_click btn st)
  \/ (exists id tr transfer row,
        st' = page (fst (tr_dragstart id tr transfer (mkReorder st row))))
  \/ (exists tbody y transfer row,
        st' = page (fst (tbody_dragover tbody y transfer (mkReorder st row))))
  \/ (exists table tbody tr, st' = tr_dragend table tbody tr st)
  \/ (exists k o, st' = settle k o st).

(** A request of the script: a [POST] to a path under [/estado-cuenta/]. *)
Definition is_post (r : request) : bool :=
  String.eqb (method r) "POST" && String.prefix "/estado-cuenta/" (url r).

(** One run of a listener takes the page from [st] to [st']. *)
Definition listener_step {L : Layout} (st st' : state) : Prop :=
  (exists target, st' = document_click target st)
  \/ (exists td shiftKey ctrlKey metaKey, st' = td_click td shiftKey ctrlKey metaKey st)
  \/ (exists key, st' = document_keydown key st)
  \/ (exists td, st' = td_dblclick td st)
  \/ (exists th, st' = th_click th st)
  \/ (exists btn, st' = toggle_click btn st)
  \/ (exists id tr transfer row,
        st' = page (fst (tr_dragstart id tr transfer (mkReorder st row))))
  \/ (exists tbody y transfer row,
        st' = page (fst (tbody_dragover tbody y transfer (mkReorder st row))))
  \/ (exists table tbody tr, st' = tr_dragend table tbody tr st).

(** The settlement [o] of the request [k] writes no mark above 9: it is not
    an accepted answer to a mark request, or the mark it carries is at most
    9. *)
Definition small_mark (k : continuation) (o : outcome) : Prop :=
  match o with
  | Resolved _ (Some data) =>
      mark_continuation k -> refused data = false ->
      match response_mark data with Some m => m <= 9 | None => True end
  | _ => True
  end.

(** The states of a page from its load on, through any listeners and any
    settlements of which none writes a mark above 9. *)
Inductive small_run {F : Float} {L : Layout} : state -> Prop :=
| run_load (d : document) (loc : location) : small_run (DOMContentLoaded d loc)
| run_listener (st st' : state) : small_run st -> listener_step st st' -> small_run st'
| run_settle (st : state) (k : continuation) (o : outcome) :
    small_run st -> small_mark k o -> small_run (settle k o st).

(** No element lies inside a [.sum-bar].  [bar.innerHTML = ...] replaces
    what the bar holds by what the markup makes, two [strong] with their
    text, which are content of the bar and not elements of the model's
    document; on a document whose bars hold no element nothing else leaves
    the document. *)
Definition bars_empty (d : document) : bool :=
  forallb (fun b => negb (has_class "sum-bar" b)
                    || forallb (fun x => negb (inside d (nid b) x)) d) d.

Section Stated.
Context {F : Float}.


End Stated.

(** What the load does to a row: [draggable] is set when its [data-id] is a
    valid identifier and removed otherwise. *)
Definition draggable_by_id (e : element) : element :=
  if isValidId (getAttribute e "data-id")
  then setAttribute "draggable" "true" e
  else removeAttribute "draggable" e.

(** The rows of the reorder tables: for each [table.reorder-table], the
    [tr] under its first [tbody]. *)
Definition reorder_rows (d : document) : list element :=
  flat_map (fun table =>
              match querySelector d (nid table) (has_tag "tbody") with
              | Some tbody => querySelectorAll d (nid tbody) (has_tag "tr")
              | None => []
              end)
           (document_querySelectorAll d
              (sel_and (has_tag "table") (has_class "reorder-table"))).

(** What a click on a toggle writes when its group [p] was open or not:
    the display of the submenu [s] and the class [open] of the group. *)
Definition toggled (was_open : bool) (p s : node) (d : document) : document :=
  modify p (with_classList (if was_open then remove "open" else add "open"))
         (modify s (with_display (if was_open then "none" else "block")) d).

Module Page.
Local Open Scope nat_scope.

Definition el (n : node) (tag : string) (cls : list string)
    (attrs : list (string * string)) (parent : option node) : element :=
  mkElement n tag cls attrs parent None None None.

(** A card with one statement table: a row with two marked cells and a due
    date cell, and a row whose identifier is not a number. *)
Definition statement (cliente orden : string) : document :=
  [ el 0 "div" ["card"] [] None;
    el 1 "table" ["reorder-table"]
       [("data-cliente", cliente); ("data-orden", orden)] (Some 0%nat);
    el 2 "thead" [] [] (Some 1%nat);
    el 3 "th" ["sortable"] [("data-sort", "fecha")] (Some 2%nat);
    el 4 "tbody" [] [] (Some 1%nat);
    el 5 "tr" [] [("data-id", "7")] (Some 4%nat);
    el 6 "td" ["num-cell"; "marked"; "mark-2"]
       [("data-id", "7"); ("data-col", "DEBE"); ("data-val", "1.234,50")] (Some 5%nat);
    el 7 "td" ["num-cell"; "marked"]
       [("data-id", "7"); ("data-col", "HABER"); ("data-val", "10")] (Some 5%nat);
    el 8 "td" ["venc-cell"; "overdue"] [] (Some 5%nat);
    el 9 "tr" [] [("data-id", "x9")] (Some 4%nat);
    el 10 "td" ["num-cell"; "marked"; "mark-1"]
       [("data-id", "x9"); ("data-col", "DEBE"); ("data-val", "0.5")] (Some 9%nat);
    el 11 "tr" [] [("data-id", "")] (Some 4%nat);
    el 12 "td" ["venc-days"; "overdue"] [] (Some 11%nat) ].

Definition here : location :=
  mkLocation "http://127.0.0.1:5000/estado-cuenta"
             [("orden", "asc"); ("cliente", "3"); ("orden", "x")] "".

(** The page once loaded, under the exact interpretation of numbers. *)
Definition loaded (cliente orden : string) : state :=
  DOMContentLoaded (F := Exact.float) (statement cliente orden) here.

Definition ok_mark (m : Z) : value := VObj [("ok", VBool true); ("mark", VNum m)].

(** A group of the navigation with its toggle and its submenu, and a second
    toggle for the same submenu that lies in no group. *)
Definition menu (cls : list string) : document :=
  [ el 0 "div" ("nav-group" :: cls) [] None;
    el 1 "button" ["nav-group-toggle"] [("data-target", "sub-ventas")] (Some 0%nat);
    el 2 "ul" ["nav-sub"] [("id", "sub-ventas")] (Some 0%nat);
    el 3 "button" ["nav-group-toggle"] [("data-target", "sub-ventas")] None ].

Definition menu_loaded (cls : list string) : state :=
  DOMContentLoaded (F := Exact.float) (menu cls) here.


(** Every box is 10 high and the box of the element [n] starts at [10 n]:
    the rows 5, 9 and 11 of [statement] have their middles at 55, 95 and
    115. *)
Definition boxes : Layout :=
  Exact.layout (fun n => inject_Z (Z.of_nat n) * 10)%Q (fun _ => 10%Q).

Definition at_height (y : Z) : option Exact.num := Some (Exact.Fin (inject_Z y)).

End Page.

(* ================================================================== *)
(** ** Properties *)

(** Distinct identities of a concrete page, by computation. *)
Ltac distinct_ids :=
  unfold wf_document; vm_compute;
  repeat (constructor; [simpl; intuition lia|]); constructor.

(** *** The primitives on sample inputs *)

Example parseInt_examples :
  parseInt "7" = Some 7 /\ parseInt " 12px" = Some 12 /\ parseInt "-3" = Some (-3)
  /\ parseInt "0x1f" = Some 31 /\ parseInt "Enter" = None /\ parseInt "F1" = None
  /\ parseInt "" = None /\ parseInt "-" = None.
Proof. repeat split. Qed.

Example parseInt_value_examples :
  parseInt_value (VNum 5) = Some 5 /\ parseInt_value (VStr "3") = Some 3
  /\ parseInt_value (VBool true) = None /\ parseInt_value (VArr [VNum 4]) = Some 4
  /\ parseInt_value (VObj []) = None.
Proof. repeat split. Qed.

Example string_examples :
  trim "  12 3  " = "12 3" /\ toLowerCase "AsC" = "asc"
  /\ encodeURIComponent "a b/c" = "a%20b%2Fc"
  /\ test_digits "0042" = true /\ test_digits "" = false /\ test_digits "4 2" = false
  /\ mark_class 12 = "mark-12".
Proof. repeat split. Qed.

Example searchParams_set_examples :
  searchParams_set "orden" "desc" [("orden", "asc"); ("x", "1"); ("orden", "z")]
  = [("orden", "desc"); ("x", "1")]
  /\ searchParams_set "orden" "desc" [("x", "1")] = [("x", "1"); ("orden", "desc")].
Proof. split; reflexivity. Qed.

(** *** Bookkeeping of the state *)

Lemma skipn_length_app {A} (l l' : list A) : skipn (List.length l) (l ++ l') = l'.
Proof. induction l; simpl; auto. Qed.

Lemma issued_refl st : issued st st = [].
Proof.
  unfold issued. rewrite <- (app_nil_r (fetched st)) at 2.
  now rewrite skipn_length_app.
Qed.

Lemma fetched_log msg st : fetched (log msg st) = fetched st.
Proof. unfold log. now destruct (DEBUG_LOG st). Qed.

Lemma dom_log msg st : dom (log msg st) = dom st.
Proof. unfold log. now destruct (DEBUG_LOG st). Qed.

Lemma issued_fetch_log r k msg st : issued st (fetch r k (log msg st)) = [r].
Proof.
  unfold issued. simpl. rewrite fetched_log, skipn_length_app. reflexivity.
Qed.

Lemma issued_fetch r k st : issued st (fetch r k st) = [r].
Proof. unfold issued. simpl. now rewrite skipn_length_app. Qed.

Lemma request_mark_mark_request id col m :
  request_mark (mark_request id col m) = Some m.
Proof. reflexivity. Qed.

(** *** Class lists *)

Lemma contains_remove x y l :
  contains x (remove y l) = contains x l && negb (String.eqb y x).
Proof.
  unfold contains, remove. induction l as [|a l IH]; simpl; [reflexivity|].
  destruct (String.eqb_spec y a) as [->|Hya]; simpl.
  - rewrite IH. destruct (String.eqb_spec x a) as [->|Hxa]; simpl.
    + rewrite String.eqb_refl. simpl. now rewrite andb_false_r.
    + reflexivity.
  - rewrite IH. destruct (String.eqb_spec x a) as [->|Hxa]; simpl; [|reflexivity].
    destruct (String.eqb_spec y a); [contradiction|reflexivity].
Qed.

Lemma contains_app x l l' : contains x (l ++ l')%list = contains x l || contains x l'.
Proof. unfold contains. apply existsb_app. Qed.

Lemma contains_add x y l : contains x (add y l) = contains x l || String.eqb x y.
Proof.
  unfold add. destruct (contains y l) eqn:Hy.
  - destruct (String.eqb_spec x y) as [->|_]; [now rewrite Hy|now rewrite orb_false_r].
  - rewrite contains_app. simpl. now rewrite orb_false_r.
Qed.

Lemma remove_absent x l : contains x l = false -> remove x l = l.
Proof.
  unfold contains, remove. induction l as [|a l IH]; simpl; [reflexivity|].
  intros H. apply orb_false_elim in H as [Ha Hl]. rewrite Ha. simpl. now rewrite IH.
Qed.

(** *** Updates that keep the tree *)

Lemma frames_with_classList g : frames (with_classList g).
Proof. intros e. split; reflexivity. Qed.

Lemma frames_with_display v : frames (with_display v).
Proof. intros e. split; reflexivity. Qed.

Lemma frames_with_innerHTML v : frames (with_innerHTML v).
Proof. intros e. split; reflexivity. Qed.

Lemma frames_with_cursor v : frames (with_cursor v).
Proof. intros e. split; reflexivity. Qed.

Lemma frames_with_attributes g : frames (with_attributes g).
Proof. intros e. split; reflexivity. Qed.

Lemma frames_setAttribute k v : frames (setAttribute k v).
Proof. intros e. split; reflexivity. Qed.

Lemma frames_removeAttribute k : frames (removeAttribute k).
Proof. intros e. split; reflexivity. Qed.

Lemma frames_at n f : frames f -> frames (fun e => if Nat.eqb (nid e) n then f e else e).
Proof. intros Hf e. destruct (Nat.eqb (nid e) n); [apply Hf|split; reflexivity]. Qed.

Create HintDb frames.
#[local] Hint Resolve frames_with_classList frames_with_display frames_with_innerHTML
  frames_with_cursor frames_with_attributes frames_setAttribute frames_removeAttribute
  frames_at : frames.

Lemma getElement_map g d x :
  frames g -> getElement (map g d) x = option_map g (getElement d x).
Proof.
  intros Hg. unfold getElement. induction d as [|e d IH]; simpl; [reflexivity|].
  rewrite (proj1 (Hg e)). destruct (Nat.eqb (nid e) x); [reflexivity|apply IH].
Qed.

Lemma closest_from_map g d sel fuel x :
  frames g -> (forall e, sel (g e) = sel e) ->
  closest_from fuel (map g d) sel x = closest_from fuel d sel x.
Proof.
  intros Hg Hsel. revert x. induction fuel as [|fuel IH]; intros x; simpl; [reflexivity|].
  rewrite getElement_map by assumption.
  destruct (getElement d x) as [e|]; simpl; [|reflexivity].
  rewrite Hsel, (proj2 (Hg e)).
  destruct (sel e); [reflexivity|].
  destruct (parentNode e); [apply IH|reflexivity].
Qed.

Lemma inside_map g d root e :
  frames g -> inside (map g d) root (g e) = inside d root e.
Proof.
  intros Hg. unfold inside. rewrite (proj2 (Hg e)), length_map.
  destruct (parentNode e) as [p|]; [|reflexivity].
  rewrite closest_from_map; [reflexivity|assumption|].
  intros a. now rewrite (proj1 (Hg a)).
Qed.

Lemma querySelectorAll_map g d root sel :
  frames g -> (forall e, sel (g e) = sel e) ->
  querySelectorAll (map g d) root sel = map g (querySelectorAll d root sel).
Proof.
  intros Hg Hsel. unfold querySelectorAll. rewrite filter_map_swap.
  f_equal. apply filter_ext. intros e. now rewrite Hsel, inside_map.
Qed.

Lemma getElement_In d n e : getElement d n = Some e -> In e d /\ nid e = n.
Proof.
  unfold getElement. intros H. apply find_some in H as [Hin Hn].
  split; [assumption|now apply Nat.eqb_eq].
Qed.

Lemma getElement_of_In d e :
  wf_document d -> In e d -> getElement d (nid e) = Some e.
Proof.
  unfold wf_document, getElement. induction d as [|a d IH]; simpl; [intros _ []|].
  intros Hnd [->|Hin].
  - now rewrite Nat.eqb_refl.
  - inversion Hnd as [|? ? Hna Hnd']; subst.
    destruct (Nat.eqb_spec (nid a) (nid e)) as [Heq|_].
    + exfalso. apply Hna. rewrite Heq. now apply in_map.
    + now apply IH.
Qed.

(** *** The mark that is sent *)

Lemma click_mark_cases shiftKey ctrlKey metaKey :
  click_mark shiftKey ctrlKey metaKey =
    (if shiftKey then 0 else if ctrlKey || metaKey then 1 else -1)
  /\ -1 <= click_mark shiftKey ctrlKey metaKey <= 1.
Proof. unfold click_mark. destruct shiftKey, ctrlKey, metaKey; simpl; lia. Qed.

Lemma keydown_mark_range key d :
  keydown_mark key = Some d -> parseInt key = Some d /\ 0 <= d <= 9.
Proof.
  unfold keydown_mark. destruct (parseInt key) as [n|]; [|discriminate].
  destruct (n <? 0) eqn:Hlo; [discriminate|].
  destruct (n >? 9) eqn:Hhi; [discriminate|].
  simpl. intros [= <-]. split; [reflexivity|]. lia.
Qed.

Lemma keydown_mark_digit key d :
  parseInt key = Some d -> 0 <= d <= 9 -> keydown_mark key = Some d.
Proof.
  intros Hp Hr. unfold keydown_mark. rewrite Hp.
  destruct (d <? 0) eqn:Hlo; [lia|]. destruct (d >? 9) eqn:Hhi; [lia|]. reflexivity.
Qed.

(** C1, as amended.  A click on a numeric cell posts one mark request, with
    the mark -1 when no modifier key is held, 0 with Shift and 1 with Ctrl
    or Meta; a key whose [parseInt] is a digit, after a numeric cell was
    clicked, posts one mark request with that digit, and any other key
    none.  Every mark sent is an integer in [-1,9], and one sent by the
    keydown handler is in [0,9]. *)
Theorem mark_sent_range (st : state) :
  (forall td td_el shiftKey ctrlKey metaKey,
      getElement (dom st) td = Some td_el ->
      issued st (td_click td shiftKey ctrlKey metaKey st)
      = [mark_request (getAttribute td_el "data-id") (getAttribute td_el "data-col")
                      (if shiftKey then 0 else if ctrlKey || metaKey then 1 else -1)])
  /\ (forall key cell cell_el d,
         lastClickedCell st = Some cell ->
         getElement (dom st) cell = Some cell_el ->
         parseInt key = Some d -> 0 <= d <= 9 ->
         issued st (document_keydown key st)
         = [mark_request (getAttribute cell_el "data-id")
                         (getAttribute cell_el "data-col") d])
  /\ (forall td shiftKey ctrlKey metaKey r,
         In r (issued st (td_click td shiftKey ctrlKey metaKey st)) ->
         request_mark r = Some (click_mark shiftKey ctrlKey metaKey)
         /\ -1 <= click_mark shiftKey ctrlKey metaKey <= 9)
  /\ (forall key r,
         In r (issued st (document_keydown key st)) ->
         exists d, request_mark r = Some d /\ parseInt key = Some d /\ 0 <= d <= 9).
Proof.
  split; [|split; [|split]].
  - intros td e s c m He. unfold td_click. rewrite He. apply issued_fetch_log.
  - intros key cell e d Hc He Hp Hr. unfold document_keydown.
    rewrite Hc, (keydown_mark_digit key d Hp Hr), He. apply issued_fetch_log.
  - intros td s c m r. unfold td_click.
    destruct (getElement (dom st) td) as [e|].
    + rewrite issued_fetch_log. intros [<-|[]].
      rewrite request_mark_mark_request.
      destruct (click_mark_cases s c m) as [Heq Hr]. split; [reflexivity|lia].
    + rewrite issued_refl. intros [].
  - intros key r. unfold document_keydown.
    destruct (lastClickedCell st) as [cell|]; [|rewrite issued_refl; intros []].
    destruct (keydown_mark key) as [d|] eqn:Hk; [|rewrite issued_refl; intros []].
    destruct (getElement (dom st) cell) as [e|]; [|rewrite issued_refl; intros []].
    rewrite issued_fetch_log. intros [<-|[]].
    apply keydown_mark_range in Hk as [Hp Hr].
    exists d. rewrite request_mark_mark_request. auto.
Qed.

(** A plain click on the first numeric cell of the loaded page, then the
    key 7: the requests carry -1 and 7. *)
Lemma mark_sent_range_witness :
  let st := Page.loaded "ACME" "asc" in
  let st' := click_cell 6 false false false st in
  let cell := Page.el 6 "td" ["num-cell"; "marked"; "mark-2"]
                      [("data-id", "7"); ("data-col", "DEBE"); ("data-val", "1.234,50")]
                      (Some 5%nat) in
  issued st (td_click 6 false false false st) = [mark_request (Some "7") (Some "DEBE") (-1)]
  /\ issued st' (document_keydown "7" st') = [mark_request (Some "7") (Some "DEBE") 7]
  /\ exists d, request_mark (mark_request (Some "7") (Some "DEBE") 7) = Some d
               /\ parseInt "7" = Some d /\ 0 <= d <= 9.
Proof.
  intros st st' cell. split; [|split].
  - apply (proj1 (mark_sent_range st) 6%nat cell false false false).
    vm_compute. reflexivity.
  - apply (proj1 (proj2 (mark_sent_range st')) "7" 6%nat cell 7).
    + reflexivity.
    + vm_compute. reflexivity.
    + reflexivity.
    + lia.
  - apply (proj2 (proj2 (proj2 (mark_sent_range st'))) "7"
             (mark_request (Some "7") (Some "DEBE") 7)).
    vm_compute. left. reflexivity.
Defined.

(** C1 as it is stated fails: the plain click on a numeric cell posts the
    mark -1, which is not in [0,9]. *)
Lemma mark_sent_not_in_0_9 :
  let st := Page.loaded "ACME" "asc" in
  map request_mark (issued st (td_click 6%nat false false false st)) = [Some (-1)]
  /\ ~ (forall r m, In r (issued st (td_click 6%nat false false false st)) ->
                    request_mark r = Some m -> 0 <= m <= 9).
Proof.
  intros st.
  assert (H : issued st (td_click 6%nat false false false st)
              = [mark_request (Some "7") (Some "DEBE") (-1)]) by (vm_compute; reflexivity).
  rewrite H. split; [reflexivity|].
  intros Hall.
  specialize (Hall _ (-1) (or_introl eq_refl) eq_refl). lia.
Qed.

(** *** [parseNum] *)

(** [trimStart] takes white space off the front, and all of it. *)
Lemma trimStart_spec s :
  exists pre, s = pre ++ trimStart s
              /\ forallb is_ws (list_ascii_of_string pre) = true
              /\ match trimStart s with
                 | String c _ => is_ws c = false
                 | EmptyString => True
                 end.
Proof.
  induction s as [|c s (pre & Heq & Hws & Hhd)]; simpl.
  - exists "". auto.
  - destruct (is_ws c) eqn:Hc.
    + exists (String c pre). simpl. rewrite Hc, Hws. split; [now f_equal|auto].
    + exists "". simpl. auto.
Qed.

(** [trimEnd] takes white space off the end, and all of it. *)
Lemma trimEnd_spec s :
  exists post, s = trimEnd s ++ post
               /\ forallb is_ws (list_ascii_of_string post) = true
               /\ (trimEnd s = "" \/
                   exists body c, trimEnd s = body ++ String c "" /\ is_ws c = false).
Proof.
  induction s as [|c s (post & Heq & Hws & Hlast)]; simpl.
  - exists "". auto.
  - destruct (trimEnd s) as [|c' r] eqn:Hr.
    + simpl in Heq. subst s. destruct (is_ws c) eqn:Hc.
      * exists (String c post). simpl. rewrite Hc, Hws. auto.
      * exists post. split; [reflexivity|]. split; [assumption|].
        right. exists "", c. auto.
    + exists post. split; [simpl in *; now f_equal|]. split; [assumption|].
      right. destruct Hlast as [Hnil|(body & x & Hb & Hx)]; [discriminate|].
      exists (String c body), x. split; [simpl; now rewrite Hb|assumption].
Qed.

(** What [s.replace(/\./g, '')] keeps: the characters other than the dot,
    in their order. *)
Lemma remove_dots_spec s :
  list_ascii_of_string (remove_dots s)
  = filter (fun c => negb (Ascii.eqb c ".")) (list_ascii_of_string s).
Proof.
  induction s as [|c s IH]; simpl; [reflexivity|].
  destruct (Ascii.eqb c "."); simpl; now rewrite IH.
Qed.

(** What [s.replace(',', '.')] does: the first comma becomes a dot, and a
    string without comma stays. *)
Lemma replace_first_comma_spec s :
  (forall a b, s = a ++ String "," b ->
               (forall c, In c (list_ascii_of_string a) -> c <> ","%char) ->
               replace_first_comma s = a ++ String "." b)
  /\ ((forall c, In c (list_ascii_of_string s) -> c <> ","%char) ->
      replace_first_comma s = s).
Proof.
  split.
  - intros a. revert s. induction a as [|x a IH]; intros s b -> Ha; simpl.
    + reflexivity.
    + destruct (Ascii.eqb_spec x ",") as [->|_].
      * exfalso. apply (Ha ","%char); simpl; auto.
      * f_equal. apply IH; [reflexivity|]. intros c Hc. apply Ha. simpl. auto.
  - induction s as [|x s IH]; intros Hs; simpl; [reflexivity|].
    destruct (Ascii.eqb_spec x ",") as [->|_].
    + exfalso. apply (Hs ","%char); simpl; auto.
    + f_equal. apply IH. intros c Hc. apply Hs. simpl. auto.
Qed.

Section Numbers.
Context {F : Float}.

(** C9.  [parseNum] yields a number for every string and never [NaN]: the
    value of the trimmed string when [Number] reads it; otherwise the value
    of that string with all its dots removed and its first comma turned into
    a dot; and 0 when that is not a number either. *)
Theorem parseNum_never_NaN (raw : string) :
  let str := trim raw in
  let es := replace_first_comma (remove_dots str) in
  isNaN (parseNum raw) = false
  /\ parseNum raw =
       match Number str with
       | Some n => Some n
       | None => match Number es with
                 | Some n => Some n
                 | None => Some zero
                 end
       end
  /\ list_ascii_of_string (remove_dots str)
     = filter (fun c => negb (Ascii.eqb c ".")) (list_ascii_of_string str)
  /\ (forall a b, remove_dots str = a ++ String "," b ->
                  (forall c, In c (list_ascii_of_string a) -> c <> ","%char) ->
                  es = a ++ String "." b)
  /\ ((forall c, In c (list_ascii_of_string (remove_dots str)) -> c <> ","%char) ->
      es = remove_dots str).
Proof.
  intros str es. split; [|split; [|split; [apply remove_dots_spec|]]].
  - unfold parseNum. fold str. destruct (Number str) as [n|]; simpl; [reflexivity|].
    fold es. now destruct (Number es).
  - unfold parseNum. fold str. destruct (Number str) as [n|]; simpl; [reflexivity|].
    fold es. now destruct (Number es).
  - apply replace_first_comma_spec.
Qed.

End Numbers.

(** [parseNum] on a Spanish amount: the dot goes, the comma becomes the
    decimal point. *)
Lemma parseNum_never_NaN_witness :
  replace_first_comma (remove_dots (trim " 1.234,50 ")) = "1234.50"
  /\ parseNum (F := Exact.float) " 1.234,50 " = Some (Exact.Fin (2469 # 2)).
Proof.
  destruct (parseNum_never_NaN (F := Exact.float) " 1.234,50 ")
    as (_ & Hval & _ & Hcomma & _).
  split.
  - apply (Hcomma "1234" "50"); [reflexivity|].
    simpl. intros c [<-|[<-|[<-|[<-|[]]]]]; discriminate.
  - rewrite Hval. vm_compute. reflexivity.
Defined.

(** [parseNum] on a plain amount and on a word, with exact numbers. *)
Example parseNum_examples :
  parseNum (F := Exact.float) " 0.5 " = Some (Exact.Fin (1 # 2))
  /\ parseNum (F := Exact.float) "1e3" = Some (Exact.Fin 1000)
  /\ parseNum (F := Exact.float) "n/a" = Some (Exact.Fin 0).
Proof. repeat split; vm_compute; reflexivity. Qed.

(** *** A mark request that fails *)

Section Failure.
Context {F : Float}.

Lemma refused_of_failed data :
  truthy data = false \/ get data "ok" = VBool false -> refused data = true.
Proof.
  unfold refused. intros [->| ->]; simpl; [reflexivity|apply orb_true_r].
Qed.

(** C4.  When a mark request fails, the document (the classes of the cell
    and the sum bar with it) stays as it is, no request is issued (no retry)
    and nothing is navigated; at most one line is added to the console. *)
Theorem mark_failure_only_logged (k : continuation) (o : outcome) (st : state) :
  mark_continuation k ->
  mark_failed o ->
  let st' := settle k o st in
  dom st' = dom st
  /\ lastClickedCell st' = lastClickedCell st
  /\ fetched st' = fetched st
  /\ navigated st' = navigated st
  /\ href st' = href st
  /\ (console st' = console st
      \/ console st' = (console st ++ [(Log, "mark resp")])%list
      \/ console st' = (console st ++ [(Error, "mark error")])%list).
Proof.
  intros Hk Ho.
  assert (Hlog : forall data, refused data = true ->
            forall cell,
            let st' := mark_response cell data st in
            dom st' = dom st /\ lastClickedCell st' = lastClickedCell st
            /\ fetched st' = fetched st /\ navigated st' = navigated st
            /\ href st' = href st
            /\ (console st' = console st
                \/ console st' = (console st ++ [(Log, "mark resp")])%list
                \/ console st' = (console st ++ [(Error, "mark error")])%list)).
  { intros data Hr cell. unfold mark_response. rewrite Hr. unfold log.
    destruct (DEBUG_LOG st); simpl; intuition. }
  destruct k as [|td| |tr]; try contradiction;
    destruct o as [|status [data|]]; simpl in *;
      try (repeat split; auto; fail);
      apply Hlog; apply refused_of_failed; assumption.
Qed.

End Failure.

(** A mark answered with [{ok: false}], one answered with [null], and one
    whose fetch rejects, on the loaded page. *)
Lemma mark_failure_only_logged_witness :
  let st := Page.loaded "ACME" "asc" in
  dom (settle (F := Exact.float) (OnMarkClick 6%nat) (Resolved 200 (Some (VObj [("ok", VBool false)]))) st)
    = dom st
  /\ dom (settle (F := Exact.float) OnMarkKey (Resolved 200 (Some VNull)) st) = dom st
  /\ fetched (settle (F := Exact.float) (OnMarkClick 6%nat) Rejected st) = fetched st.
Proof.
  intros st. split; [|split].
  - apply (mark_failure_only_logged (F := Exact.float) (OnMarkClick 6%nat)
             (Resolved 200 (Some (VObj [("ok", VBool false)]))) st I).
    simpl. right. reflexivity.
  - apply (mark_failure_only_logged (F := Exact.float) OnMarkKey
             (Resolved 200 (Some VNull)) st I).
    simpl. left. reflexivity.
  - apply (mark_failure_only_logged (F := Exact.float) (OnMarkClick 6%nat) Rejected st I I).
Defined.

(** *** Paid on double click *)

Lemma nid_inj d a b :
  wf_document d -> In a d -> In b d -> nid a = nid b -> a = b.
Proof.
  intros Hwf Ha Hb Hab.
  pose proof (getElement_of_In d a Hwf Ha) as H1.
  pose proof (getElement_of_In d b Hwf Hb) as H2.
  rewrite Hab in H1. congruence.
Qed.

Lemma with_classList_remove_absent x e :
  contains x (classList e) = false -> with_classList (remove x) e = e.
Proof.
  intros H. destruct e as [n t c a p sd sc ih]. unfold with_classList. simpl in *.
  now rewrite remove_absent.
Qed.

(** A [forEach] that applies an idempotent update [h] to each element of a
    list rewrites the document in one pass. *)
Lemma forEach_modify h els d :
  frames h -> (forall e, h (h e) = h e) ->
  fold_left (fun d el => modify (nid el) h d) els d
  = map (fun e => if existsb (fun el => Nat.eqb (nid el) (nid e)) els then h e else e) d.
Proof.
  intros Hh Hidem. revert d. induction els as [|el els IH]; intros d; simpl.
  - symmetry. apply map_id.
  - rewrite IH. unfold modify. rewrite map_map. apply map_ext. intros e.
    rewrite (Nat.eqb_sym (nid el) (nid e)).
    destruct (Nat.eqb (nid e) (nid el)) eqn:He; simpl.
    + rewrite (proj1 (Hh e)), Hidem.
      now destruct (existsb _ els).
    + reflexivity.
Qed.

Lemma pagado_response_dom tr data st :
  wf_document (dom st) ->
  refused data = false ->
  dom (pagado_response tr data st)
  = map (fun e => if inside (dom st) tr e then with_classList (remove "overdue") e else e)
        (dom st).
Proof.
  intros Hwf Hr. unfold pagado_response. rewrite Hr. simpl.
  rewrite forEach_modify; auto with frames.
  2:{ intros e. apply with_classList_remove_absent. simpl.
      rewrite contains_remove. simpl. apply andb_false_r. }
  apply map_ext_in. intros e He.
  destruct (existsb _ _) eqn:Hex.
  - apply existsb_exists in Hex as (el & Hel & Hn).
    apply Nat.eqb_eq in Hn. apply filter_In in Hel as [Hel Hsel].
    assert (el = e) as -> by (eapply nid_inj; eauto).
    apply andb_prop in Hsel as [_ ->]. reflexivity.
  - destruct (inside (dom st) tr e) eqn:Hin; [|reflexivity].
    destruct (contains "overdue" (classList e)) eqn:Hov.
    + exfalso. assert (Hx : existsb (fun el => Nat.eqb (nid el) (nid e))
                               (querySelectorAll (dom st) tr (has_class "overdue")) = true).
      { apply existsb_exists. exists e. split; [|apply Nat.eqb_refl].
        apply filter_In. split; [assumption|]. unfold has_class. now rewrite Hov, Hin. }
      congruence.
    + now rewrite with_classList_remove_absent.
Qed.

Section Paid.
Context {F : Float}.

(** C7, as amended.  A double click in a row whose [data-id] is a non-empty
    string posts once to the paid endpoint of that identifier and changes no
    class; when the answer is present (truthy) and its [ok] is not [false],
    [overdue] is removed from every element inside the row and nothing else
    changes; a double click outside a row, or in a row whose [data-id] is
    absent or empty, sends nothing and changes nothing. *)
Theorem pagado_on_dblclick (st : state) (td : node) :
  (forall tr tr_el id,
      closest (dom st) (has_tag "tr") td = Some tr ->
      getElement (dom st) tr = Some tr_el ->
      getAttribute tr_el "data-id" = Some id ->
      id <> "" ->
      td_dblclick td st = fetch (pagado_request id) (OnPagado tr) st
      /\ issued st (td_dblclick td st) = [pagado_request id]
      /\ dom (td_dblclick td st) = dom st)
  /\ (forall tr status data,
         wf_document (dom st) ->
         truthy data = true ->
         get data "ok" <> VBool false ->
         let st' := settle (OnPagado tr) (Resolved status (Some data)) st in
         dom st'
         = map (fun e => if inside (dom st) tr e
                         then with_classList (remove "overdue") e else e) (dom st)
         /\ (forall e, In e (dom st') -> inside (dom st') tr e = true ->
                       contains "overdue" (classList e) = false)
         /\ issued st st' = [])
  /\ ((closest (dom st) (has_tag "tr") td = None
       \/ exists tr tr_el,
           closest (dom st) (has_tag "tr") td = Some tr
           /\ getElement (dom st) tr = Some tr_el
           /\ (getAttribute tr_el "data-id" = None
               \/ getAttribute tr_el "data-id" = Some "")) ->
      td_dblclick td st = st).
Proof.
  split; [|split].
  - intros tr tr_el id Htr Hel Hid Hne. unfold td_dblclick.
    rewrite Htr, Hel, Hid. simpl.
    destruct (String.eqb_spec id "") as [->|_]; [contradiction|]. simpl.
    split; [reflexivity|]. split; [apply issued_fetch|reflexivity].
  - intros tr status data Hwf Ht Hok st'.
    assert (Hr : refused data = false).
    { unfold refused. rewrite Ht. simpl.
      destruct (get data "ok") as [| |[|]| | | |]; try reflexivity. now contradiction Hok. }
    assert (Hdom : dom st'
         = map (fun e => if inside (dom st) tr e
                         then with_classList (remove "overdue") e else e) (dom st))
      by (subst st'; simpl; now apply pagado_response_dom).
    split; [assumption|]. split.
    + intros e He Hin. rewrite Hdom in He, Hin.
      apply in_map_iff in He as (e0 & <- & He0).
      rewrite (inside_map (fun e => if inside (dom st) tr e
                                    then with_classList (remove "overdue") e else e)) in Hin.
      2:{ intros a. destruct (inside (dom st) tr a); split; reflexivity. }
      rewrite Hin. simpl. rewrite contains_remove. simpl. apply andb_false_r.
    + subst st'. simpl. unfold pagado_response. rewrite Hr. exact (issued_refl st).
  - unfold td_dblclick. intros [->|(tr & tr_el & -> & -> & [-> | ->])]; reflexivity.
Qed.

End Paid.

(** On the loaded page: a double click on the due date of row 7, and its
    answer [{ok: true}]; a double click in the row without identifier. *)
Lemma pagado_on_dblclick_witness :
  let st := Page.loaded "ACME" "asc" in
  issued st (td_dblclick 8%nat st) = [pagado_request "7"]
  /\ classes_of (dom (settle (F := Exact.float) (OnPagado 5%nat)
                        (Resolved 200 (Some (VObj [("ok", VBool true)]))) st)) 8%nat
     = Some ["venc-cell"]
  /\ td_dblclick 12%nat st = st.
Proof.
  intros st. split; [|split].
  - apply (proj1 (pagado_on_dblclick (F := Exact.float) st 8%nat) 5%nat
             (Page.el 5 "tr" [] [("data-id", "7"); ("draggable", "true")] (Some 4%nat)) "7");
      [vm_compute; reflexivity .. | discriminate].
  - destruct (proj1 (proj2 (pagado_on_dblclick (F := Exact.float) st 8%nat)) 5%nat 200
                (VObj [("ok", VBool true)])) as (Hdom & _).
    + unfold wf_document. vm_compute.
      repeat (constructor; [simpl; intuition lia|]). constructor.
    + reflexivity.
    + discriminate.
    + rewrite Hdom. vm_compute. reflexivity.
  - apply (proj2 (proj2 (pagado_on_dblclick (F := Exact.float) st 12%nat))).
    right. exists 11%nat, (Page.el 11 "tr" [] [("data-id", "")] (Some 4%nat)).
    repeat split; try (vm_compute; reflexivity). right. vm_compute. reflexivity.
Defined.

(** C7 as it is stated fails: row 11 of the page has a [data-id] attribute,
    the empty one, and the double click in it sends no request. *)
Lemma pagado_empty_id_sends_nothing :
  let st := Page.loaded "ACME" "asc" in
  issued st (td_dblclick 12%nat st) = []
  /\ dblclick_requests_as_stated (dom st) 12%nat = [pagado_request ""]
  /\ issued st (td_dblclick 12%nat st) <> dblclick_requests_as_stated (dom st) 12%nat.
Proof.
  intros st. split; [|split]; try (vm_compute; reflexivity).
  vm_compute. discriminate.
Qed.

(** *** The sum bar *)

Lemma fresh_above d e : In e d -> (nid e < fresh d)%nat.
Proof.
  unfold fresh. induction d as [|a d IH]; simpl; [intros []|].
  intros [->|Hin]; [lia|]. specialize (IH Hin). lia.
Qed.

Lemma getElement_insert_before new ref d :
  (forall e, In e d -> nid e <> nid new) ->
  (exists e, In e d /\ nid e = ref) ->
  getElement (insert_before new ref d) (nid new) = Some new.
Proof.
  unfold getElement. induction d as [|a d IH]; simpl; intros Hfresh (e & Hin & He).
  - contradiction.
  - destruct (Nat.eqb_spec (nid a) ref) as [Ha|Ha]; simpl.
    + now rewrite Nat.eqb_refl.
    + destruct (Nat.eqb_spec (nid a) (nid new)) as [Hn|_].
      * exfalso. apply (Hfresh a); auto.
      * apply IH; [intros x Hx; apply Hfresh; auto|].
        destruct Hin as [->|Hin]; [contradiction|]. exists e. auto.
Qed.

Lemma others_insert_before new ref d :
  filter (fun e => negb (Nat.eqb (nid e) (nid new))) (insert_before new ref d)
  = filter (fun e => negb (Nat.eqb (nid e) (nid new))) d.
Proof.
  induction d as [|a d IH]; simpl; [reflexivity|].
  destruct (Nat.eqb (nid a) ref); simpl.
  - now rewrite Nat.eqb_refl.
  - now rewrite IH.
Qed.

Lemma nids_insert_before new ref d n :
  In n (map nid (insert_before new ref d)) -> n = nid new \/ In n (map nid d).
Proof.
  induction d as [|a d IH]; simpl; [intros []|].
  destruct (Nat.eqb (nid a) ref); simpl.
  - intros [<-|[<-|H]]; auto.
  - intros [<-|H]; auto. destruct (IH H); auto.
Qed.

Lemma wf_insert_before new ref d :
  wf_document d -> (forall e, In e d -> nid e <> nid new) ->
  wf_document (insert_before new ref d).
Proof.
  unfold wf_document. induction d as [|a d IH]; simpl; intros Hwf Hfresh; [constructor|].
  inversion Hwf as [|? ? Ha Hd]; subst.
  destruct (Nat.eqb (nid a) ref); simpl.
  - constructor; [|assumption].
    simpl. intros [Heq|Hin].
    + apply (Hfresh a); auto.
    + apply in_map_iff in Hin as (x & Hx & Hin). apply (Hfresh x); auto.
  - constructor; [|apply IH; auto].
    intros Hin. apply nids_insert_before in Hin as [Heq|Hin]; [|contradiction].
    apply (Hfresh a); auto.
Qed.

Lemma nids_modify n f d : frames f -> map nid (modify n f d) = map nid d.
Proof.
  intros Hf. unfold modify. rewrite map_map. apply map_ext. intros e.
  destruct (Nat.eqb (nid e) n); [apply Hf|reflexivity].
Qed.

Lemma wf_modify n f d : frames f -> wf_document d -> wf_document (modify n f d).
Proof. intros Hf. unfold wf_document. now rewrite nids_modify. Qed.

Lemma others_modify n f d :
  frames f ->
  filter (fun e => negb (Nat.eqb (nid e) n)) (modify n f d)
  = filter (fun e => negb (Nat.eqb (nid e) n)) d.
Proof.
  intros Hf. induction d as [|a d IH]; simpl; [reflexivity|].
  destruct (Nat.eqb (nid a) n) eqn:Ha; simpl.
  - rewrite (proj1 (Hf a)), Ha. simpl. apply IH.
  - rewrite Ha. simpl. now rewrite IH.
Qed.

Lemma getElement_modify n f d x :
  frames f ->
  getElement (modify n f d) x
  = option_map (fun e => if Nat.eqb (nid e) n then f e else e) (getElement d x).
Proof. intros Hf. unfold modify. apply getElement_map. auto with frames. Qed.

Lemma getElement_insert_before_other new ref d n :
  n <> nid new -> getElement (insert_before new ref d) n = getElement d n.
Proof.
  intros Hn. unfold getElement. induction d as [|a d IH]; simpl; [reflexivity|].
  destruct (Nat.eqb (nid a) ref); simpl.
  - destruct (Nat.eqb_spec (nid new) n) as [Heq|_]; [now contradiction Hn|reflexivity].
  - destruct (Nat.eqb (nid a) n); [reflexivity|apply IH].
Qed.

(** *** Documents that are trees *)

Lemma getElement_exists d x :
  In x (map nid d) -> exists e, getElement d x = Some e /\ In e d /\ nid e = x.
Proof.
  intros Hx. destruct (getElement d x) as [e|] eqn:He.
  - exists e. split; [reflexivity|]. now apply getElement_In.
  - exfalso. apply in_map_iff in Hx as (e & Hn & Hin).
    unfold getElement in He. apply (find_none _ _ He) in Hin.
    rewrite Hn, Nat.eqb_refl in Hin. discriminate.
Qed.

(** With fuel above the depth of the node the walk to the root is
    complete: more fuel changes nothing. *)
Lemma closest_from_enough d depth sel :
  (forall e, In e d ->
     forall p, parentNode e = Some p -> In p (map nid d) /\ (depth p < depth (nid e))%nat) ->
  forall fuel fuel' x,
    In x (map nid d) -> (depth x < fuel)%nat -> (depth x < fuel')%nat ->
    closest_from fuel d sel x = closest_from fuel' d sel x.
Proof.
  intros Hd. induction fuel as [|fuel IH]; intros fuel' x Hx Hf Hf'; [lia|].
  destruct fuel' as [|fuel']; [lia|]. simpl.
  destruct (getElement_exists d x Hx) as (e & -> & Hin & Hn).
  destruct (sel e); [reflexivity|].
  destruct (parentNode e) as [p|] eqn:Hp; [|reflexivity].
  destruct (Hd e Hin p Hp) as [Hpin Hlt]. rewrite Hn in Hlt.
  apply IH; [assumption|lia|lia].
Qed.

Lemma closest_from_insert_before new ref d sel :
  ~ In (nid new) (map nid d) ->
  (forall e, In e d -> forall p, parentNode e = Some p -> In p (map nid d)) ->
  forall fuel x,
    In x (map nid d) ->
    closest_from fuel (insert_before new ref d) sel x = closest_from fuel d sel x.
Proof.
  intros Hfresh Hclosed. induction fuel as [|fuel IH]; intros x Hx; simpl; [reflexivity|].
  rewrite getElement_insert_before_other by (intros ->; contradiction).
  destruct (getElement d x) as [e|] eqn:He; [|reflexivity].
  destruct (sel e); [reflexivity|].
  destruct (parentNode e) as [p|] eqn:Hp; [|reflexivity].
  apply IH. apply getElement_In in He as [Hin _]. eapply Hclosed; eauto.
Qed.

Lemma length_insert_before new ref d :
  (List.length d <= List.length (insert_before new ref d))%nat.
Proof.
  induction d as [|a d IH]; simpl; [lia|].
  destruct (Nat.eqb (nid a) ref); simpl; lia.
Qed.

Lemma In_insert_before new ref d e :
  In e (insert_before new ref d) -> e = new \/ In e d.
Proof.
  induction d as [|a d IH]; simpl; [intros []|].
  destruct (Nat.eqb (nid a) ref); simpl.
  - intros [<-|[<-|H]]; auto.
  - intros [<-|H]; auto. destruct (IH H); auto.
Qed.

Lemma In_insert_before_old new ref d e : In e d -> In e (insert_before new ref d).
Proof.
  induction d as [|a d IH]; simpl; [intros []|].
  destruct (Nat.eqb (nid a) ref); simpl; intros [<-|H]; auto.
Qed.

Lemma inside_insert_before new ref d root e :
  tree_shaped d -> ~ In (nid new) (map nid d) -> In e d ->
  inside (insert_before new ref d) root e = inside d root e.
Proof.
  intros (depth & Hd) Hfresh He. unfold inside.
  destruct (parentNode e) as [p|] eqn:Hp; [|reflexivity].
  destruct (Hd e He) as [Hlen Hpar]. destruct (Hpar p Hp) as [Hpin Hlt].
  rewrite closest_from_insert_before; auto.
  - rewrite (closest_from_enough d depth _ (fun e He p Hp => proj2 (Hd e He) p Hp)
               (List.length (insert_before new ref d)) (List.length d) p); auto.
    + pose proof (length_insert_before new ref d). lia.
    + lia.
  - intros a Ha q Hq. now apply (proj2 (Hd a Ha) q Hq).
Qed.

Lemma filter_insert_before new ref d (f g : element -> bool) :
  f new = false -> (forall e, In e d -> f e = g e) ->
  filter f (insert_before new ref d) = filter g d.
Proof.
  intros Hnew. induction d as [|a d IH]; simpl; intros Hfg; [reflexivity|].
  destruct (Nat.eqb (nid a) ref); simpl.
  - rewrite Hnew, (Hfg a (or_introl eq_refl)).
    destruct (g a); [f_equal|]; apply filter_ext_in; intros x Hx; apply Hfg; now right.
  - rewrite (Hfg a (or_introl eq_refl)).
    destruct (g a); [f_equal|]; apply IH; intros x Hx; apply Hfg; now right.
Qed.

Lemma querySelectorAll_insert_before new ref d root sel :
  tree_shaped d -> ~ In (nid new) (map nid d) -> sel new = false ->
  querySelectorAll (insert_before new ref d) root sel = querySelectorAll d root sel.
Proof.
  intros Htree Hfresh Hsel. unfold querySelectorAll.
  apply filter_insert_before.
  - now rewrite Hsel.
  - intros e He. now rewrite inside_insert_before.
Qed.

Lemma tree_shaped_map g d : frames g -> tree_shaped d -> tree_shaped (map g d).
Proof.
  intros Hg (depth & Hd). exists depth. intros e' He'.
  apply in_map_iff in He' as (e & <- & He).
  rewrite (proj1 (Hg e)), (proj2 (Hg e)), length_map, map_map.
  destruct (Hd e He) as [Hlen Hpar]. split; [assumption|].
  intros p Hp. destruct (Hpar p Hp) as [Hin Hlt]. split; [|assumption].
  apply in_map_iff in Hin as (a & <- & Ha). apply in_map_iff.
  exists a. split; [apply Hg|assumption].
Qed.

Lemma tree_shaped_insert_before new ref_el d :
  tree_shaped d -> ~ In (nid new) (map nid d) ->
  In ref_el d -> parentNode new = parentNode ref_el ->
  tree_shaped (insert_before new (nid ref_el) d).
Proof.
  intros (depth & Hd) Hfresh Href Hparent.
  exists (fun n => if Nat.eqb n (nid new) then depth (nid ref_el) else depth n).
  assert (Hmono : forall p, In p (map nid d) ->
            In p (map nid (insert_before new (nid ref_el) d))).
  { intros p Hp. apply in_map_iff in Hp as (a & <- & Ha).
    apply in_map. now apply In_insert_before_old. }
  assert (Hold : forall p, In p (map nid d) -> Nat.eqb p (nid new) = false).
  { intros p Hp. apply Nat.eqb_neq. intros ->. contradiction. }
  pose proof (length_insert_before new (nid ref_el) d) as Hlen.
  intros e He. apply In_insert_before in He as [->|He].
  - rewrite Nat.eqb_refl. destruct (Hd ref_el Href) as [Hl Hpar].
    split; [lia|]. intros p Hp. rewrite Hparent in Hp.
    destruct (Hpar p Hp) as [Hin Hlt]. rewrite (Hold p Hin). auto.
  - rewrite (Hold (nid e) (in_map nid d e He)).
    destruct (Hd e He) as [Hl Hpar]. split; [lia|].
    intros p Hp. destruct (Hpar p Hp) as [Hin Hlt]. rewrite (Hold p Hin). auto.
Qed.

Lemma fresh_not_In d : ~ In (fresh d) (map nid d).
Proof.
  intros Hin. apply in_map_iff in Hin as (e & Hn & He).
  apply fresh_above in He. lia.
Qed.

Lemma closest_getElement d sel n c :
  closest d sel n = Some c -> exists e, getElement d n = Some e.
Proof.
  unfold closest. simpl. destruct (getElement d n) as [e|]; [eauto|discriminate].
Qed.

Lemma fold_left_map {A B C} (f : A -> C -> A) (g : B -> C) l a :
  fold_left (fun s x => f s (g x)) l a = fold_left f (map g l) a.
Proof. revert a. induction l as [|x l IH]; intros a; simpl; [reflexivity|apply IH]. Qed.

Section SumBar.
Context {F : Float}.

Lemma sumMarked_total d table col : sumMarked d table col = total d table col.
Proof.
  unfold sumMarked, total, marked_values, querySelectorAll.
  rewrite <- fold_left_map. f_equal.
  apply filter_ext. intros e. unfold marked_cell, td_num_cell, sel_and.
  now rewrite !andb_assoc.
Qed.

(** What [computeSumBar] does for a table that has a card around it: it
    writes one element, the bar, and touches no other. *)
Lemma computeSumBar_bar_spec d t card :
  wf_document d ->
  closest d (has_class "card") t = Some card ->
  exists bar e d',
    computeSumBar_bar (Some t) d = (Some bar, d')
    /\ getElement d' bar = Some e
    /\ has_class "sum-bar" e = true
    /\ innerHTML e = Some (sum_bar_html (sumMarked d t "DEBE") (sumMarked d t "HABER"))
    /\ style_display e
       = Some (if strict_zero (sumMarked d t "DEBE") && strict_zero (sumMarked d t "HABER")
               then "none" else "block")
    /\ filter (fun x => negb (Nat.eqb (nid x) bar)) d'
       = filter (fun x => negb (Nat.eqb (nid x) bar)) d
    /\ wf_document d'.
Proof.
  intros Hwf Hcard.
  destruct (closest_getElement _ _ _ _ Hcard) as (table_el & Htable).
  unfold computeSumBar_bar. rewrite Hcard, Htable.
  destruct (querySelector d card (has_class "sum-bar")) as [b|] eqn:Hq.
  - assert (Hb : In b d /\ has_class "sum-bar" b = true).
    { unfold querySelector in Hq.
      destruct (querySelectorAll d card (has_class "sum-bar")) as [|x l] eqn:Hl;
        [discriminate|]. injection Hq as ->.
      assert (Hin : In b (querySelectorAll d card (has_class "sum-bar")))
        by (rewrite Hl; left; reflexivity).
      apply filter_In in Hin as [Hin Hs]. apply andb_prop in Hs as [Hs _]. auto. }
    destruct Hb as [Hin Hcls].
    eexists _, _, _. split; [reflexivity|].
    rewrite !getElement_modify by auto with frames.
    rewrite (getElement_of_In d b Hwf Hin). simpl. rewrite Nat.eqb_refl. simpl.
    rewrite Nat.eqb_refl.
    split; [reflexivity|]. split; [exact Hcls|]. split; [reflexivity|].
    split; [reflexivity|]. split.
    + rewrite !others_modify by auto with frames. reflexivity.
    + apply wf_modify; auto with frames. apply wf_modify; auto with frames.
  - set (b := with_classList (fun _ => ["sum-bar"]) (createElement d "div")).
    unfold insertBefore.
    set (b' := mkElement _ _ _ _ _ _ _ _).
    assert (Hfresh : forall e, In e d -> nid e <> nid b').
    { intros e He. apply fresh_above in He. simpl. lia. }
    assert (Href : exists e, In e d /\ nid e = nid table_el).
    { exists table_el. split; [|reflexivity]. now apply getElement_In in Htable. }
    eexists _, _, _. split; [reflexivity|].
    rewrite !getElement_modify by auto with frames.
    change (nid b) with (nid b').
    rewrite (getElement_insert_before b' _ d Hfresh Href). simpl.
    rewrite Nat.eqb_refl. simpl. rewrite Nat.eqb_refl.
    split; [reflexivity|]. split; [reflexivity|]. split; [reflexivity|].
    split; [reflexivity|]. split.
    + rewrite !others_modify by auto with frames.
      apply (others_insert_before b').
    + apply wf_modify; auto with frames. apply wf_modify; auto with frames.
      now apply wf_insert_before.
Qed.

Lemma sumMarked_map g d t col :
  frames g ->
  (forall e, tagName (g e) = tagName e /\ classList (g e) = classList e
             /\ attributes (g e) = attributes e) ->
  sumMarked (map g d) t col = sumMarked d t col.
Proof.
  intros Hg Hkeep. unfold sumMarked. rewrite querySelectorAll_map; [|assumption|].
  - assert (Hval : forall c, getAttribute (g c) "data-val" = getAttribute c "data-val").
    { intros c. unfold getAttribute. now rewrite (proj2 (proj2 (Hkeep c))). }
    generalize (Some zero).
    induction (querySelectorAll d t (marked_cell col)) as [|c l IH]; intros a; simpl;
      [reflexivity|].
    rewrite Hval. apply IH.
  - intros e. destruct (Hkeep e) as (Ht & Hc & Ha).
    unfold marked_cell, td_num_cell, sel_and, has_tag, has_class, has_attr, getAttribute.
    now rewrite Ht, Hc, Ha.
Qed.

Lemma sumMarked_modify n f d t col :
  frames f ->
  (forall e, tagName (f e) = tagName e /\ classList (f e) = classList e
             /\ attributes (f e) = attributes e) ->
  sumMarked (modify n f d) t col = sumMarked d t col.
Proof.
  intros Hf Hkeep. apply sumMarked_map; auto with frames.
  intros e. destruct (Nat.eqb (nid e) n); auto.
Qed.

Lemma sumMarked_insert_before new ref d t col :
  tree_shaped d -> ~ In (nid new) (map nid d) -> tagName new = "div" ->
  sumMarked (insert_before new ref d) t col = sumMarked d t col.
Proof.
  intros Htree Hfresh Htag. unfold sumMarked.
  rewrite querySelectorAll_insert_before; auto.
  unfold marked_cell, td_num_cell, sel_and, has_tag. now rewrite Htag.
Qed.

(** [computeSumBar] changes no sum: the bar it writes is not a cell, and
    the cells keep their place in the tree. *)
Lemma sumMarked_computeSumBar table d t col :
  tree_shaped d -> sumMarked (computeSumBar table d) t col = sumMarked d t col.
Proof.
  intros Htree. unfold computeSumBar, computeSumBar_bar.
  destruct table as [t0|]; [|reflexivity].
  destruct (closest d (has_class "card") t0) as [card|]; [|reflexivity].
  destruct (getElement d t0) as [table_el|]; [|reflexivity].
  destruct (querySelector d card (has_class "sum-bar")) as [b|]; simpl.
  - rewrite !sumMarked_modify; auto with frames.
  - rewrite !sumMarked_modify; auto with frames.
    apply sumMarked_insert_before; [assumption|apply fresh_not_In|reflexivity].
Qed.

Lemma tree_shaped_computeSumBar table d :
  tree_shaped d -> tree_shaped (computeSumBar table d).
Proof.
  intros Htree. unfold computeSumBar, computeSumBar_bar.
  destruct table as [t0|]; [|assumption].
  destruct (closest d (has_class "card") t0) as [card|]; [|assumption].
  destruct (getElement d t0) as [table_el|] eqn:Hel; [|assumption].
  destruct (querySelector d card (has_class "sum-bar")) as [b|]; simpl.
  - unfold modify. apply tree_shaped_map; auto with frames.
    apply tree_shaped_map; auto with frames.
  - unfold modify. apply tree_shaped_map; auto with frames.
    apply tree_shaped_map; auto with frames.
    apply tree_shaped_insert_before; [assumption|apply fresh_not_In| |reflexivity].
    now apply getElement_In in Hel.
Qed.

Lemma wf_computeSumBar table d :
  wf_document d -> wf_document (computeSumBar table d).
Proof.
  intros Hwf. unfold computeSumBar, computeSumBar_bar.
  destruct table as [t0|]; [|assumption].
  destruct (closest d (has_class "card") t0) as [card|]; [|assumption].
  destruct (getElement d t0) as [table_el|]; [|assumption].
  destruct (querySelector d card (has_class "sum-bar")) as [b|]; simpl.
  - apply wf_modify; auto with frames. apply wf_modify; auto with frames.
  - apply wf_modify; auto with frames. apply wf_modify; auto with frames.
    apply wf_insert_before; [assumption|].
    intros e He. apply fresh_above in He. simpl. lia.
Qed.


(** C10.  After [computeSumBar] on a table inside a card, the display of
    the bar is [none] exactly when the marked Debe sum and the marked Haber
    sum are both 0, and [block] otherwise. *)
Theorem sum_bar_display (d : document) (t card : node) :
  wf_document d ->
  closest d (has_class "card") t = Some card ->
  exists bar e,
    fst (computeSumBar_bar (Some t) d) = Some bar
    /\ getElement (computeSumBar (Some t) d) bar = Some e
    /\ has_class "sum-bar" e = true
    /\ style_display e
       = Some (if strict_zero (total d t "DEBE") && strict_zero (total d t "HABER")
               then "none" else "block")
    /\ (style_display e = Some "none"
        <-> strict_zero (total d t "DEBE") = true /\ strict_zero (total d t "HABER") = true).
Proof.
  intros Hwf Hcard.
  destruct (computeSumBar_bar_spec d t card Hwf Hcard)
    as (bar & e & d' & Heq & Hget & Hcls & _ & Hdisp & _).
  exists bar, e. unfold computeSumBar. rewrite Heq. simpl.
  rewrite <- !sumMarked_total.
  split; [reflexivity|]. split; [assumption|]. split; [assumption|].
  split; [assumption|]. rewrite Hdisp.
  destruct (strict_zero (sumMarked d t "DEBE")), (strict_zero (sumMarked d t "HABER"));
    simpl; split; try discriminate; auto; intros [? ?]; discriminate.
Qed.

End SumBar.

(** *** The classes a mark answer writes *)

Lemma string_of_Z_inj a b : string_of_Z a = string_of_Z b -> a = b.
Proof.
  unfold string_of_Z. intros H. apply DecimalZ.to_int_inj.
  assert (Hisi : forall z, NilZero.int_of_string (NilZero.string_of_int (Z.to_int z))
                           = Some (Z.to_int z)).
  { intros z. apply NilZero.isi; destruct z; simpl; try discriminate.
    - intros [= Hp]. now apply DecimalPos.Unsigned.to_uint_nonnil in Hp.
    - intros [= Hp]. now apply DecimalPos.Unsigned.to_uint_nonnil in Hp. }
  pose proof (Hisi a) as Ha. rewrite H, Hisi in Ha. congruence.
Qed.

Lemma mark_class_inj i m : String.eqb (mark_class i) (mark_class m) = true -> i = m.
Proof.
  intros H. apply String.eqb_eq in H. unfold mark_class in H. simpl in H.
  injection H as H. now apply string_of_Z_inj.
Qed.

Lemma mark_class_not_marked i : String.eqb (mark_class i) "marked" = false.
Proof. reflexivity. Qed.

Lemma In_marks m : 0 < m <= 9 <-> In m marks.
Proof.
  unfold marks. simpl. split; [intros H|intuition lia].
  assert (m = 1 \/ m = 2 \/ m = 3 \/ m = 4 \/ m = 5 \/ m = 6 \/ m = 7 \/ m = 8 \/ m = 9) by lia.
  intuition.
Qed.

Lemma filter_filter {A} (p q : A -> bool) l :
  filter p (filter q l) = filter (fun x => q x && p x) l.
Proof.
  induction l as [|a l IH]; simpl; [reflexivity|].
  destruct (q a); simpl; [destruct (p a)|]; now rewrite IH.
Qed.

Lemma contains_filter x p l : contains x (filter p l) = contains x l && p x.
Proof.
  unfold contains. induction l as [|a l IH]; simpl; [reflexivity|].
  destruct (String.eqb_spec x a) as [Hxa|Hxa].
  - subst a. destruct (p x) eqn:Hp; simpl.
    + now rewrite String.eqb_refl.
    + rewrite IH. apply andb_false_r.
  - destruct (p a); simpl; [|assumption].
    destruct (String.eqb_spec x a); [contradiction|assumption].
Qed.

Lemma fold_remove l e :
  fold_left (fun c i => with_classList (remove (mark_class i)) c) l e
  = with_classList
      (filter (fun c => forallb (fun i => negb (String.eqb (mark_class i) c)) l)) e.
Proof.
  revert e. induction l as [|a l IH]; intros e.
  - destruct e. unfold with_classList. simpl. f_equal.
    symmetry. apply forallb_filter_id. now apply forallb_forall.
  - cbn [fold_left]. rewrite IH. destruct e. unfold with_classList, remove. simpl.
    f_equal. apply filter_filter.
Qed.

(** [set_mark_classes] in one step. *)
Lemma set_mark_classes_eq data e :
  set_mark_classes data e
  = with_classList
      (fun cl =>
         match response_mark data with
         | Some m => if m >? 0 then add (mark_class m) (add "marked" (filter keep cl))
                     else filter keep cl
         | None => filter keep cl
         end) e.
Proof.
  unfold set_mark_classes. rewrite fold_remove.
  assert (Hbase : with_classList
                    (filter (fun c => forallb (fun i => negb (String.eqb (mark_class i) c)) marks))
                    (with_classList (remove "marked") e)
                  = with_classList (filter keep) e).
  { destruct e. unfold with_classList, remove. simpl. f_equal. apply filter_filter. }
  rewrite Hbase.
  destruct (response_mark data) as [m|]; [destruct (m >? 0)|]; destruct e; reflexivity.
Qed.

Lemma keep_marked : keep "marked" = false.
Proof. reflexivity. Qed.

Lemma keep_mark_class i : In i marks -> keep (mark_class i) = false.
Proof.
  intros Hi. unfold keep.
  assert (H : forallb (fun j => negb (String.eqb (mark_class j) (mark_class i))) marks = false).
  { destruct (forallb _ marks) eqn:Hf; [|reflexivity].
    rewrite forallb_forall in Hf. specialize (Hf i Hi).
    now rewrite String.eqb_refl in Hf. }
  rewrite H. apply andb_false_r.
Qed.

Lemma frames_set_mark_classes data : frames (set_mark_classes data).
Proof. intros e. rewrite set_mark_classes_eq. split; reflexivity. Qed.

Lemma frames_cleanup : frames cleanup.
Proof. intros e. unfold cleanup. destruct (forallb _ marks); split; reflexivity. Qed.

#[local] Hint Resolve frames_set_mark_classes frames_cleanup : frames.

(** When [marked] is written, and which of [mark-1] .. [mark-9] with it. *)
Lemma set_mark_classes_marked data e :
  (contains "marked" (classList (set_mark_classes data e)) = true
   <-> exists m, response_mark data = Some m /\ 0 < m)
  /\ (forall i, In i marks ->
        (contains (mark_class i) (classList (set_mark_classes data e)) = true
         <-> response_mark data = Some i)).
Proof.
  rewrite set_mark_classes_eq. simpl. split.
  - destruct (response_mark data) as [m|].
    + destruct (m >? 0) eqn:Hm.
      * rewrite !contains_add. simpl. rewrite orb_true_r. simpl.
        split; [intros _; exists m; split; [reflexivity|lia]|reflexivity].
      * rewrite contains_filter, keep_marked, andb_false_r.
        split; [discriminate|]. intros (m' & [= <-] & Hpos). lia.
    + rewrite contains_filter, keep_marked, andb_false_r.
      split; [discriminate|]. intros (m' & [=] & _).
  - intros i Hi. destruct (response_mark data) as [m|].
    + destruct (m >? 0) eqn:Hm.
      * rewrite !contains_add, contains_filter, (keep_mark_class i Hi), andb_false_r.
        rewrite mark_class_not_marked. simpl. split.
        -- intros H. apply mark_class_inj in H. now subst.
        -- intros [= <-]. apply String.eqb_refl.
      * rewrite contains_filter, (keep_mark_class i Hi), andb_false_r.
        split; [discriminate|]. intros [= <-]. apply In_marks in Hi. lia.
    + rewrite contains_filter, (keep_mark_class i Hi), andb_false_r.
      split; discriminate.
Qed.

Lemma cell_ok_set_mark_classes data e :
  match response_mark data with Some m => m <= 9 | None => True end ->
  cell_ok (set_mark_classes data e) = true.
Proof.
  intros Hm. unfold cell_ok.
  destruct (contains "marked" (classList (set_mark_classes data e))) eqn:Hmk.
  - apply (proj1 (set_mark_classes_marked data e)) in Hmk as (m & Hr & Hpos).
    rewrite Hr in Hm.
    assert (Hin : In m marks) by (apply In_marks; lia).
    assert (Hex : existsb (fun i => contains (mark_class i)
                                     (classList (set_mark_classes data e))) marks = true).
    { apply existsb_exists. exists m. split; [assumption|].
      now apply (proj2 (set_mark_classes_marked data e) m Hin). }
    rewrite Hex. apply implb_true_r.
  - now rewrite andb_false_r.
Qed.

Lemma cell_ok_cleanup e : cell_ok (cleanup e) = true.
Proof.
  unfold cleanup.
  destruct (forallb (fun i => negb (contains (mark_class i) (classList e))) marks) eqn:Hf.
  - unfold cell_ok. simpl. rewrite (contains_remove "marked" "marked"). simpl.
    now rewrite !andb_false_r.
  - unfold cell_ok.
    assert (Hex : existsb (fun i => contains (mark_class i) (classList e)) marks = true).
    { destruct (existsb _ marks) eqn:He; [reflexivity|].
      exfalso. assert (Hall : forallb (fun i => negb (contains (mark_class i) (classList e))) marks = true).
      { apply forallb_forall. intros i Hi.
        destruct (contains (mark_class i) (classList e)) eqn:Hc; [|reflexivity].
        assert (existsb (fun i => contains (mark_class i) (classList e)) marks = true)
          by (apply existsb_exists; eauto).
        congruence. }
      congruence. }
    rewrite Hex. apply implb_true_r.
Qed.

Lemma cells_ok_map g d :
  (forall e, cell_ok e = true -> cell_ok (g e) = true) ->
  cells_ok d = true -> cells_ok (map g d) = true.
Proof.
  intros Hg. unfold cells_ok. rewrite !forallb_forall. intros Hd e He.
  apply in_map_iff in He as (e0 & <- & He0). auto.
Qed.

Lemma cells_ok_modify n f d :
  (forall e, cell_ok e = true -> cell_ok (f e) = true) ->
  cells_ok d = true -> cells_ok (modify n f d) = true.
Proof.
  intros Hf. apply cells_ok_map. intros e He.
  destruct (Nat.eqb (nid e) n); auto.
Qed.

Lemma cells_ok_insert_before new ref d :
  cell_ok new = true -> cells_ok d = true -> cells_ok (insert_before new ref d) = true.
Proof.
  intros Hnew. unfold cells_ok. induction d as [|a d IH]; simpl; [reflexivity|].
  intros H. apply andb_prop in H as [Ha Hd].
  destruct (Nat.eqb (nid a) ref); simpl.
  - now rewrite Hnew, Ha, Hd.
  - now rewrite Ha, IH.
Qed.

Lemma fold_left_preserves {A B} (P : A -> Prop) (f : A -> B -> A) l a :
  (forall a x, P a -> P (f a x)) -> P a -> P (fold_left f l a).
Proof.
  intros Hf. revert a. induction l as [|x l IH]; intros a Ha; simpl; auto.
Qed.

(** A [forEach] that applies [h] to each element of [l] leaves every
    element in a state [P] that [h] establishes, when the elements not yet
    in that state are all in [l]. *)
Lemma forEach_modify_cover (h : element -> element) (P : element -> bool) l d :
  frames h ->
  (forall e, P (h e) = true) ->
  (forall e, In e d -> P e = true \/ In (nid e) (map nid l)) ->
  forallb P (fold_left (fun d el => modify (nid el) h d) l d) = true.
Proof.
  intros Hh HP. revert d. induction l as [|a l IH]; intros d Hd; simpl.
  - apply forallb_forall. intros e He. destruct (Hd e He) as [H|[]]. exact H.
  - apply IH. intros e1 He1. unfold modify in He1.
    apply in_map_iff in He1 as (e & <- & He).
    destruct (Nat.eqb_spec (nid e) (nid a)) as [Heq|Hne].
    + left. apply HP.
    + destruct (Hd e He) as [H|[H|H]]; [left; exact H| |right; exact H].
      exfalso. apply Hne. symmetry. exact H.
Qed.

Lemma existsb_same {A} (f g : A -> bool) l :
  (forall x, f x = g x) -> existsb f l = existsb g l.
Proof. intros H. induction l as [|a l IH]; simpl; [reflexivity|]. now rewrite H, IH. Qed.

(** Removing a class that is neither [marked], [num-cell] nor a mark class
    keeps a cell coherent. *)
Lemma cell_ok_remove_other x e :
  String.eqb x "marked" = false -> String.eqb x "num-cell" = false ->
  (forall i, String.eqb x (mark_class i) = false) ->
  cell_ok (with_classList (remove x) e) = cell_ok e.
Proof.
  intros Hm Hn Hi. unfold cell_ok, td_num_cell, sel_and, has_tag, has_class.
  change (classList (with_classList (remove x) e)) with (remove x (classList e)).
  change (tagName (with_classList (remove x) e)) with (tagName e).
  rewrite (contains_remove "num-cell"), (contains_remove "marked"), Hm, Hn.
  cbn [negb]. rewrite !andb_true_r. f_equal. apply existsb_same. intros i.
  rewrite contains_remove, Hi. cbn [negb]. apply andb_true_r.
Qed.

Section Marks.
Context {F : Float}.

Lemma cells_ok_computeSumBar table d :
  cells_ok d = true -> cells_ok (computeSumBar table d) = true.
Proof.
  intros Hd. unfold computeSumBar, computeSumBar_bar.
  destruct table as [t|]; [|exact Hd].
  destruct (closest d (has_class "card") t) as [card|]; [|exact Hd].
  destruct (getElement d t) as [table_el|]; [|exact Hd].
  destruct (querySelector d card (has_class "sum-bar")) as [b|]; simpl.
  - apply cells_ok_modify; [auto|]. apply cells_ok_modify; auto.
  - apply cells_ok_modify; [auto|]. apply cells_ok_modify; [auto|].
    apply cells_ok_insert_before; [reflexivity|assumption].
Qed.

Lemma cells_ok_init_cells d : cells_ok (init_cells d) = true.
Proof.
  unfold init_cells, cells_ok. apply forEach_modify_cover; auto with frames.
  - apply cell_ok_cleanup.
  - intros e He. destruct (td_num_cell e) eqn:Htd.
    + right. apply in_map. unfold document_querySelectorAll.
      apply filter_In. auto.
    + left. unfold cell_ok. now rewrite Htd.
Qed.

Lemma cells_ok_mark_response cell data st :
  cells_ok (dom st) = true ->
  match response_mark data with Some m => m <= 9 | None => True end ->
  cells_ok (dom (mark_response cell data st)) = true.
Proof.
  intros Hok Hm. unfold mark_response.
  destruct (refused data); [now rewrite dom_log|].
  destruct cell as [cell|]; simpl; [|now rewrite dom_log].
  rewrite dom_log. apply cells_ok_computeSumBar.
  apply cells_ok_modify; [|assumption].
  intros e _. now apply cell_ok_set_mark_classes.
Qed.

Lemma cells_ok_other_handlers st :
  cells_ok (dom st) = true ->
  (forall td shiftKey ctrlKey metaKey,
      cells_ok (dom (td_click td shiftKey ctrlKey metaKey st)) = true)
  /\ (forall target, cells_ok (dom (document_click target st)) = true)
  /\ (forall key, cells_ok (dom (document_keydown key st)) = true)
  /\ (forall td, cells_ok (dom (td_dblclick td st)) = true)
  /\ (forall table tbody tr, cells_ok (dom (tr_dragend table tbody tr st)) = true)
  /\ (forall th, cells_ok (dom (th_click th st)) = true)
  /\ (forall k o, ~ mark_continuation k -> cells_ok (dom (settle k o st)) = true).
Proof.
  intros Hok. repeat split.
  - intros td s c m. unfold td_click.
    destruct (getElement (dom st) td); [simpl; now rewrite dom_log|assumption].
  - intros target. unfold document_click.
    now destruct (closest (dom st) td_num_cell target).
  - intros key. unfold document_keydown.
    destruct (lastClickedCell st); [|assumption].
    destruct (keydown_mark key); [|assumption].
    destruct (getElement (dom st) n); [simpl; now rewrite dom_log|assumption].
  - intros td. unfold td_dblclick.
    destruct (closest (dom st) (has_tag "tr") td); [|assumption].
    now destruct (negb _).
  - intros table tbody tr.
    assert (Hd : cells_ok (modify tr (with_classList (remove "dragging")) (dom st)) = true).
    { apply cells_ok_modify; [|assumption]. intros e He.
      rewrite cell_ok_remove_other; auto. }
    unfold tr_dragend. simpl.
    destruct (getElement _ table); [|assumption].
    destruct (negb _ || _); [assumption|]. simpl. now rewrite dom_log.
  - intros th. unfold th_click.
    now destruct (closest (dom st) (has_tag "table") th).
  - intros k o Hk. destruct k as [|td| |tr]; try (now contradiction Hk);
      destruct o as [|status [data|]]; simpl; try rewrite dom_log; try assumption.
    unfold pagado_response. destruct (refused data); [assumption|]. simpl.
    apply (fold_left_preserves (fun d => cells_ok d = true)); [|assumption].
    intros a el Ha. apply cells_ok_modify; [|assumption].
    intros e He. rewrite cell_ok_remove_other; auto.
Qed.

Lemma cell_ok_add_other x e :
  String.eqb "marked" x = false -> String.eqb "num-cell" x = false ->
  (forall i, String.eqb (mark_class i) x = false) ->
  cell_ok (with_classList (add x) e) = cell_ok e.
Proof.
  intros Hm Hn Hi. unfold cell_ok, td_num_cell, sel_and, has_tag, has_class.
  change (classList (with_classList (add x) e)) with (add x (classList e)).
  change (tagName (with_classList (add x) e)) with (tagName e).
  rewrite (contains_add "num-cell"), (contains_add "marked"), Hm, Hn.
  rewrite !orb_false_r. f_equal. apply existsb_same. intros i.
  rewrite contains_add, Hi. apply orb_false_r.
Qed.

Lemma In_insert_block_before x block n l :
  In x (insert_block_before block n l) -> In x block \/ In x l.
Proof.
  induction l as [|a l IH]; simpl; [auto|].
  destruct (Nat.eqb (nid a) n).
  - intros H. apply in_app_or in H. tauto.
  - intros [->|H]; [auto|]. destruct (IH H); auto.
Qed.

Lemma In_insert_block_after_last x p block l :
  In x (insert_block_after_last p block l) -> In x block \/ In x l.
Proof.
  induction l as [|a l IH]; simpl; [auto|].
  destruct (p a && negb (existsb p l)).
  - intros [->|H]; [auto|]. apply in_app_or in H. tauto.
  - intros [->|H]; [auto|]. destruct (IH H); auto.
Qed.

Lemma cell_ok_moved d parent child x :
  cells_ok d = true ->
  In x (block_of d parent child) \/ In x (without d child) -> cell_ok x = true.
Proof.
  intros Hok. unfold cells_ok in Hok. rewrite forallb_forall in Hok.
  intros [H|H].
  - unfold block_of in H. apply in_map_iff in H as (y & <- & Hy).
    apply filter_In in Hy as [Hy _].
    destruct (Nat.eqb (nid y) child); [|auto].
    change (cell_ok (with_parentNode parent y)) with (cell_ok y). auto.
  - unfold without in H. apply filter_In in H as [H _]. auto.
Qed.

(** A listener other than the answer to a mark leaves every numeric cell
    with the classes it had. *)
Lemma cells_ok_listener {L : Layout} st st' :
  cells_ok (dom st) = true -> listener_step st st' -> cells_ok (dom st') = true.
Proof.
  intros Hok H.
  destruct (cells_ok_other_handlers st Hok) as (H1 & H2 & H3 & H4 & H5 & H6 & _).
  destruct H as [(target & ->)|[(td & s & c & m & ->)|[(key & ->)|[(td & ->)|[(th & ->)|
                [(btn & ->)|[(id & tr & transfer & row & ->)|
                [(tbody & y & transfer & row & ->)|(table & tbody & tr & ->)]]]]]]]];
    auto.
  - unfold toggle_click. destruct (getElement _ _); [|assumption].
    destruct (getElementById _ _) as [sub|]; [|assumption].
    assert (Hshow : forall v, cells_ok (modify (nid sub) (with_display v) (dom st)) = true)
      by (intros v; apply cells_ok_modify; auto).
    destruct (closest _ _ _) as [p|].
    + destruct (match getElement (dom st) p with
                | Some parent_el => contains "open" (classList parent_el)
                | None => false
                end); simpl; apply cells_ok_modify; auto; intros x Hx.
      * rewrite cell_ok_remove_other; auto.
      * rewrite cell_ok_add_other; auto.
    + simpl. apply Hshow.
  - unfold tr_dragstart. destruct (negb _); simpl; [assumption|].
    rewrite dom_log. simpl. apply cells_ok_modify; [|assumption].
    intros e He. rewrite cell_ok_add_other; auto.
  - unfold tbody_dragover. simpl. destruct row as [row|]; [|assumption].
    assert (Hmoved : forall l,
              (forall x, In x l -> In x (block_of (dom st) tbody row)
                                   \/ In x (without (dom st) row)) ->
              cells_ok l = true).
    { intros l Hl. unfold cells_ok. apply forallb_forall. intros x Hx.
      apply (cell_ok_moved (dom st) tbody row x Hok). auto. }
    destruct (getDragAfterElement (dom st) tbody y) as [a|].
    + destruct (match parentNode a with Some p => Nat.eqb p tbody | None => false end);
        [|assumption].
      unfold insertBefore_moving. destruct (getElement (dom st) tbody); [|assumption].
      destruct (parentNode a); [|assumption].
      destruct (negb _ || _); [assumption|].
      destruct (Nat.eqb (nid a) row); [assumption|]. simpl.
      apply Hmoved. intros x. apply In_insert_block_before.
    + unfold appendChild. destruct (getElement (dom st) tbody) as [tb|]; [|assumption].
      destruct (in_subtree (dom st) row tb); [assumption|]. simpl.
      apply Hmoved. intros x. apply In_insert_block_after_last.
Qed.

Lemma cells_ok_small_settle st k o :
  cells_ok (dom st) = true -> small_mark k o -> cells_ok (dom (settle k o st)) = true.
Proof.
  intros Hok Hsmall.
  assert (Hmark : forall cell data,
            (refused data = false ->
             match response_mark data with Some m => m <= 9 | None => True end) ->
            cells_ok (dom (mark_response cell data st)) = true).
  { intros cell data Hm. destruct (refused data) eqn:Hr.
    - unfold mark_response. rewrite Hr. now rewrite dom_log.
    - apply cells_ok_mark_response; [assumption|apply Hm; reflexivity]. }
  destruct k as [|td| |tr];
    try (apply (cells_ok_other_handlers st Hok); simpl; tauto);
    destruct o as [|status [data|]]; simpl; try assumption;
    apply Hmark; intros Hr; now apply Hsmall.
Qed.

(** C8, as amended.  From the load on, as long as no accepted mark answer
    carries a mark above 9, every [td.num-cell] with class [marked] has one
    of [mark-1] .. [mark-9], whatever listeners run and whatever requests
    settle; and on any page where that holds, a listener or a settlement
    that writes no mark above 9 keeps it.  At load a cell with none of
    [mark-1] .. [mark-9] loses [marked]; the mark update writes [marked]
    exactly when the mark [m] of the answer is above 0, and then, of
    [mark-1] .. [mark-9], the class [mark-m] alone. *)
Theorem marked_has_mark_class {L : Layout} :
  (forall st, small_run st -> cells_ok (dom st) = true)
  /\ (forall st st',
        cells_ok (dom st) = true -> listener_step st st' -> cells_ok (dom st') = true)
  /\ (forall st k o,
        cells_ok (dom st) = true -> small_mark k o ->
        cells_ok (dom (settle k o st)) = true)
  /\ (forall td,
        existsb (fun i => contains (mark_class i) (classList td)) marks = false ->
        contains "marked" (classList (cleanup td)) = false)
  /\ (forall data cell,
        (contains "marked" (classList (set_mark_classes data cell)) = true
         <-> exists m, response_mark data = Some m /\ 0 < m)
        /\ (forall i, In i marks ->
              (contains (mark_class i) (classList (set_mark_classes data cell)) = true
               <-> response_mark data = Some i))).
Proof.
  split; [|split; [exact cells_ok_listener|split; [exact cells_ok_small_settle|split]]].
  - intros st Hrun. induction Hrun as [d loc|st st' _ IH Hstep|st k o _ IH Hsmall].
    + unfold DOMContentLoaded. simpl.
      unfold init_headers.
      apply (fold_left_preserves (fun d => cells_ok d = true)).
      { intros a x Ha. apply cells_ok_modify; auto. }
      unfold init_bars.
      apply (fold_left_preserves (fun d => cells_ok d = true)).
      { intros a x Ha. now apply cells_ok_computeSumBar. }
      apply cells_ok_init_cells.
    + now apply (cells_ok_listener st st').
    + now apply cells_ok_small_settle.
  - intros td Hnone. unfold cleanup.
    assert (Hf : forallb (fun i => negb (contains (mark_class i) (classList td))) marks = true).
    { apply forallb_forall. intros i Hi.
      destruct (contains (mark_class i) (classList td)) eqn:Hc; [|reflexivity].
      assert (existsb (fun i => contains (mark_class i) (classList td)) marks = true)
        by (apply existsb_exists; eauto).
      congruence. }
    rewrite Hf. simpl. rewrite contains_remove. simpl. apply andb_false_r.
  - intros data cell. apply set_mark_classes_marked.
Qed.

Lemma computeSumBar_keeps table d n e :
  getElement d n = Some e ->
  exists e', getElement (computeSumBar table d) n = Some e'
             /\ classList e' = classList e
             /\ tagName e' = tagName e
             /\ attributes e' = attributes e.
Proof.
  intros Hn. unfold computeSumBar, computeSumBar_bar.
  destruct table as [t|]; [|eauto].
  destruct (closest d (has_class "card") t) as [card|]; [|eauto].
  destruct (getElement d t) as [table_el|]; [|eauto].
  destruct (querySelector d card (has_class "sum-bar")) as [b|]; simpl.
  - rewrite !getElement_modify by auto with frames. rewrite Hn. simpl.
    destruct (Nat.eqb (nid e) (nid b)) eqn:Hb; simpl; rewrite Hb; eauto.
  - rewrite !getElement_modify by auto with frames.
    unfold insertBefore. rewrite getElement_insert_before_other.
    + rewrite Hn. simpl.
      destruct (Nat.eqb (nid e) (fresh d)) eqn:Hb; simpl; rewrite Hb; eauto.
    + simpl. apply getElement_In in Hn as [Hin <-].
      apply fresh_above in Hin. lia.
Qed.


End Marks.

(** *** Identities stay distinct and the tree stays a tree *)

Section Shape.
Context {F : Float}.

Lemma shape_modify n f d :
  frames f ->
  (wf_document d -> wf_document (modify n f d))
  /\ (tree_shaped d -> tree_shaped (modify n f d)).
Proof.
  intros Hf. split; [now apply wf_modify|].
  unfold modify. apply tree_shaped_map. auto with frames.
Qed.



(** So does every answer of the server. *)
Lemma shape_settle k o st :
  (wf_document (dom st) -> wf_document (dom (settle k o st)))
  /\ (tree_shaped (dom st) -> tree_shaped (dom (settle k o st))).
Proof.
  assert (Hmark : forall cell data,
            (wf_document (dom st) -> wf_document (dom (mark_response cell data st)))
            /\ (tree_shaped (dom st) -> tree_shaped (dom (mark_response cell data st)))).
  { intros cell data. unfold mark_response.
    destruct (refused data); [rewrite dom_log; auto|].
    destruct cell as [cell|]; simpl; rewrite dom_log; [|auto].
    split; intros H.
    - apply wf_computeSumBar. apply shape_modify; auto with frames.
    - apply tree_shaped_computeSumBar. apply shape_modify; auto with frames. }
  destruct k as [|td| |tr]; destruct o as [|status [data|]]; simpl;
    try rewrite dom_log; auto.
  unfold pagado_response. destruct (refused data); [auto|]. simpl.
  split; intros H.
  - apply (fold_left_preserves wf_document); [|assumption].
    intros; apply shape_modify; auto with frames.
  - apply (fold_left_preserves tree_shaped); [|assumption].
    intros; apply shape_modify; auto with frames.
Qed.

End Shape.

(** *** Sort by date *)

Lemma searchParams_set_named name v l :
  filter (fun kv => String.eqb (fst kv) name) (searchParams_set name v l) = [(name, v)].
Proof.
  induction l as [|[k x] r IH]; simpl.
  - now rewrite String.eqb_refl.
  - destruct (String.eqb k name) eqn:Hk; simpl.
    + rewrite String.eqb_refl. f_equal.
      rewrite filter_filter. clear. induction r as [|a r IH]; simpl; [reflexivity|].
      destruct (String.eqb (fst a) name); simpl; assumption.
    + now rewrite Hk.
Qed.

Lemma searchParams_set_others name v l :
  filter (fun kv => negb (String.eqb (fst kv) name)) (searchParams_set name v l)
  = filter (fun kv => negb (String.eqb (fst kv) name)) l.
Proof.
  induction l as [|[k x] r IH]; simpl.
  - now rewrite String.eqb_refl.
  - destruct (String.eqb k name) eqn:Hk; simpl.
    + rewrite String.eqb_refl. simpl. rewrite filter_filter.
      apply filter_ext. intros a. now rewrite andb_diag.
    + rewrite Hk. simpl. now rewrite IH.
Qed.

(** C6, as amended.  A click on the date header of a table navigates once
    to the current address with the single query parameter [orden] set to
    [desc] when the [data-orden] of the table, in lower case and taken as
    ['asc'] when absent or empty, is ['asc'], and to [asc] otherwise; the
    other parameters, the path and the fragment stay. *)
Theorem sort_click_navigates (st : state) (th table : node) (table_el : element) :
  closest (dom st) (has_tag "table") th = Some table ->
  getElement (dom st) table = Some table_el ->
  let current :=
    toLowerCase (match getAttribute table_el "data-orden" with
                 | Some "" | None => "asc"
                 | Some s => s
                 end) in
  let next := if String.eqb current "asc" then "desc" else "asc" in
  exists url,
    navigated (th_click th st) = (navigated st ++ [Assign url])%list
    /\ path url = path (href st)
    /\ fragment url = fragment (href st)
    /\ filter (fun kv => String.eqb (fst kv) "orden") (searchParams url) = [("orden", next)]
    /\ filter (fun kv => negb (String.eqb (fst kv) "orden")) (searchParams url)
       = filter (fun kv => negb (String.eqb (fst kv) "orden")) (searchParams (href st))
    /\ dom (th_click th st) = dom st
    /\ fetched (th_click th st) = fetched st.
Proof.
  intros Htable Hel current next. unfold th_click. rewrite Htable, Hel.
  eexists. split; [reflexivity|]. simpl.
  split; [reflexivity|]. split; [reflexivity|].
  split; [|split; [apply searchParams_set_others|split; reflexivity]].
  rewrite searchParams_set_named. f_equal. f_equal.
  subst next current. unfold next_orden, attr_truthy, string_of_attr.
  destruct (getAttribute table_el "data-orden") as [[|c s]|]; reflexivity.
Qed.

(** The header of the page whose table has [data-orden="ASC"]. *)
Lemma sort_click_navigates_witness :
  exists url,
    navigated (th_click 3 (Page.loaded "ACME" "ASC")) = [Assign url]
    /\ filter (fun kv => String.eqb (fst kv) "orden") (searchParams url)
       = [("orden", "desc")].
Proof.
  destruct (sort_click_navigates (Page.loaded "ACME" "ASC") 3 1
              (Page.el 1 "table" ["reorder-table"]
                       [("data-cliente", "ACME"); ("data-orden", "ASC")] (Some 0%nat)))
    as (url & Hnav & _ & _ & Hord & _).
  - vm_compute. reflexivity.
  - vm_compute. reflexivity.
  - exists url. split; [exact Hnav|exact Hord].
Defined.

(** C6 as it is stated fails: with [data-orden=""] the attribute is there,
    is not ['asc'], and yet the click asks for [desc]. *)
Lemma sort_click_empty_orden :
  let st := Page.loaded "ACME" "" in
  navigated (th_click 3 st)
  = [Assign (mkLocation "http://127.0.0.1:5000/estado-cuenta"
                        [("orden", "desc"); ("cliente", "3")] "")]
  /\ next_orden_as_stated (Some "") = "asc"
  /\ next_orden (Some "") <> next_orden_as_stated (Some "").
Proof.
  intros st. split; [|split]; try (vm_compute; reflexivity).
  vm_compute. discriminate.
Qed.

(** *** Reorder on drag end *)

Lemma reorder_ids_row_ids d tbody : reorder_ids d tbody = row_ids d tbody.
Proof.
  unfold reorder_ids, row_ids.
  induction (querySelectorAll d tbody (has_tag "tr")) as [|r l IH]; simpl; [reflexivity|].
  destruct (getAttribute r "data-id") as [i|]; simpl; [|assumption].
  destruct (test_digits (trim i)); simpl; now rewrite IH.
Qed.

Lemma row_ids_modify_classes n g d tbody :
  row_ids (modify n (with_classList g) d) tbody = row_ids d tbody.
Proof.
  unfold row_ids, modify. rewrite querySelectorAll_map; auto with frames.
  - rewrite flat_map_concat_map, map_map, <- flat_map_concat_map.
    apply flat_map_ext. intros e. now destruct (Nat.eqb (nid e) n).
  - intros e. now destruct (Nat.eqb (nid e) n).
Qed.

(** C2, as amended.  On drag end the row loses [dragging] and, when the
    [data-cliente] of the table is a non-empty string and some row has an
    identifier, exactly one request is posted to the reorder endpoint of
    that client, whose [ids] are the identifiers of the rows of the [tbody]
    in document order (all the [data-id] values when each is one); when
    [data-cliente] is absent or empty, or no row has an identifier, nothing
    is sent. *)
Theorem dragend_posts_row_ids (st : state) (table tbody tr : node) (table_el : element) :
  getElement (dom st) table = Some table_el ->
  let ids := row_ids (dom st) tbody in
  issued st (tr_dragend table tbody tr st)
  = match getAttribute table_el "data-cliente", ids with
    | None, _ | Some "", _ | Some _, [] => []
    | Some cliente, _ => [reorder_request cliente ids]
    end
  /\ ((forall r, In r (querySelectorAll (dom st) tbody (has_tag "tr")) ->
                 isValidId (getAttribute r "data-id") = true) ->
      ids = map (fun r => string_of_attr (getAttribute r "data-id"))
                (querySelectorAll (dom st) tbody (has_tag "tr")))
  /\ dom (tr_dragend table tbody tr st)
     = modify tr (with_classList (remove "dragging")) (dom st).
Proof.
  intros Hel ids. split; [|split].
  - unfold tr_dragend. simpl.
    rewrite getElement_modify by auto with frames. rewrite Hel. simpl.
    rewrite reorder_ids_row_ids, row_ids_modify_classes. fold ids.
    assert (Hattr : getAttribute
                      (if Nat.eqb (nid table_el) tr
                       then with_classList (remove "dragging") table_el else table_el)
                      "data-cliente" = getAttribute table_el "data-cliente")
      by now destruct (Nat.eqb (nid table_el) tr).
    rewrite Hattr.
    destruct (getAttribute table_el "data-cliente") as [[|c s]|]; simpl;
      try exact (issued_refl _).
    destruct ids as [|i ids']; simpl; [exact (issued_refl _)|].
    unfold issued. cbn [fetched fetch]. rewrite fetched_log. simpl.
    now rewrite skipn_length_app.
  - intros Hall. subst ids. unfold row_ids.
    induction (querySelectorAll (dom st) tbody (has_tag "tr")) as [|r l IH]; simpl;
      [reflexivity|].
    assert (Hr : isValidId (getAttribute r "data-id") = true) by (apply Hall; left; reflexivity).
    unfold isValidId in Hr.
    destruct (getAttribute r "data-id") as [i|]; [|discriminate].
    rewrite Hr. simpl. f_equal. apply IH. intros x Hx. apply Hall. now right.
  - unfold tr_dragend. simpl.
    destruct (getElement (modify tr (with_classList (remove "dragging")) (dom st)) table)
      as [te|]; [|reflexivity].
    destruct (negb _ || _); [reflexivity|].
    cbn [dom fetch]. now rewrite dom_log.
Qed.

(** Drag end of row 5 on the loaded page: one request, with the one
    identifier of the table. *)
Lemma dragend_posts_row_ids_witness :
  let st := Page.loaded "ACME" "asc" in
  issued st (tr_dragend 1 4 5 st) = [reorder_request "ACME" ["7"]].
Proof.
  intros st.
  apply (dragend_posts_row_ids st 1 4 5
           (Page.el 1 "table" ["reorder-table"]
                    [("data-cliente", "ACME"); ("data-orden", "asc")] (Some 0%nat))).
  vm_compute. reflexivity.
Defined.

(** C2 as it is stated fails: the rows of the page carry the [data-id]
    attributes 7, x9 and the empty one, and the request lists 7 alone; and
    with [data-cliente=""] the attribute is there and nothing is sent. *)
Lemma dragend_not_all_data_ids :
  let st := Page.loaded "ACME" "asc" in
  let st0 := Page.loaded "" "asc" in
  issued st (tr_dragend 1 4 5 st) = [reorder_request "ACME" ["7"]]
  /\ dragend_requests_as_stated (dom st) 1 4 = [reorder_request "ACME" ["7"; "x9"; ""]]
  /\ issued st (tr_dragend 1 4 5 st) <> dragend_requests_as_stated (dom st) 1 4
  /\ issued st0 (tr_dragend 1 4 5 st0) = []
  /\ dragend_requests_as_stated (dom st0) 1 4 = [reorder_request "" ["7"; "x9"; ""]].
Proof.
  intros st st0. repeat split; try (vm_compute; reflexivity).
  vm_compute. discriminate.
Qed.

(* ================================================================== *)
(** ** The handlers on the statement page *)

Lemma statement_wf cliente orden : wf_document (Page.statement cliente orden).
Proof. distinct_ids. Qed.

Lemma statement_tree cliente orden : tree_shaped (Page.statement cliente orden).
Proof.
  exists (fun n => n). intros e He. simpl in He.
  repeat (destruct He as [<-|He];
          [simpl; split;
           [lia|intros p Hp; inversion Hp; subst; simpl; (split; [intuition lia|lia])]|]).
  destruct He.
Qed.



Lemma sum_bar_display_witness :
  exists bar e,
    getElement (computeSumBar (F := Exact.float) (Some 1%nat) (Page.statement "ACME" "asc")) bar
    = Some e
    /\ style_display e = Some "block".
Proof.
  destruct (sum_bar_display (F := Exact.float) (Page.statement "ACME" "asc") 1 0
              (statement_wf _ _))
    as (bar & e & _ & Hget & _ & Hdisp & _).
  - vm_compute. reflexivity.
  - exists bar, e. split; [exact Hget|]. rewrite Hdisp. vm_compute. reflexivity.
Defined.

(** A table with no marked cell: the bar is hidden. *)
Example sum_bar_hidden :
  let d := [ Page.el 0 "div" ["card"] [] None;
             Page.el 1 "table" ["reorder-table"] [] (Some 0%nat);
             Page.el 2 "td" ["num-cell"] [("data-col", "DEBE"); ("data-val", "3")]
                     (Some 1%nat) ] in
  map (fun e => (classList e, style_display e, innerHTML e))
      (computeSumBar (F := Exact.float) (Some 1%nat) d)
  = [ (["card"], None, None);
      (["sum-bar"], Some "none",
       Some "Σ Debe: <strong>0,00</strong> · Σ Haber: <strong>0,00</strong>");
      (["reorder-table"], None, None);
      (["num-cell"], None, None) ].
Proof. vm_compute. reflexivity. Qed.

(** The answer [{ok: true, mark: 3}] to a click on cell 6 of the loaded
    page. *)
Lemma marked_has_mark_class_witness :
  cells_ok (dom (settle (F := Exact.float) (OnMarkClick 6)
                        (Resolved 200 (Some (Page.ok_mark 3))) (Page.loaded "ACME" "asc")))
  = true.
Proof.
  apply (proj1 (marked_has_mark_class (F := Exact.float) (L := Page.boxes))).
  apply run_settle; [apply run_load|].
  intros _ _. vm_compute. discriminate.
Defined.

(** C8 as it is stated fails: the answer [{ok: true, mark: 12}] leaves the
    cell with [marked] and [mark-12], none of [mark-1] .. [mark-9], and it
    stays so when a later answer with mark 3 is written to another cell. *)
Lemma marked_without_mark_class :
  let st := Page.loaded "ACME" "asc" in
  let st' := settle (F := Exact.float) (OnMarkClick 6)
                    (Resolved 200 (Some (Page.ok_mark 12))) st in
  let st'' := settle (F := Exact.float) (OnMarkClick 10)
                     (Resolved 200 (Some (Page.ok_mark 3))) st' in
  cells_ok (dom st) = true
  /\ classes_of (dom st') 6 = Some ["num-cell"; "marked"; "mark-12"]
  /\ cells_ok (dom st') = false
  /\ classes_of (dom st'') 6 = Some ["num-cell"; "marked"; "mark-12"]
  /\ cells_ok (dom st'') = false.
Proof. intros st st' st''. repeat split; vm_compute; reflexivity. Qed.



(* ================================================================== *)
(** ** More of the script *)

(** *** Which keys send a mark *)

Lemma keydown_mark_char (c : ascii) :
  keydown_mark (String c "")
  = if is_digit c then Some (Z.of_nat (nat_of_ascii c) - 48) else None.
Proof.
  destruct c as [b0 b1 b2 b3 b4 b5 b6 b7].
  destruct b0, b1, b2, b3, b4, b5, b6, b7; reflexivity.
Qed.

Lemma parseInt_named_key (c : ascii) (rest : string) :
  is_ws c = false -> is_digit c = false -> c <> "-"%char -> c <> "+"%char ->
  parseInt (String c rest) = None.
Proof.
  intros Hws Hdig Hminus Hplus.
  destruct c as [b0 b1 b2 b3 b4 b5 b6 b7].
  destruct b0, b1, b2, b3, b4, b5, b6, b7;
    try discriminate Hws; try discriminate Hdig;
    try (now contradiction Hminus); try (now contradiction Hplus);
    reflexivity.
Qed.

Lemma digit_not_ws c : is_digit c = true -> is_ws c = false.
Proof.
  unfold is_digit, is_ws. intros H. apply andb_prop in H as [H1 H2].
  apply Nat.leb_le in H1, H2.
  destruct (Nat.leb_spec (nat_of_ascii c) 13); [lia|].
  destruct (Nat.eqb_spec (nat_of_ascii c) 32); [lia|].
  destruct (Nat.eqb_spec (nat_of_ascii c) 160); [lia|].
  now rewrite andb_false_r.
Qed.

Lemma trimStart_ws pre s :
  forallb is_ws (list_ascii_of_string pre) = true -> trimStart (pre ++ s) = trimStart s.
Proof.
  induction pre as [|c pre IH]; simpl; [reflexivity|].
  intros H. apply andb_prop in H as [Hc Hpre]. rewrite Hc. auto.
Qed.

Lemma radix_of_digit (c : ascii) (rest : string) :
  is_digit c = true ->
  match rest with
  | String c2 _ => c = "0"%char -> c2 <> "x"%char /\ c2 <> "X"%char
  | EmptyString => True
  end ->
  match String c rest with
  | String "0" (String "x" r) => (16, r)
  | String "0" (String "X" r) => (16, r)
  | _ => (10, String c rest)
  end = (10, String c rest).
Proof.
  intros Hd Hx.
  destruct c as [b0 b1 b2 b3 b4 b5 b6 b7].
  destruct b0, b1, b2, b3, b4, b5, b6, b7; try discriminate Hd; try reflexivity.
  destruct rest as [|c2 r2]; [reflexivity|].
  destruct (Hx eq_refl) as [H1 H2].
  destruct c2 as [a0 a1 a2 a3 a4 a5 a6 a7].
  destruct a0, a1, a2, a3, a4, a5, a6, a7;
    try (now contradiction H1); try (now contradiction H2); reflexivity.
Qed.

Lemma sign_of_digit (c : ascii) (rest : string) :
  is_digit c = true ->
  match String c rest with
  | String "-" r => (-1, r)
  | String "+" r => (1, r)
  | _ => (1, String c rest)
  end = (1, String c rest).
Proof.
  intros Hd. destruct c as [b0 b1 b2 b3 b4 b5 b6 b7].
  destruct b0, b1, b2, b3, b4, b5, b6, b7; try discriminate Hd; reflexivity.
Qed.

Lemma digit_of_digit (c : ascii) :
  is_digit c = true -> digit_of 10 c = Some (Z.of_nat (nat_of_ascii c) - 48).
Proof.
  intros Hd. destruct c as [b0 b1 b2 b3 b4 b5 b6 b7].
  destruct b0, b1, b2, b3, b4, b5, b6, b7; try discriminate Hd; reflexivity.
Qed.

(** A text that starts, after white space, with a digit followed by
    something that is no digit reads as that digit. *)
Lemma parseInt_digit_first (pre : string) (c : ascii) (rest : string) :
  forallb is_ws (list_ascii_of_string pre) = true ->
  is_digit c = true ->
  match rest with
  | String c2 _ =>
      digit_of 10 c2 = None /\ (c = "0"%char -> c2 <> "x"%char /\ c2 <> "X"%char)
  | EmptyString => True
  end ->
  parseInt (pre ++ String c rest) = Some (Z.of_nat (nat_of_ascii c) - 48).
Proof.
  intros Hpre Hd Hrest. unfold parseInt.
  rewrite trimStart_ws by assumption.
  assert (Ht : trimStart (String c rest) = String c rest)
    by (simpl; now rewrite (digit_not_ws c Hd)).
  rewrite Ht, (sign_of_digit c rest Hd). cbv beta iota zeta.
  rewrite (radix_of_digit c rest Hd).
  2:{ destruct rest; [exact I|]. apply Hrest. }
  cbv beta iota zeta. cbn [digits_prefix]. rewrite (digit_of_digit c Hd).
  destruct rest as [|c2 r2]; cbn [digits_prefix].
  - now destruct (Z.of_nat (nat_of_ascii c) - 48).
  - destruct Hrest as [H2 _]. rewrite H2.
    now destruct (Z.of_nat (nat_of_ascii c) - 48).
Qed.

(** The keydown listener sends a mark exactly when a numeric cell was
    clicked before and [parseInt] of the key gives an integer from 0 to 9,
    which is the mark.  For a key of one character that is a digit.  A text
    that starts, after white space, with a digit followed by something that
    is no digit ([7up], [ 5]) sends that digit as well, as does [+3]; a key
    whose name starts with a letter or any character other than a digit, a
    sign or white space ([Enter], [ArrowUp], [F5], [a]) leaves the state as
    it is; so does every key before a numeric cell was clicked. *)
Theorem keydown_digit_keys (st : state) :
  (forall key cell cell_el,
      lastClickedCell st = Some cell ->
      getElement (dom st) cell = Some cell_el ->
      issued st (document_keydown key st)
      = match parseInt key with
        | Some d =>
            if (d <? 0) || (d >? 9) then []
            else [mark_request (getAttribute cell_el "data-id")
                               (getAttribute cell_el "data-col") d]
        | None => []
        end)
  /\ (forall c cell cell_el,
        lastClickedCell st = Some cell ->
        getElement (dom st) cell = Some cell_el ->
        issued st (document_keydown (String c "") st)
        = if is_digit c
          then [mark_request (getAttribute cell_el "data-id")
                             (getAttribute cell_el "data-col")
                             (Z.of_nat (nat_of_ascii c) - 48)]
          else [])
  /\ (forall pre c rest cell cell_el,
        lastClickedCell st = Some cell ->
        getElement (dom st) cell = Some cell_el ->
        forallb is_ws (list_ascii_of_string pre) = true ->
        is_digit c = true ->
        match rest with
        | String c2 _ =>
            digit_of 10 c2 = None /\ (c = "0"%char -> c2 <> "x"%char /\ c2 <> "X"%char)
        | EmptyString => True
        end ->
        issued st (document_keydown (pre ++ String c rest) st)
        = [mark_request (getAttribute cell_el "data-id") (getAttribute cell_el "data-col")
                        (Z.of_nat (nat_of_ascii c) - 48)])
  /\ (forall c rest,
         is_ws c = false -> is_digit c = false -> c <> "-"%char -> c <> "+"%char ->
         document_keydown (String c rest) st = st)
  /\ (forall key, lastClickedCell st = None -> document_keydown key st = st).
Proof.
  assert (Hall : forall key cell cell_el,
      lastClickedCell st = Some cell ->
      getElement (dom st) cell = Some cell_el ->
      issued st (document_keydown key st)
      = match parseInt key with
        | Some d =>
            if (d <? 0) || (d >? 9) then []
            else [mark_request (getAttribute cell_el "data-id")
                               (getAttribute cell_el "data-col") d]
        | None => []
        end).
  { intros key cell e Hc He. unfold document_keydown, keydown_mark. rewrite Hc.
    destruct (parseInt key) as [d|]; [|apply issued_refl].
    destruct ((d <? 0) || (d >? 9)); [apply issued_refl|].
    rewrite He. apply issued_fetch_log. }
  split; [exact Hall|]. split; [|split; [|split]].
  - intros c cell e Hc He. unfold document_keydown.
    rewrite Hc, keydown_mark_char, He.
    destruct (is_digit c); [apply issued_fetch_log|apply issued_refl].
  - intros pre c rest cell e Hc He Hpre Hd Hrest.
    rewrite (Hall _ cell e Hc He), (parseInt_digit_first pre c rest Hpre Hd Hrest).
    assert (Hrange : (Z.of_nat (nat_of_ascii c) - 48 <? 0)
                     || (Z.of_nat (nat_of_ascii c) - 48 >? 9) = false).
    { unfold is_digit in Hd. apply andb_prop in Hd as [H1 H2].
      apply Nat.leb_le in H1, H2. apply orb_false_intro; lia. }
    now rewrite Hrange.
  - intros c rest Hws Hdig Hm Hp. unfold document_keydown, keydown_mark.
    rewrite (parseInt_named_key c rest Hws Hdig Hm Hp).
    now destruct (lastClickedCell st).
  - intros key Hnone. unfold document_keydown. now rewrite Hnone.
Qed.

Lemma keydown_digit_keys_witness :
  let st := click_cell 6 false false false (Page.loaded "ACME" "asc") in
  issued st (document_keydown "4" st) = [mark_request (Some "7") (Some "DEBE") 4]
  /\ issued st (document_keydown "7up" st) = [mark_request (Some "7") (Some "DEBE") 7]
  /\ issued st (document_keydown "+3" st) = [mark_request (Some "7") (Some "DEBE") 3]
  /\ issued st (document_keydown "0x9" st) = [mark_request (Some "7") (Some "DEBE") 9]
  /\ document_keydown "Enter" st = st
  /\ document_keydown "4" (Page.loaded "ACME" "asc") = Page.loaded "ACME" "asc".
Proof.
  intros st.
  assert (Hc : lastClickedCell st = Some 6%nat) by (vm_compute; reflexivity).
  assert (He : getElement (dom st) 6
               = Some (Page.el 6 "td" ["num-cell"; "marked"; "mark-2"]
                         [("data-id", "7"); ("data-col", "DEBE"); ("data-val", "1.234,50")]
                         (Some 5%nat))) by (vm_compute; reflexivity).
  split; [|split; [|split; [|split; [|split]]]].
  - exact (proj1 (proj2 (keydown_digit_keys st)) "4"%char _ _ Hc He).
  - apply (proj1 (proj2 (proj2 (keydown_digit_keys st))) "" "7"%char "up" _ _ Hc He);
      try reflexivity.
    split; [reflexivity|discriminate].
  - exact (proj1 (keydown_digit_keys st) "+3" _ _ Hc He).
  - exact (proj1 (keydown_digit_keys st) "0x9" _ _ Hc He).
  - apply (proj1 (proj2 (proj2 (proj2 (keydown_digit_keys st)))) "E"%char "nter");
      try reflexivity; discriminate.
  - apply (proj2 (proj2 (proj2 (proj2 (keydown_digit_keys (Page.loaded "ACME" "asc"))))) "4").
    reflexivity.
Defined.

(** *** The order asked for alternates *)

(** Whatever [data-orden] holds, the order asked for is [asc] or [desc],
    and on a page whose table carries the order that was asked for the next
    click asks for the other one. *)
Theorem next_orden_alternates (data_orden : option string) :
  (next_orden data_orden = "asc" \/ next_orden data_orden = "desc")
  /\ next_orden (Some (next_orden data_orden))
     = (if String.eqb (next_orden data_orden) "asc" then "desc" else "asc")
  /\ next_orden (Some (next_orden (Some (next_orden data_orden)))) = next_orden data_orden.
Proof.
  assert (H : next_orden data_orden = "asc" \/ next_orden data_orden = "desc").
  { unfold next_orden. destruct (String.eqb (toLowerCase _) "asc"); auto. }
  split; [exact H|]. destruct H as [-> | ->]; split; reflexivity.
Qed.

(** *** What an answer never does *)

Lemma log_frame msg st :
  dom (log msg st) = dom st /\ lastClickedCell (log msg st) = lastClickedCell st
  /\ fetched (log msg st) = fetched st /\ navigated (log msg st) = navigated st
  /\ href (log msg st) = href st.
Proof. unfold log. destruct (DEBUG_LOG st); repeat split. Qed.

Section Answers.
Context {F : Float}.

Lemma mark_response_frame cell data st :
  lastClickedCell (mark_response cell data st) = lastClickedCell st
  /\ fetched (mark_response cell data st) = fetched st
  /\ navigated (mark_response cell data st) = navigated st
  /\ href (mark_response cell data st) = href st.
Proof.
  destruct (log_frame "mark resp" st) as (_ & Hl & Hf & Hn & Hh).
  unfold mark_response. destruct (refused data); [auto|].
  destruct cell; simpl; auto.
Qed.

Lemma settle_frame k o st :
  fetched (settle k o st) = fetched st
  /\ lastClickedCell (settle k o st) = lastClickedCell st
  /\ href (settle k o st) = href st.
Proof.
  destruct (log_frame "reordenar resp" st) as (_ & Hl & Hf & _ & Hh).
  destruct k as [|td| |tr]; destruct o as [|status [data|]]; simpl;
    try (repeat split; auto; fail);
    try (destruct (mark_response_frame (Some td) data st) as (H1 & H2 & _ & H4); auto);
    try (destruct (mark_response_frame (lastClickedCell st) data st)
          as (H1 & H2 & _ & H4); auto).
  unfold pagado_response. destruct (refused data); repeat split.
Qed.

(** An answer never sends a request (no retry, no second step), never
    changes [lastClickedCell] or the address, and never navigates, but for
    the answer to a reorder request: when that fetch resolves, with any
    status and any body, the page is reloaded once and the document is left
    alone; when it rejects, nothing but the console changes. *)
Theorem answers_never_fetch (st : state) :
  (forall k o,
      fetched (settle k o st) = fetched st
      /\ lastClickedCell (settle k o st) = lastClickedCell st
      /\ href (settle k o st) = href st)
  /\ (forall status body,
         navigated (settle OnReordenar (Resolved status body) st)
         = (navigated st ++ [Reload])%list
         /\ dom (settle OnReordenar (Resolved status body) st) = dom st)
  /\ (navigated (settle OnReordenar Rejected st) = navigated st
      /\ dom (settle OnReordenar Rejected st) = dom st
      /\ console (settle OnReordenar Rejected st)
         = (console st ++ [(Error, "reordenar error")])%list)
  /\ (forall k o, k <> OnReordenar -> navigated (settle k o st) = navigated st).
Proof.
  split; [|split; [|split]].
  - intros k o. apply settle_frame.
  - intros status body. destruct (log_frame "reordenar resp" st) as (Hd & _ & _ & Hn & _).
    simpl. now rewrite Hn, Hd.
  - repeat split.
  - intros k o Hk. destruct k as [|td| |tr]; [now contradiction Hk| | |];
      destruct o as [|status [data|]]; simpl; try reflexivity;
      try apply mark_response_frame.
    unfold pagado_response. now destruct (refused data).
Qed.

End Answers.

(** *** The cell that the keys mark *)

Lemma closest_from_sel fuel d sel n c :
  closest_from fuel d sel n = Some c ->
  exists e, getElement d c = Some e /\ sel e = true.
Proof.
  revert n. induction fuel as [|fuel IH]; intros n; simpl; [discriminate|].
  destruct (getElement d n) as [e|] eqn:He; [|discriminate].
  destruct (sel e) eqn:Hs.
  - intros [= <-]. eauto.
  - destruct (parentNode e); [apply IH|discriminate].
Qed.

Lemma td_num_cell_with_classList g e :
  contains "num-cell" (g (classList e)) = contains "num-cell" (classList e) ->
  td_num_cell (with_classList g e) = td_num_cell e.
Proof.
  intros H. unfold td_num_cell, sel_and, has_tag, has_class. simpl. now rewrite H.
Qed.

Lemma keeps_cell_remove x : String.eqb x "num-cell" = false -> keeps_cell (with_classList (remove x)).
Proof.
  intros Hx. split; [auto with frames|]. intros e. apply td_num_cell_with_classList.
  rewrite contains_remove, Hx. apply andb_true_r.
Qed.






Section LastCell.
Context {F : Float}.



End LastCell.

(** *** Answers in a row, and the answer that comes late *)

Lemma filter_keep_idem l : filter keep (filter keep l) = filter keep l.
Proof. rewrite filter_filter. apply filter_ext. intros a. apply andb_diag. Qed.

Lemma filter_keep_add x l : keep x = false -> filter keep (add x l) = filter keep l.
Proof.
  intros Hx. unfold add. destruct (contains x l); [reflexivity|].
  rewrite filter_app. simpl. rewrite Hx. apply app_nil_r.
Qed.

Lemma keep_high_mark m : 9 < m -> keep (mark_class m) = true.
Proof.
  intros Hm. unfold keep.
  assert (H1 : String.eqb "marked" (mark_class m) = false) by reflexivity.
  rewrite H1. simpl negb. rewrite andb_true_l.
  apply forallb_forall. intros i Hi.
  assert (Hne : String.eqb (mark_class i) (mark_class m) = false).
  { destruct (String.eqb (mark_class i) (mark_class m)) eqn:He; [|reflexivity].
    apply mark_class_inj in He. apply In_marks in Hi. lia. }
  change (negb (String.eqb (mark_class i) (mark_class m)) = true). now rewrite Hne.
Qed.

(** Of two mark answers written to a cell one after the other, the second
    alone decides the classes when the mark of the first was at most 9 (or
    none): the last answer wins, and an answer written twice is written
    once.  A class [mark-m] with [m] above 9, once written, is never taken
    away by a later answer. *)
Theorem last_answer_wins (data1 data2 : value) (cell : element) :
  (match response_mark data1 with Some m => m <= 9 | None => True end ->
   set_mark_classes data2 (set_mark_classes data1 cell) = set_mark_classes data2 cell)
  /\ (forall m, response_mark data1 = Some m -> 9 < m ->
        contains (mark_class m)
                 (classList (set_mark_classes data2 (set_mark_classes data1 cell))) = true).
Proof.
  split.
  - intros Hm. rewrite !set_mark_classes_eq.
    assert (Hbase : filter keep (classList (with_classList
              (fun cl => match response_mark data1 with
                         | Some m => if m >? 0
                                     then add (mark_class m) (add "marked" (filter keep cl))
                                     else filter keep cl
                         | None => filter keep cl
                         end) cell))
            = filter keep (classList cell)).
    { simpl. destruct (response_mark data1) as [m|]; [|apply filter_keep_idem].
      destruct (m >? 0) eqn:Hpos; [|apply filter_keep_idem].
      rewrite !filter_keep_add; [apply filter_keep_idem|reflexivity|].
      apply keep_mark_class. apply In_marks. lia. }
    destruct cell as [n t c a p sd sc ih]. unfold with_classList in *. simpl in *.
    now rewrite Hbase.
  - intros m Hr Hm. rewrite (set_mark_classes_eq data2), (set_mark_classes_eq data1).
    simpl. rewrite Hr.
    assert (Hpos : (m >? 0) = true) by lia. rewrite Hpos.
    assert (Hin : contains (mark_class m)
                    (filter keep (add (mark_class m) (add "marked" (filter keep (classList cell)))))
                  = true).
    { rewrite contains_filter, contains_add, String.eqb_refl, orb_true_r.
      now rewrite keep_high_mark. }
    destruct (response_mark data2) as [m2|]; [destruct (m2 >? 0)|];
      rewrite ?contains_add, Hin; reflexivity.
Qed.

Lemma last_answer_wins_witness :
  let cell := Page.el 6 "td" ["num-cell"; "marked"; "mark-2"] [] (Some 5%nat) in
  classList (set_mark_classes (Page.ok_mark 0) (set_mark_classes (Page.ok_mark 7) cell))
  = ["num-cell"]
  /\ contains "mark-12"
       (classList (set_mark_classes (Page.ok_mark 3) (set_mark_classes (Page.ok_mark 12) cell)))
     = true.
Proof.
  intros cell. split.
  - rewrite (proj1 (last_answer_wins (Page.ok_mark 7) (Page.ok_mark 0) cell)).
    + reflexivity.
    + vm_compute. discriminate.
  - apply (proj2 (last_answer_wins (Page.ok_mark 12) (Page.ok_mark 3) cell) 12).
    + reflexivity.
    + lia.
Defined.

Section Late.
Context {F : Float}.

(** A mark answer leaves the classes of every element but its cell as they
    are. *)
Lemma mark_response_other_classes cell data st x e :
  x <> cell -> getElement (dom st) x = Some e ->
  classes_of (dom (mark_response (Some cell) data st)) x = Some (classList e).
Proof.
  intros Hx He. unfold mark_response, classes_of.
  destruct (refused data); [rewrite dom_log, He; reflexivity|]. simpl.
  rewrite dom_log.
  destruct (computeSumBar_keeps
              (closest (modify cell (set_mark_classes data) (dom st)) (has_tag "table") cell)
              (modify cell (set_mark_classes data) (dom st)) x e)
    as (e' & -> & Hcl & _).
  - rewrite getElement_modify, He by auto with frames. simpl.
    apply getElement_In in He as [_ Hn]. rewrite Hn.
    destruct (Nat.eqb_spec x cell); [contradiction|reflexivity].
  - simpl. now rewrite Hcl.
Qed.

(** The answer to a request of the keydown listener is written to the cell
    that is [lastClickedCell] when the answer arrives.  After the key [d]
    on cell [a] and then a click on another numeric cell [b], the answer to
    the key, though the request names [a], rewrites the classes of [b] and
    leaves those of [a]; the answer to a request of the click listener goes
    to the cell that was clicked. *)
Theorem keydown_answer_goes_to_last_clicked
    (st : state) (a b : node) (ea eb : element) (key : string) (status : Z) (data : value) :
  lastClickedCell st = Some a ->
  getElement (dom st) a = Some ea ->
  getElement (dom st) b = Some eb ->
  td_num_cell eb = true ->
  a <> b ->
  refused data = false ->
  let st1 := document_keydown key st in
  let st2 := click_cell b false false false st1 in
  let st3 := settle OnMarkKey (Resolved status (Some data)) st2 in
  (forall d, keydown_mark key = Some d ->
             issued st st1
             = [mark_request (getAttribute ea "data-id") (getAttribute ea "data-col") d])
  /\ lastClickedCell st2 = Some b
  /\ classes_of (dom st3) a = Some (classList ea)
  /\ classes_of (dom st3) b = Some (classList (set_mark_classes data eb))
  /\ classes_of (dom (settle (OnMarkClick a) (Resolved status (Some data)) st2)) a
     = Some (classList (set_mark_classes data ea)).
Proof.
  intros Hl Ha Hb Htd Hab Hr st1 st2 st3.
  assert (Hd1 : dom st1 = dom st /\ lastClickedCell st1 = Some a).
  { subst st1. unfold document_keydown. rewrite Hl.
    destruct (keydown_mark key); [|auto]. rewrite Ha. simpl.
    destruct (log_frame "mark keydown" st) as (-> & -> & _). auto. }
  destruct Hd1 as [Hd1 Hl1].
  assert (Hd2 : dom st2 = dom st /\ lastClickedCell st2 = Some b).
  { subst st2. unfold click_cell, td_click, document_click. rewrite Hd1, Hb. simpl.
    destruct (log_frame "mark click" st1) as (-> & _). rewrite Hd1.
    assert (Hc : closest (dom st) td_num_cell b = Some b)
      by (unfold closest; simpl; now rewrite Hb, Htd).
    rewrite Hc. simpl. destruct (log_frame "mark click" st1) as (-> & _). auto. }
  destruct Hd2 as [Hd2 Hl2].
  split.
  - intros d Hk. subst st1. unfold document_keydown. rewrite Hl, Hk, Ha.
    apply issued_fetch_log.
  - split; [exact Hl2|].
    assert (Hcls : forall c ec, getElement (dom st2) c = Some ec ->
              classes_of (dom (mark_response (Some c) data st2)) c
              = Some (classList (set_mark_classes data ec))).
    { intros c ec Hc. unfold mark_response, classes_of. rewrite Hr. simpl.
      rewrite dom_log.
      destruct (computeSumBar_keeps
                  (closest (modify c (set_mark_classes data) (dom st2)) (has_tag "table") c)
                  (modify c (set_mark_classes data) (dom st2)) c (set_mark_classes data ec))
        as (e' & -> & Hcl & _).
      - rewrite getElement_modify, Hc by auto with frames. simpl.
        apply getElement_In in Hc as [_ ->]. now rewrite Nat.eqb_refl.
      - simpl. now rewrite Hcl. }
    subst st3. simpl. rewrite Hl2. split; [|split].
    + apply mark_response_other_classes; [assumption|now rewrite Hd2].
    + apply Hcls. now rewrite Hd2.
    + apply Hcls. now rewrite Hd2.
Qed.

End Late.

Lemma keydown_answer_goes_to_last_clicked_witness :
  let st := click_cell 6 false false false (Page.loaded "ACME" "asc") in
  let st2 := click_cell 10 false false false (document_keydown "3" st) in
  let st3 := settle (F := Exact.float) OnMarkKey (Resolved 200 (Some (Page.ok_mark 3))) st2 in
  classes_of (dom st3) 6 = Some ["num-cell"; "marked"; "mark-2"]
  /\ classes_of (dom st3) 10 = Some ["num-cell"; "marked"; "mark-3"].
Proof.
  intros st st2 st3.
  destruct (keydown_answer_goes_to_last_clicked (F := Exact.float) st 6 10
              (Page.el 6 "td" ["num-cell"; "marked"; "mark-2"]
                       [("data-id", "7"); ("data-col", "DEBE"); ("data-val", "1.234,50")]
                       (Some 5%nat))
              (Page.el 10 "td" ["num-cell"; "marked"; "mark-1"]
                       [("data-id", "x9"); ("data-col", "DEBE"); ("data-val", "0.5")]
                       (Some 9%nat))
              "3" 200 (Page.ok_mark 3))
    as (_ & _ & H6 & H10 & _); try (vm_compute; reflexivity).
  - discriminate.
  - split; [exact H6|exact H10].
Defined.

(** *** The clean-up at load *)

Lemma cleanup_idem e : cleanup (cleanup e) = cleanup e.
Proof.
  destruct (forallb (fun i => negb (contains (mark_class i) (classList e))) marks) eqn:Hf.
  - assert (He : cleanup e = with_classList (remove "marked") e)
      by (unfold cleanup; now rewrite Hf).
    rewrite He. unfold cleanup.
    destruct (forallb (fun i => negb (contains (mark_class i)
                (classList (with_classList (remove "marked") e)))) marks); [|reflexivity].
    apply with_classList_remove_absent. simpl.
    rewrite contains_remove. simpl. apply andb_false_r.
  - assert (He : cleanup e = e) by (unfold cleanup; now rewrite Hf).
    now rewrite !He.
Qed.

(** The clean-up at load rewrites the numeric cells and nothing else: a
    [td.num-cell] with none of [mark-1] .. [mark-9] loses [marked], a
    numeric cell with one of them and every other element stay as they are;
    no class is ever added; a second pass would change nothing. *)
Theorem init_cells_cleans_cells (d : document) :
  wf_document d ->
  init_cells d = map (fun e => if td_num_cell e then cleanup e else e) d
  /\ (forall e, td_num_cell e = true ->
                existsb (fun i => contains (mark_class i) (classList e)) marks = true ->
                cleanup e = e)
  /\ (forall e c, contains c (classList (cleanup e)) = true -> contains c (classList e) = true)
  /\ init_cells (init_cells d) = init_cells d.
Proof.
  intros Hwf.
  assert (Hform : forall d0, wf_document d0 ->
            init_cells d0 = map (fun e => if td_num_cell e then cleanup e else e) d0).
  { intros d0 Hwf0. unfold init_cells.
    rewrite forEach_modify; [|apply frames_cleanup|apply cleanup_idem].
    apply map_ext_in. intros e He.
    destruct (existsb _ _) eqn:Hex.
    - apply existsb_exists in Hex as (el & Hel & Hn). apply Nat.eqb_eq in Hn.
      apply filter_In in Hel as [Hel Hsel].
      assert (el = e) as -> by (eapply nid_inj; eauto). now rewrite Hsel.
    - destruct (td_num_cell e) eqn:Htd; [|reflexivity].
      exfalso.
      assert (Hx : existsb (fun el => Nat.eqb (nid el) (nid e))
                           (document_querySelectorAll d0 td_num_cell) = true).
      { apply existsb_exists. exists e. split; [|apply Nat.eqb_refl].
        apply filter_In. auto. }
      congruence. }
  split; [now apply Hform|]. split; [|split].
  - intros e _ Hex. unfold cleanup.
    assert (Hf : forallb (fun i => negb (contains (mark_class i) (classList e))) marks = false).
    { destruct (forallb _ marks) eqn:Hf; [|reflexivity].
      apply existsb_exists in Hex as (i & Hi & Hc).
      rewrite forallb_forall in Hf. specialize (Hf i Hi). now rewrite Hc in Hf. }
    now rewrite Hf.
  - intros e c. unfold cleanup. destruct (forallb _ marks); [|auto].
    simpl. rewrite contains_remove. intros H. now apply andb_prop in H as [H _].
  - rewrite (Hform d Hwf). rewrite Hform.
    + rewrite map_map. apply map_ext. intros e.
      destruct (td_num_cell e) eqn:Htd; [|now rewrite Htd].
      assert (Hk : td_num_cell (cleanup e) = td_num_cell e).
      { unfold cleanup. destruct (forallb _ marks); [|reflexivity].
        apply (proj2 (keeps_cell_remove "marked" eq_refl)). }
      rewrite Hk, Htd. apply cleanup_idem.
    + unfold wf_document. rewrite map_map.
      assert (Hn : map (fun x => nid (if td_num_cell x then cleanup x else x)) d = map nid d).
      { apply map_ext. intros e. destruct (td_num_cell e); [apply frames_cleanup|reflexivity]. }
      now rewrite Hn.
Qed.

Lemma init_cells_cleans_cells_witness :
  map classList (init_cells (Page.statement "ACME" "asc"))
  = [ ["card"]; ["reorder-table"]; []; ["sortable"]; []; [];
      ["num-cell"; "marked"; "mark-2"]; ["num-cell"]; ["venc-cell"; "overdue"]; [];
      ["num-cell"; "marked"; "mark-1"]; []; ["venc-days"; "overdue"] ].
Proof.
  rewrite (proj1 (init_cells_cleans_cells (Page.statement "ACME" "asc") (statement_wf _ _))).
  vm_compute. reflexivity.
Defined.

(** *** Paid, twice *)

Section PaidTwice.
Context {F : Float}.


End PaidTwice.


Lemma answers_never_fetch_witness :
  navigated (settle (F := Exact.float) (OnPagado 5) Rejected (Page.loaded "ACME" "asc"))
  = navigated (Page.loaded "ACME" "asc").
Proof.
  apply (proj2 (proj2 (proj2 (answers_never_fetch (F := Exact.float)
                                (Page.loaded "ACME" "asc"))))).
  discriminate.
Defined.


(** *** The groups of the navigation *)

Lemma find_map {A} (p : A -> bool) (g : A -> A) l :
  (forall a, p (g a) = p a) -> find p (map g l) = option_map g (find p l).
Proof.
  intros H. induction l as [|a l IH]; simpl; [reflexivity|].
  rewrite H. destruct (p a); [reflexivity|apply IH].
Qed.

Lemma getElementById_map g d id :
  (forall e, attributes (g e) = attributes e) ->
  getElementById (map g d) id = option_map g (getElementById d id).
Proof.
  intros H. unfold getElementById. destruct (String.eqb id ""); [reflexivity|].
  apply find_map. intros a. unfold has_attr, getAttribute. now rewrite H.
Qed.

Lemma closest_map g d sel x :
  frames g -> (forall e, sel (g e) = sel e) ->
  closest (map g d) sel x = closest d sel x.
Proof. intros Hg Hs. unfold closest. rewrite length_map. now apply closest_from_map. Qed.

Lemma open_writes_keep o e :
  has_class "nav-group"
    (with_classList (if o : bool then remove "open" else add "open") e)
  = has_class "nav-group" e.
Proof.
  unfold has_class. destruct o; simpl.
  - rewrite contains_remove. simpl. apply andb_true_r.
  - rewrite contains_add. simpl. apply orb_false_r.
Qed.

Section Toggles.
Variables (st : state) (btn p : node) (b sub pe : element).
Hypothesis Hwf : wf_document (dom st).
Hypothesis Hb : getElement (dom st) btn = Some b.
Hypothesis Hsub :
  getElementById (dom st) (string_of_attr (getAttribute b "data-target")) = Some sub.
Hypothesis Hp : closest (dom st) (has_class "nav-group") btn = Some p.
Hypothesis Hpe : getElement (dom st) p = Some pe.

Lemma toggle_click_toggled :
  toggle_click btn st
  = set_dom (toggled (contains "open" (classList pe)) p (nid sub) (dom st)) st.
Proof.
  unfold toggle_click, toggled. rewrite Hb, Hsub, Hp, Hpe.
  now destruct (contains "open" (classList pe)).
Qed.

End Toggles.

Lemma toggled_getElement o p s d n e :
  getElement d n = Some e ->
  exists e',
    getElement (toggled o p s d) n = Some e'
    /\ nid e' = nid e /\ attributes e' = attributes e
    /\ classList e' = (if Nat.eqb (nid e) p
                       then (if o then remove "open" else add "open") (classList e)
                       else classList e)
    /\ style_display e' = (if Nat.eqb (nid e) s
                           then Some (if o then "none" else "block")
                           else style_display e).
Proof.
  intros H. unfold toggled. rewrite !getElement_modify by auto with frames.
  rewrite H. simpl. eexists. split; [reflexivity|].
  destruct (Nat.eqb (nid e) s); simpl; destruct (Nat.eqb (nid e) p); simpl;
    repeat split; reflexivity.
Qed.

Lemma toggled_getElementById o p s d id e :
  getElementById d id = Some e ->
  exists e', getElementById (toggled o p s d) id = Some e' /\ nid e' = nid e.
Proof.
  intros H. unfold toggled, modify.
  rewrite !getElementById_map
    by (intros a; destruct (Nat.eqb (nid a) _); reflexivity).
  rewrite H. simpl. eexists. split; [reflexivity|].
  destruct (Nat.eqb (nid e) s); simpl; destruct (Nat.eqb (nid e) p); reflexivity.
Qed.

Lemma toggled_closest o p s d x :
  closest (toggled o p s d) (has_class "nav-group") x
  = closest d (has_class "nav-group") x.
Proof.
  unfold toggled, modify. rewrite !closest_map; auto with frames;
    intros e; destruct (Nat.eqb (nid e) _); auto using open_writes_keep.
Qed.

Lemma remove_add x l : remove x (add x l) = remove x l.
Proof.
  unfold add. destruct (contains x l); [reflexivity|].
  unfold remove. rewrite filter_app. simpl. rewrite String.eqb_refl. simpl.
  apply app_nil_r.
Qed.

Lemma remove_remove x l : remove x (remove x l) = remove x l.
Proof.
  apply remove_absent. rewrite contains_remove, String.eqb_refl. apply andb_false_r.
Qed.

Lemma toggled_thrice p s d pe :
  wf_document d -> getElement d p = Some pe ->
  let o := contains "open" (classList pe) in
  toggled o p s (toggled (negb o) p s (toggled o p s d)) = toggled o p s d.
Proof.
  intros Hwf Hpe o. apply getElement_In in Hpe as [Hin Hn].
  unfold toggled, modify. rewrite !map_map. apply map_ext_in. intros e He.
  assert (Hcl : Nat.eqb (nid e) p = true -> contains "open" (classList e) = o).
  { intros H. apply Nat.eqb_eq in H.
    assert (e = pe) as -> by (eapply nid_inj; eauto; congruence). reflexivity. }
  destruct e as [n t cl a pa sd sc ih]. simpl in *.
  destruct (Nat.eqb n s) eqn:Es; destruct (Nat.eqb n p) eqn:Ep;
    repeat (simpl; rewrite ?Es, ?Ep);
    unfold with_classList, with_display; simpl; try reflexivity;
    specialize (Hcl eq_refl); f_equal; destruct o; simpl;
    rewrite ?remove_add, ?remove_remove; try reflexivity;
    now rewrite (remove_absent _ _ Hcl).
Qed.

(** A click on a toggle whose submenu exists and that lies in a
    [.nav-group] flips the class [open] of the group and nothing else of
    its classes, shows the submenu when the group is now open and hides it
    otherwise, touches no other element, prints nothing and sends nothing;
    a second click undoes the first as far as [open] and the display go, so
    that three clicks give the state that one click gives. *)
Theorem toggle_opens_and_closes (st : state) (btn p : node) (b sub : element) :
  wf_document (dom st) ->
  getElement (dom st) btn = Some b ->
  getElementById (dom st) (string_of_attr (getAttribute b "data-target")) = Some sub ->
  closest (dom st) (has_class "nav-group") btn = Some p ->
  let st' := toggle_click btn st in
  exists pe pe' sub',
    getElement (dom st) p = Some pe
    /\ getElement (dom st') p = Some pe'
    /\ getElement (dom st') (nid sub) = Some sub'
    /\ contains "open" (classList pe') = negb (contains "open" (classList pe))
    /\ (forall c, c <> "open" -> contains c (classList pe') = contains c (classList pe))
    /\ style_display sub'
       = Some (if contains "open" (classList pe') then "block" else "none")
    /\ (forall n, n <> p -> n <> nid sub -> getElement (dom st') n = getElement (dom st) n)
    /\ console st' = console st /\ fetched st' = fetched st
    /\ toggle_click btn (toggle_click btn st') = st'.
Proof.
  intros Hwf Hb Hsub Hp st'.
  destruct (closest_from_sel _ _ _ _ _ Hp) as (pe & Hpe & _).
  assert (Hs : getElement (dom st) (nid sub) = Some sub).
  { apply getElement_of_In; [assumption|].
    unfold getElementById in Hsub. destruct (String.eqb _ ""); [discriminate|].
    now apply find_some in Hsub as [Hin _]. }
  set (o := contains "open" (classList pe)).
  assert (H1 : st' = set_dom (toggled o p (nid sub) (dom st)) st)
    by (subst st' o; eapply toggle_click_toggled; eauto).
  destruct (toggled_getElement o p (nid sub) _ _ _ Hpe) as (pe' & Hpe' & Hn' & _ & Hcl' & _).
  destruct (toggled_getElement o p (nid sub) _ _ _ Hs) as (sub' & Hs' & _ & _ & _ & Hd').
  pose proof (proj2 (getElement_In _ _ _ Hpe)) as Hnp.
  rewrite Hnp, Nat.eqb_refl in Hcl'. rewrite Nat.eqb_refl in Hd'.
  assert (Ho' : contains "open" (classList pe') = negb o).
  { rewrite Hcl'. subst o. destruct (contains "open" (classList pe)) eqn:Ho; simpl.
    - rewrite contains_remove, String.eqb_refl. apply andb_false_r.
    - rewrite contains_add, String.eqb_refl. apply orb_true_r. }
  exists pe, pe', sub'. rewrite H1. simpl.
  split; [assumption|]. split; [assumption|]. split; [assumption|].
  split; [assumption|]. split.
  { intros c Hc. rewrite Hcl'. destruct o.
    - rewrite contains_remove.
      destruct (String.eqb_spec "open" c) as [Heq|_]; [now contradiction Hc|].
      apply andb_true_r.
    - rewrite contains_add.
      destruct (String.eqb_spec c "open") as [Heq|_]; [now contradiction Hc|].
      apply orb_false_r. }
  split; [rewrite Hd', Ho'; now destruct o|]. split.
  { intros n Hn1 Hn2. unfold toggled. rewrite !getElement_modify by auto with frames.
    destruct (getElement (dom st) n) as [e|] eqn:He; [|reflexivity]. simpl.
    apply getElement_In in He as [_ He].
    destruct (Nat.eqb_spec (nid e) (nid sub)) as [Heq|_]; [congruence|].
    destruct (Nat.eqb_spec (nid e) p) as [Heq|_]; [congruence|reflexivity]. }
  split; [reflexivity|]. split; [reflexivity|].
  (* the second and the third click *)
  set (d1 := toggled o p (nid sub) (dom st)).
  destruct (toggled_getElement o p (nid sub) _ _ _ Hb) as (b1 & Hb1 & _ & Ha1 & _).
  destruct (toggled_getElementById o p (nid sub) _ _ _ Hsub) as (sub1 & Hsub1 & Hn1).
  assert (Ht1 : getAttribute b1 "data-target" = getAttribute b "data-target")
    by (unfold getAttribute; now rewrite Ha1).
  rewrite <- Ht1 in Hsub1.
  assert (H2 : toggle_click btn (set_dom d1 st)
               = set_dom (toggled (negb o) p (nid sub) d1) (set_dom d1 st)).
  { rewrite <- Ho', <- Hn1.
    apply (toggle_click_toggled (set_dom d1 st) btn p b1 sub1 pe'); simpl;
      try assumption.
    subst d1. now rewrite toggled_closest. }
  rewrite H2.
  set (d2 := toggled (negb o) p (nid sub) d1).
  destruct (toggled_getElement (negb o) p (nid sub) _ _ _ Hb1) as (b2 & Hb2 & _ & Ha2 & _).
  destruct (toggled_getElementById (negb o) p (nid sub) _ _ _ Hsub1) as (sub2 & Hsub2 & Hn2).
  assert (Ht2 : getAttribute b2 "data-target" = getAttribute b1 "data-target")
    by (unfold getAttribute; now rewrite Ha2).
  rewrite <- Ht2 in Hsub2.
  destruct (toggled_getElement (negb o) p (nid sub) _ _ _ Hpe')
    as (pe2 & Hpe2 & _ & _ & Hcl2 & _).
  rewrite Hn', Hnp, Nat.eqb_refl in Hcl2.
  assert (Ho2 : contains "open" (classList pe2) = o).
  { rewrite Hcl2. destruct o; simpl.
    - rewrite contains_add, String.eqb_refl. apply orb_true_r.
    - rewrite contains_remove, String.eqb_refl. apply andb_false_r. }
  assert (H3 : toggle_click btn (set_dom d2 (set_dom d1 st))
               = set_dom (toggled o p (nid sub) d2) (set_dom d2 (set_dom d1 st))).
  { rewrite <- Ho2 at 1. rewrite <- Hn1, <- Hn2.
    apply (toggle_click_toggled (set_dom d2 (set_dom d1 st)) btn p b2 sub2 pe2); simpl;
      try assumption.
    subst d2 d1. now rewrite !toggled_closest. }
  rewrite H3. subst d2 d1 o.
  rewrite (toggled_thrice p (nid sub) (dom st) pe Hwf Hpe). reflexivity.
Qed.

Lemma toggle_opens_and_closes_witness :
  let st := Page.menu_loaded ["open"] in
  map style_display (dom (toggle_click 1 st)) = [None; None; Some "none"; None]
  /\ toggle_click 1 (toggle_click 1 (toggle_click 1 st)) = toggle_click 1 st.
Proof.
  intros st. split; [reflexivity|].
  assert (Hwf : wf_document (dom st)) by distinct_ids.
  destruct (toggle_opens_and_closes st 1 0
              (Page.el 1 "button" ["nav-group-toggle"] [("data-target", "sub-ventas")]
                       (Some 0%nat))
              (Page.el 2 "ul" ["nav-sub"] [("id", "sub-ventas")] (Some 0%nat))
              Hwf eq_refl eq_refl eq_refl)
    as (pe & pe' & sub' & _ & _ & _ & _ & _ & _ & _ & _ & _ & H).
  exact H.
Defined.

(** A toggle that lies in no [.nav-group] can open its submenu and never
    close it: every click shows the submenu, changes no class, and raises
    the exception that the listener of [window] prints, once per click. *)
Theorem toggle_outside_group_only_opens (n : nat) :
  forall (st : state) (btn : node) (b sub : element),
  getElement (dom st) btn = Some b ->
  getElementById (dom st) (string_of_attr (getAttribute b "data-target")) = Some sub ->
  closest (dom st) (has_class "nav-group") btn = None ->
  let st' := Nat.iter (S n) (toggle_click btn) st in
  (forall e, In e (dom st) -> nid e = nid sub ->
     exists e', In e' (dom st') /\ nid e' = nid sub /\ style_display e' = Some "block")
  /\ (forall e', In e' (dom st') -> nid e' = nid sub -> style_display e' = Some "block")
  /\ map classList (dom st') = map classList (dom st)
  /\ console st' = (console st ++ repeat (Error, "window.error") (S n))%list
  /\ fetched st' = fetched st.
Proof.
  assert (Hstep : forall st btn b sub,
    getElement (dom st) btn = Some b ->
    getElementById (dom st) (string_of_attr (getAttribute b "data-target")) = Some sub ->
    closest (dom st) (has_class "nav-group") btn = None ->
    toggle_click btn st
    = uncaught (set_dom (modify (nid sub) (with_display "block") (dom st)) st)).
  { intros st btn b sub Hb Hsub Hp. unfold toggle_click. now rewrite Hb, Hsub, Hp. }
  assert (Hone : forall st btn b sub,
    getElement (dom st) btn = Some b ->
    getElementById (dom st) (string_of_attr (getAttribute b "data-target")) = Some sub ->
    closest (dom st) (has_class "nav-group") btn = None ->
    let st' := toggle_click btn st in
    (forall e, In e (dom st) -> nid e = nid sub ->
       exists e', In e' (dom st') /\ nid e' = nid sub /\ style_display e' = Some "block")
    /\ (forall e', In e' (dom st') -> nid e' = nid sub -> style_display e' = Some "block")
    /\ map classList (dom st') = map classList (dom st)
    /\ console st' = (console st ++ [(Error, "window.error")])%list
    /\ fetched st' = fetched st
    /\ (exists b' sub',
          getElement (dom st') btn = Some b'
          /\ getElementById (dom st') (string_of_attr (getAttribute b' "data-target"))
             = Some sub'
          /\ nid sub' = nid sub
          /\ closest (dom st') (has_class "nav-group") btn = None)).
  { intros st btn b sub Hb Hsub Hp st'. subst st'.
    rewrite (Hstep st btn b sub Hb Hsub Hp). simpl.
    split; [|split; [|split; [|split; [|split]]]]; try reflexivity.
    - intros e He Hn. exists (with_display "block" e). split; [|auto].
      unfold modify. apply in_map_iff. exists e. split; [|assumption].
      apply Nat.eqb_eq in Hn. now rewrite Hn.
    - intros e' He' Hn. unfold modify in He'. apply in_map_iff in He' as (e & <- & He).
      destruct (Nat.eqb_spec (nid e) (nid sub)) as [_|Hne]; [reflexivity|].
      now contradiction Hne.
    - unfold modify. rewrite map_map. apply map_ext. intros e.
      now destruct (Nat.eqb (nid e) (nid sub)).
    - unfold modify.
      rewrite getElement_map, Hb by auto with frames. simpl.
      eexists; eexists. split; [reflexivity|].
      assert (Ha : forall e : element,
                attributes (if Nat.eqb (nid e) (nid sub) then with_display "block" e else e)
                = attributes e) by (intros e; now destruct (Nat.eqb (nid e) (nid sub))).
      assert (Ht : getAttribute (if Nat.eqb (nid b) (nid sub)
                                 then with_display "block" b else b) "data-target"
                   = getAttribute b "data-target")
        by now destruct (Nat.eqb (nid b) (nid sub)).
      rewrite Ht, getElementById_map, Hsub by assumption. simpl.
      split; [reflexivity|]. split; [now destruct (Nat.eqb (nid sub) (nid sub))|].
      rewrite closest_map; auto with frames.
      intros e. now destruct (Nat.eqb (nid e) (nid sub)). }
  induction n as [|n IH]; intros st btn b sub Hb Hsub Hp st'.
  - subst st'. simpl.
    destruct (Hone st btn b sub Hb Hsub Hp) as (H1 & H2 & H3 & H4 & H5 & _). auto.
  - subst st'. rewrite Nat.iter_succ_r.
    destruct (Hone st btn b sub Hb Hsub Hp)
      as (H1 & H2 & H3 & H4 & H5 & b' & sub' & Hb' & Hsub' & Hn' & Hp').
    destruct (IH (toggle_click btn st) btn b' sub' Hb' Hsub' Hp')
      as (I1 & I2 & I3 & I4 & I5).
    rewrite Hn' in *.
    split; [|split; [|split; [|split]]].
    + intros e He Hn. destruct (H1 e He Hn) as (e1 & He1 & Hn1 & _). now apply (I1 e1).
    + assumption.
    + now rewrite I3.
    + rewrite I4, H4, <- app_assoc. reflexivity.
    + now rewrite I5.
Qed.

Lemma toggle_outside_group_only_opens_witness :
  let st := Nat.iter 2 (toggle_click 3) (Page.menu_loaded ["open"]) in
  map style_display (dom st) = [None; None; Some "block"; None]
  /\ map classList (dom st) = map classList (Page.menu ["open"]).
Proof.
  intros st. split; [reflexivity|].
  apply (toggle_outside_group_only_opens 1 (Page.menu_loaded ["open"]) 3
           (Page.el 3 "button" ["nav-group-toggle"] [("data-target", "sub-ventas")] None)
           (Page.el 2 "ul" ["nav-sub"] [("id", "sub-ventas")] (Some 0%nat)));
    reflexivity.
Defined.

(** *** Which identifiers count *)

Lemma trimEnd_ws s post :
  forallb is_ws (list_ascii_of_string post) = true -> trimEnd (s ++ post) = trimEnd s.
Proof.
  intros Hpost.
  assert (Hnil : trimEnd post = "").
  { induction post as [|c post IH]; simpl in *; [reflexivity|].
    apply andb_prop in Hpost as [Hc Hp]. now rewrite (IH Hp), Hc. }
  induction s as [|c s IH]; simpl; [assumption|]. now rewrite IH.
Qed.

Lemma trimEnd_digits s : all_digits s = true -> trimEnd s = s.
Proof.
  induction s as [|c s IH]; simpl; [reflexivity|].
  intros H. apply andb_prop in H as [Hc Hs]. rewrite (IH Hs).
  destruct s; [|reflexivity]. now rewrite (digit_not_ws c Hc).
Qed.

(** [isValidId] accepts the strings made of one or more of the digits [0]
    to [9] with any white space before and after, and nothing else: not a
    missing attribute, not the empty string, not a sign, a dot or a letter. *)
Theorem isValidId_digits_in_white_space (v : option string) :
  isValidId v = true
  <-> exists pre digits post,
        v = Some (pre ++ digits ++ post)
        /\ forallb is_ws (list_ascii_of_string pre) = true
        /\ forallb is_ws (list_ascii_of_string post) = true
        /\ digits <> "" /\ all_digits digits = true.
Proof.
  split.
  - destruct v as [s|]; [|discriminate]. simpl. intros H.
    destruct (trimStart_spec s) as (pre & Hs & Hpre & _).
    destruct (trimEnd_spec (trimStart s)) as (post & Ht & Hpost & _).
    exists pre, (trim s), post. unfold trim in *.
    split; [now rewrite <- Ht, <- Hs|]. split; [assumption|]. split; [assumption|].
    unfold test_digits in H. destruct (trimEnd (trimStart s)); [discriminate|].
    split; [discriminate|assumption].
  - intros (pre & digits & post & -> & Hpre & Hpost & Hne & Hd). simpl. unfold trim.
    rewrite trimStart_ws by assumption.
    assert (Hst : trimStart (digits ++ post) = digits ++ post).
    { destruct digits as [|c r]; [now contradiction Hne|]. simpl in *.
      apply andb_prop in Hd as [Hc _]. now rewrite (digit_not_ws c Hc). }
    rewrite Hst, trimEnd_ws, trimEnd_digits by assumption.
    unfold test_digits. destruct digits; [now contradiction Hne|assumption].
Qed.

(** *** A drag that moves nothing *)

Lemma modify_same n f d :
  (forall e, In e d -> nid e = n -> f e = e) -> modify n f d = d.
Proof.
  intros H. unfold modify. rewrite <- (map_id d) at 2. apply map_ext_in. intros e He.
  destruct (Nat.eqb_spec (nid e) n); auto.
Qed.

Lemma add_then_remove x l : contains x l = false -> remove x (add x l) = l.
Proof. intros H. rewrite remove_add. now apply remove_absent. Qed.

(** [dragstart] on a row whose identifier is not valid is prevented and
    changes nothing.  On a row with a valid identifier it records the row,
    gives it the class [dragging] and, when the event carries a
    [dataTransfer], stores the identifier there; a [dragend] that follows
    with no [dragover] in between forgets the row, gives the document back
    as it was, and still posts the order: the requests are those of a
    [dragend] alone. *)
Theorem drag_without_move (r : reorder) (id : option string) (table tbody tr : node)
    (transfer : bool) (e : element) :
  wf_document (dom (page r)) ->
  getElement (dom (page r)) tr = Some e ->
  contains "dragging" (classList e) = false ->
  let r1 := fst (tr_dragstart id tr transfer r) in
  let fx := snd (tr_dragstart id tr transfer r) in
  let r2 := reorder_dragend table tbody tr r1 in
  if isValidId id then
    dragRow r1 = Some tr
    /\ dom (page r1) = modify tr (with_classList (add "dragging")) (dom (page r))
    /\ fetched (page r1) = fetched (page r)
    /\ fx = (if transfer
             then mkEffects false (Some "move") None [("text/plain", string_of_attr id)]
             else no_effects)
    /\ dragRow r2 = None
    /\ dom (page r2) = dom (page r)
    /\ issued (page r) (page r2) = issued (page r) (tr_dragend table tbody tr (page r))
  else
    r1 = r /\ fx = mkEffects true None None [].
Proof.
  intros Hwf He Hcl r1 fx r2. subst r2 r1 fx. unfold tr_dragstart.
  destruct (isValidId id); simpl; [|auto].
  split; [reflexivity|]. split; [apply dom_log|]. split; [now rewrite fetched_log|].
  split; [reflexivity|]. split; [reflexivity|].
  assert (Hsame : forall e0, In e0 (dom (page r)) -> nid e0 = tr ->
                             contains "dragging" (classList e0) = false).
  { intros e0 H0 Hn. apply getElement_In in He as [Hin Hne].
    assert (e0 = e) as -> by (eapply nid_inj; eauto; congruence). assumption. }
  assert (Hback : modify tr (with_classList (remove "dragging"))
                    (modify tr (with_classList (add "dragging")) (dom (page r)))
                  = dom (page r)).
  { unfold modify. rewrite map_map. rewrite <- (map_id (dom (page r))) at 2.
    apply map_ext_in. intros e0 H0.
    destruct (Nat.eqb (nid e0) tr) eqn:Hn; simpl; rewrite Hn; [|reflexivity].
    destruct e0 as [n t cl a pa sd sc ih]. unfold with_classList. simpl.
    f_equal. apply add_then_remove. apply Nat.eqb_eq in Hn. now apply (Hsame _ H0). }
  assert (Hnone : modify tr (with_classList (remove "dragging")) (dom (page r))
                  = dom (page r)).
  { apply modify_same. intros e0 H0 Hn. apply with_classList_remove_absent. auto. }
  unfold tr_dragend. simpl. rewrite dom_log. simpl. rewrite Hback, Hnone.
  destruct (getElement (dom (page r)) table) as [table_el|]; simpl;
    [destruct (negb (attr_truthy (getAttribute table_el "data-cliente"))
               || Nat.eqb (List.length (reorder_ids (dom (page r)) tbody)) 0); simpl|];
    (split; [now rewrite ?dom_log|]); unfold issued;
    repeat (cbn [fetched set_dom fetch]; rewrite ?fetched_log); reflexivity.
Qed.

Lemma drag_without_move_witness :
  let r := mkReorder (Page.loaded "ACME" "asc") None in
  let r2 := reorder_dragend 1 4 5 (fst (tr_dragstart (Some "7") 5 true r)) in
  dom (page r2) = dom (page r)
  /\ issued (page r) (page r2) = [reorder_request "ACME" ["7"]].
Proof.
  intros r r2.
  assert (Hwf : wf_document (dom (page r))) by distinct_ids.
  pose proof (drag_without_move r (Some "7") 1 4 5 true _ Hwf eq_refl eq_refl) as H.
  simpl isValidId in H. change (test_digits (trim "7")) with true in H.
  destruct H as (_ & _ & _ & _ & _ & Hd & Hi).
  split; [exact Hd|]. subst r2. rewrite Hi. reflexivity.
Defined.

(** *** The row under the pointer *)

Section DragAfter.
Context {L : Layout}.
Hypothesis lt_trans : forall a b c, lt a b = true -> lt b c = true -> lt a c = true.
Hypothesis lt_irrefl : forall a, lt a a = false.

Lemma reduce_nearest y l :
  forall seen acc,
    ((forall c, In c seen -> lt (offset_of y c) px_zero = true ->
                lt (fst acc) (offset_of y c) = false)
     /\ match snd acc with
        | None => fst acc = NEGATIVE_INFINITY
        | Some a => In a seen /\ fst acc = offset_of y a
                    /\ lt (offset_of y a) px_zero = true
                    /\ lt NEGATIVE_INFINITY (offset_of y a) = true
        end) ->
    let res :=
      fold_left (fun closest child =>
                   let offset := offset_of y child in
                   if lt offset px_zero && lt (fst closest) offset
                   then (offset, Some child) else closest) l acc in
    (forall c, In c (seen ++ l) -> lt (offset_of y c) px_zero = true ->
               lt (fst res) (offset_of y c) = false)
    /\ match snd res with
       | None => fst res = NEGATIVE_INFINITY
       | Some a => In a (seen ++ l) /\ fst res = offset_of y a
                   /\ lt (offset_of y a) px_zero = true
                   /\ lt NEGATIVE_INFINITY (offset_of y a) = true
       end.
Proof.
  induction l as [|x l IH]; intros seen acc [Hmax Hel]; simpl.
  - now rewrite app_nil_r.
  - replace (seen ++ x :: l)%list with ((seen ++ [x]) ++ l)%list
      by now rewrite <- app_assoc.
    apply IH.
    destruct (lt (offset_of y x) px_zero) eqn:Hneg; simpl;
      [destruct (lt (fst acc) (offset_of y x)) eqn:Hgt; simpl|].
    + split.
      * intros c Hc Hcn. apply in_app_or in Hc as [Hc|[<-|[]]]; [|apply lt_irrefl].
        destruct (lt (offset_of y x) (offset_of y c)) eqn:Hxc; [|reflexivity].
        rewrite <- (Hmax c Hc Hcn). symmetry. now apply (lt_trans _ (offset_of y x)).
      * split; [apply in_or_app; right; now left|]. split; [reflexivity|].
        split; [assumption|].
        destruct (snd acc) as [a|]; [|now rewrite <- Hel].
        destruct Hel as (_ & Ha & _ & Hinf). rewrite Ha in Hgt.
        now apply (lt_trans _ (offset_of y a)).
    + split.
      * intros c Hc Hcn. apply in_app_or in Hc as [Hc|[<-|[]]]; auto.
      * destruct (snd acc) as [a|]; [|assumption].
        destruct Hel as (Hin & Ha & Hn & Hinf). repeat split; auto.
        apply in_or_app. now left.
    + split.
      * intros c Hc Hcn. apply in_app_or in Hc as [Hc|[<-|[]]]; [auto|congruence].
      * destruct (snd acc) as [a|]; [|assumption].
        destruct Hel as (Hin & Ha & Hn & Hinf). repeat split; auto.
        apply in_or_app. now left.
Qed.

(** [getDragAfterElement] gives the row, among those of the container that
    are not being dragged, whose middle is nearest below the pointer: its
    offset is negative and no row with a negative offset has a greater one.
    It gives nothing exactly when no row has a negative offset above
    [-Infinity], that is when the pointer is below every middle. *)
Theorem getDragAfterElement_nearest_below (d : document) (container : node) (y : px) :
  let rows := querySelectorAll d container tr_not_dragging in
  match getDragAfterElement d container y with
  | Some a =>
      In a rows
      /\ lt (offset_of y a) px_zero = true
      /\ lt NEGATIVE_INFINITY (offset_of y a) = true
      /\ forall c, In c rows -> lt (offset_of y c) px_zero = true ->
                   lt (offset_of y a) (offset_of y c) = false
  | None =>
      forall c, In c rows ->
                lt (offset_of y c) px_zero && lt NEGATIVE_INFINITY (offset_of y c) = false
  end.
Proof.
  intros rows. unfold getDragAfterElement. fold rows.
  destruct (reduce_nearest y rows [] (NEGATIVE_INFINITY, None)) as [Hmax Hel].
  { split; [intros c []|reflexivity]. }
  simpl in Hmax, Hel.
  destruct (snd (fold_left _ rows (NEGATIVE_INFINITY, None))) as [a|].
  - destruct Hel as (Hin & Ha & Hn & Hinf). rewrite Ha in Hmax. auto.
  - intros c Hc. rewrite Hel in Hmax.
    destruct (lt (offset_of y c) px_zero) eqn:Hn; [|reflexivity]. simpl. auto.
Qed.

End DragAfter.

Lemma exact_lt_trans a b c :
  Exact.lt a b = true -> Exact.lt b c = true -> Exact.lt a c = true.
Proof.
  destruct a as [[x| |]|], b as [[y| |]|], c as [[z| |]|]; simpl;
    try congruence; try reflexivity.
  destruct (x ?= y)%Q eqn:Hxy; try discriminate.
  destruct (y ?= z)%Q eqn:Hyz; try discriminate.
  intros _ _. rewrite <- Qlt_alt in Hxy, Hyz.
  now rewrite (proj1 (Qlt_alt x z) (Qlt_trans _ _ _ Hxy Hyz)).
Qed.

Lemma exact_lt_irrefl a : Exact.lt a a = false.
Proof.
  destruct a as [[x| |]|]; simpl; try reflexivity.
  now rewrite (proj1 (Qeq_alt x x) (Qeq_refl x)).
Qed.

Lemma getDragAfterElement_nearest_below_witness :
  option_map nid
    (getDragAfterElement (L := Page.boxes) (Page.statement "ACME" "asc") 4
                         (Page.at_height 60))
  = Some 9%nat
  /\ In (Page.el 9 "tr" [] [("data-id", "x9")] (Some 4%nat))
        (querySelectorAll (Page.statement "ACME" "asc") 4 tr_not_dragging).
Proof.
  split; [reflexivity|].
  exact (proj1 (getDragAfterElement_nearest_below (L := Page.boxes)
                  exact_lt_trans exact_lt_irrefl
                  (Page.statement "ACME" "asc") 4 (Page.at_height 60))).
Defined.

(** *** Moving the dragged row *)

Lemma partition_Permutation {A} (q : A -> bool) (l : list A) :
  Permutation (filter q l ++ filter (fun x => negb (q x)) l)%list l.
Proof.
  induction l as [|a l IH]; simpl; [constructor|].
  destruct (q a); simpl; [now constructor|].
  apply Permutation_sym, Permutation_cons_app, Permutation_sym, IH.
Qed.

Lemma insert_block_before_spec block n l :
  existsb (fun e => Nat.eqb (nid e) n) l = true ->
  exists l1 e l2,
    l = (l1 ++ e :: l2)%list /\ nid e = n
    /\ insert_block_before block n l = (l1 ++ block ++ e :: l2)%list.
Proof.
  induction l as [|a l IH]; simpl; [discriminate|].
  destruct (Nat.eqb_spec (nid a) n) as [Ha|Ha]; simpl.
  - intros _. exists [], a, l. auto.
  - intros H. destruct (IH H) as (l1 & e & l2 & -> & He & Hi).
    exists (a :: l1), e, l2. simpl. now rewrite Hi.
Qed.

Lemma insert_block_after_last_spec p block l :
  existsb p l = true ->
  exists l1 e l2,
    l = (l1 ++ e :: l2)%list /\ p e = true /\ existsb p l2 = false
    /\ insert_block_after_last p block l = (l1 ++ e :: block ++ l2)%list.
Proof.
  induction l as [|a l IH]; simpl; [discriminate|].
  destruct (existsb p l) eqn:Hl; simpl.
  - intros _. rewrite andb_false_r. destruct (IH eq_refl) as (l1 & e & l2 & -> & He & Hn & Hi).
    exists (a :: l1), e, l2. simpl. now rewrite Hi.
  - rewrite orb_false_r, andb_true_r. intros Ha. rewrite Ha.
    exists [], a, l. auto.
Qed.

Lemma closest_from_more fuel d sel x c :
  closest_from fuel d sel x = Some c -> closest_from (S fuel) d sel x = Some c.
Proof.
  revert x. induction fuel as [|fuel IH]; intros x; [discriminate|].
  intros H. simpl in H. change (closest_from (S (S fuel)) d sel x)
    with (match getElement d x with
          | None => None
          | Some e => if sel e then Some x
                      else match parentNode e with
                           | Some p => closest_from (S fuel) d sel p
                           | None => None
                           end
          end).
  destruct (getElement d x) as [e|]; [|discriminate].
  destruct (sel e); [assumption|].
  destruct (parentNode e); [now apply IH|discriminate].
Qed.

(** A child of [parent] lies inside [child] only if [parent] is [child] or
    lies inside it. *)
Lemma inside_of_parent d child parent parent_el ref :
  getElement d parent = Some parent_el ->
  parentNode ref = Some parent ->
  inside d child ref = true -> in_subtree d child parent_el = true.
Proof.
  intros Hp Hr. unfold in_subtree, inside. rewrite Hr.
  destruct (List.length d) as [|n]; [discriminate|]. simpl. rewrite Hp.
  destruct (Nat.eqb (nid parent_el) child); [reflexivity|]. simpl.
  destruct (parentNode parent_el) as [pp|]; [|discriminate].
  destruct (closest_from n d _ pp) eqn:Hc; [|discriminate].
  intros _. change (match closest_from (S n) d (fun a => Nat.eqb (nid a) child) pp with
                    | Some _ => true | None => false end = true).
  now rewrite (closest_from_more _ _ _ _ _ Hc).
Qed.

Lemma closest_from_depth d depth sel :
  (forall e, In e d ->
     forall p, parentNode e = Some p -> In p (map nid d) /\ (depth p < depth (nid e))%nat) ->
  forall fuel x c, closest_from fuel d sel x = Some c -> (depth c <= depth x)%nat.
Proof.
  intros Hd. induction fuel as [|fuel IH]; intros x c; simpl; [discriminate|].
  destruct (getElement d x) as [e|] eqn:He; [|discriminate].
  apply getElement_In in He as [Hin Hn].
  destruct (sel e); [intros [= <-]; lia|].
  destruct (parentNode e) as [p|] eqn:Hp; [|discriminate].
  intros H. apply IH in H. destruct (Hd e Hin p Hp) as [_ Hlt]. subst x. lia.
Qed.

(** In a tree the parent of an element does not lie below it. *)
Lemma parent_not_below d row re tbody tb :
  tree_shaped d ->
  getElement d row = Some re -> parentNode re = Some tbody ->
  getElement d tbody = Some tb ->
  in_subtree d row tb = false.
Proof.
  intros [depth Hd] Hre Hpar Htb.
  apply getElement_In in Hre as [Hin Hn]. apply getElement_In in Htb as [Hint Hnt].
  destruct (proj2 (Hd re Hin) tbody Hpar) as [_ Hlt]. rewrite Hn in Hlt.
  unfold in_subtree. rewrite Hnt.
  destruct (Nat.eqb_spec tbody row) as [Heq|_]; [rewrite Heq in Hlt; lia|]. simpl.
  unfold inside. destruct (parentNode tb) as [pp|] eqn:Hpp; [|reflexivity].
  destruct (closest_from _ d _ pp) as [c|] eqn:Hc; [|reflexivity]. exfalso.
  destruct (closest_from_sel _ _ _ _ _ Hc) as (e & He & Hsel).
  apply getElement_In in He as [_ Hne]. apply Nat.eqb_eq in Hsel.
  apply (closest_from_depth d depth) in Hc; [|intros e0 H0; apply (Hd e0 H0)].
  destruct (proj2 (Hd tb Hint) pp Hpp) as [_ Hlt'].
  rewrite Hnt in Hlt'. rewrite <- Hne, Hsel in Hc. lia.
Qed.

Lemma with_parentNode_same p e : parentNode e = Some p -> with_parentNode p e = e.
Proof. destruct e. unfold with_parentNode. simpl. now intros ->. Qed.

Lemma block_of_child d parent child re :
  wf_document d -> getElement d child = Some re -> parentNode re = Some parent ->
  block_of d parent child = filter (in_subtree d child) d.
Proof.
  intros Hwf Hre Hpar. unfold block_of. rewrite <- (map_id (filter _ d)) at 2.
  apply map_ext_in. intros e He. apply filter_In in He as [He _].
  destruct (Nat.eqb_spec (nid e) child) as [Hn|_]; [|reflexivity].
  apply getElement_In in Hre as [Hin Hnr].
  assert (e = re) as -> by (eapply nid_inj; eauto; congruence).
  now apply with_parentNode_same.
Qed.

Lemma moved_Permutation d child l1 l2 :
  without d child = (l1 ++ l2)%list ->
  Permutation (l1 ++ filter (in_subtree d child) d ++ l2) d.
Proof.
  intros H. apply Permutation_trans with (filter (in_subtree d child) d ++ (l1 ++ l2))%list.
  - rewrite !app_assoc. apply Permutation_app_tail, Permutation_app_comm.
  - rewrite <- H. apply partition_Permutation.
Qed.

Section DragOver.
Context {L : Layout}.

Lemma reduce_In y l :
  forall acc x,
    snd (fold_left (fun closest child =>
                      let offset := offset_of y child in
                      if lt offset px_zero && lt (fst closest) offset
                      then (offset, Some child) else closest) l acc) = Some x ->
    snd acc = Some x \/ In x l.
Proof.
  induction l as [|c l IH]; intros acc x; simpl; [auto|].
  intros H. apply IH in H as [H|H]; [|auto].
  destruct (lt _ px_zero && lt (fst acc) _); [|auto].
  simpl in H. injection H as <-. auto.
Qed.

(** [dragover] always prevents the default and asks for the [move] effect
    when there is a [dataTransfer]; it sends nothing, navigates nowhere and
    keeps [dragRow].  With no row being dragged the page is left alone.
    With a row of the [tbody] being dragged, in a well-formed document, no
    exception is raised and the document is only rearranged: the elements
    are the same, none lost or doubled.  When [getDragAfterElement] gives a
    row that is another child of the [tbody], the dragged row goes, with
    what it contains, just before it; when it gives a row that is not a
    child of the [tbody] (a row of a table nested in a cell) or the dragged
    row itself, nothing moves; when it gives none, the dragged row goes
    after everything inside the [tbody]. *)
Theorem dragover_rearranges (tbody : node) (y : px) (transfer : bool) (r : reorder) :
  let r' := fst (tbody_dragover tbody y transfer r) in
  let fx := snd (tbody_dragover tbody y transfer r) in
  let d := dom (page r) in
  (fx = mkEffects true None (if transfer then Some "move" else None) []
   /\ dragRow r' = dragRow r
   /\ fetched (page r') = fetched (page r)
   /\ navigated (page r') = navigated (page r)
   /\ (dragRow r = None -> r' = r))
  /\ forall row re,
       wf_document d -> tree_shaped d ->
       dragRow r = Some row ->
       getElement d row = Some re -> parentNode re = Some tbody ->
       console (page r') = console (page r)
       /\ Permutation (dom (page r')) d
       /\ wf_document (dom (page r'))
       /\ match getDragAfterElement d tbody y with
          | Some a =>
              (parentNode a = Some tbody -> nid a <> row ->
               exists l1 l2,
                 without d row = (l1 ++ a :: l2)%list
                 /\ dom (page r') = (l1 ++ filter (in_subtree d row) d ++ a :: l2)%list)
              /\ (parentNode a <> Some tbody \/ nid a = row -> dom (page r') = d)
          | None =>
              exists l1 e l2,
                without d row = (l1 ++ e :: l2)%list
                /\ in_subtree d tbody e = true
                /\ existsb (in_subtree d tbody) l2 = false
                /\ dom (page r')
                   = (l1 ++ e :: filter (in_subtree d row) d ++ l2)%list
          end.
Proof.
  intros r' fx d. subst r' fx. unfold tbody_dragover. fold d. split.
  - destruct (dragRow r) as [row|] eqn:Hrow; [|simpl; repeat split; auto].
    destruct (getDragAfterElement d tbody y) as [a|].
    + destruct (match parentNode a with Some p => Nat.eqb p tbody | None => false end);
        [|simpl; repeat split; auto; discriminate].
      destruct (insertBefore_moving tbody row a d); simpl; repeat split; auto; discriminate.
    + destruct (appendChild tbody row d); simpl; repeat split; auto; discriminate.
  - intros row re Hwf Htree Hrow Hre Hpar. rewrite Hrow.
    assert (Htb : exists tb, getElement d tbody = Some tb).
    { destruct Htree as [depth Hd]. pose proof (getElement_In _ _ _ Hre) as [Hin _].
      destruct (proj2 (Hd re Hin) tbody Hpar) as [Hp _].
      destruct (getElement_exists _ _ Hp) as (tb & Htb & _). eauto. }
    destruct Htb as [tb Htb].
    pose proof (parent_not_below d row re tbody tb Htree Hre Hpar Htb) as Hout.
    pose proof (block_of_child d tbody row re Hwf Hre Hpar) as Hblock.
    assert (Hperm_wf : forall d', Permutation d' d -> wf_document d').
    { intros d' Hp. unfold wf_document in *.
      apply (Permutation_NoDup (l := map nid d)); [|assumption].
      apply Permutation_map. now apply Permutation_sym. }
    pose proof (proj2 (getElement_In _ _ _ Htb)) as Hntb.
    assert (Htb_in : In tb (without d row)).
    { unfold without. apply filter_In. split; [now apply getElement_In in Htb|].
      now rewrite Hout. }
    destruct (getDragAfterElement d tbody y) as [a|] eqn:Hafter.
    + destruct (parentNode a) as [pa|] eqn:Hpa;
        [destruct (Nat.eqb_spec pa tbody) as [->|Hne]|].
      * unfold insertBefore_moving. rewrite Htb, Hpa, Nat.eqb_refl, Hout. simpl.
        destruct (Nat.eqb_spec (nid a) row) as [Heq|Hna]; simpl.
        { split; [reflexivity|]. split; [apply Permutation_refl|].
          split; [assumption|].
          split; [intros _ Hn; now contradiction Hn|intros _; reflexivity]. }
        assert (Ha_in : In a d).
        { unfold getDragAfterElement in Hafter.
          apply reduce_In in Hafter as [Hx|Hx]; [discriminate|].
          now apply filter_In in Hx. }
        assert (Ha_out : In a (without d row)).
        { unfold without. apply filter_In. split; [assumption|].
          unfold in_subtree. destruct (Nat.eqb_spec (nid a) row); [contradiction|]. simpl.
          destruct (inside d row a) eqn:Hi; [|reflexivity].
          now rewrite (inside_of_parent d row tbody tb a Htb Hpa Hi) in Hout. }
        destruct (insert_block_before_spec (block_of d tbody row) (nid a) (without d row))
          as (l1 & e & l2 & Hl & He & Hi).
        { apply existsb_exists. exists a. split; [assumption|apply Nat.eqb_refl]. }
        assert (e = a) as ->.
        { apply (nid_inj d); auto.
          assert (In e (without d row)) by (rewrite Hl; apply in_elt).
          unfold without in H. now apply filter_In in H. }
        rewrite Hi, Hblock.
        assert (Hp : Permutation (l1 ++ filter (in_subtree d row) d ++ a :: l2) d)
          by now apply (moved_Permutation d row l1 (a :: l2)).
        split; [reflexivity|]. split; [assumption|]. split; [now apply Hperm_wf|].
        split; [intros _ _; exists l1, l2; auto|].
        intros [Hp'|Hn']; [now contradiction Hp'|now contradiction Hna].
      * simpl. split; [reflexivity|]. split; [apply Permutation_refl|].
        split; [assumption|].
        split; [intros [= Heq]; now contradiction Hne|intros _; reflexivity].
      * simpl. split; [reflexivity|]. split; [apply Permutation_refl|].
        split; [assumption|]. split; [discriminate|intros _; reflexivity].
    + unfold appendChild. rewrite Htb, Hout. simpl.
      destruct (insert_block_after_last_spec (in_subtree d tbody) (block_of d tbody row)
                  (without d row)) as (l1 & e & l2 & Hl & He & Hn & Hi).
      { apply existsb_exists. exists tb. split; [assumption|].
        unfold in_subtree. now rewrite Hntb, Nat.eqb_refl. }
      rewrite Hi, Hblock.
      assert (Hp : Permutation (l1 ++ e :: filter (in_subtree d row) d ++ l2) d).
      { replace (l1 ++ e :: filter (in_subtree d row) d ++ l2)%list
          with ((l1 ++ [e]) ++ filter (in_subtree d row) d ++ l2)%list
          by now rewrite <- app_assoc.
        apply (moved_Permutation d row (l1 ++ [e]) l2).
        now rewrite Hl, <- app_assoc. }
      split; [reflexivity|]. split; [assumption|]. split; [now apply Hperm_wf|].
      exists l1, e, l2. auto.
Qed.

End DragOver.

Lemma dragover_rearranges_witness :
  let r := fst (tr_dragstart (Some "7") 5 true (mkReorder (Page.loaded "ACME" "asc") None)) in
  let r' := fst (tbody_dragover (L := Page.boxes) 4 (Page.at_height 100) true r) in
  map nid (dom (page r'))
  = [0; 13; 1; 2; 3; 4; 9; 10; 5; 6; 7; 8; 11; 12]%nat
  /\ Permutation (dom (page r')) (dom (page r)).
Proof.
  intros r r'. split; [reflexivity|].
  pose proof (proj2 (dragover_rearranges (L := Page.boxes) 4 (Page.at_height 100) true r))
    as H.
  cbv zeta in H. fold r' in H.
  remember (dom (page r)) as d eqn:Hd. vm_compute in Hd. subst d.
  refine (proj1 (proj2 (H 5%nat _ _ _ eq_refl eq_refl eq_refl))).
  - distinct_ids.
  - exists (fun n => n). intros e He. simpl in He.
    repeat (destruct He as [<-|He];
            [simpl; split;
             [lia|intros p Hp; inversion Hp; subst; simpl; (split; [intuition lia|lia])]|]).
    destruct He.
Defined.

(** *** Which rows can be dragged *)

Lemma assoc_set_assoc k v k' (l : list (string * string)) :
  assoc k' (set_assoc k v l) = if String.eqb k' k then Some v else assoc k' l.
Proof.
  induction l as [|[a b] l IH]; simpl.
  - now destruct (String.eqb k' k).
  - destruct (String.eqb_spec k a) as [->|Hka]; simpl.
    + now destruct (String.eqb k' a).
    + rewrite IH. destruct (String.eqb_spec k' a) as [->|_]; [|reflexivity].
      destruct (String.eqb_spec a k) as [Heq|_]; [now contradiction Hka|reflexivity].
Qed.

Lemma assoc_without k k' (l : list (string * string)) :
  assoc k' (filter (fun kv => negb (String.eqb k (fst kv))) l)
  = if String.eqb k' k then None else assoc k' l.
Proof.
  induction l as [|[a b] l IH]; simpl.
  - now destruct (String.eqb k' k).
  - destruct (String.eqb_spec k a) as [->|Hka]; simpl.
    + rewrite IH. now destruct (String.eqb k' a).
    + rewrite IH. destruct (String.eqb_spec k' a) as [->|_]; [|reflexivity].
      destruct (String.eqb_spec a k) as [Heq|_]; [now contradiction Hka|reflexivity].
Qed.

Lemma set_assoc_twice k v (l : list (string * string)) :
  set_assoc k v (set_assoc k v l) = set_assoc k v l.
Proof.
  induction l as [|[a b] l IH]; simpl.
  - now rewrite String.eqb_refl.
  - destruct (String.eqb k a) eqn:Hka; simpl.
    + now rewrite String.eqb_refl.
    + now rewrite Hka, IH.
Qed.

Lemma getAttribute_draggable_by_id e k :
  getAttribute (draggable_by_id e) k
  = if String.eqb k "draggable"
    then (if isValidId (getAttribute e "data-id") then Some "true" else None)
    else getAttribute e k.
Proof.
  unfold draggable_by_id, getAttribute.
  destruct (isValidId (assoc "data-id" (attributes e))).
  - exact (assoc_set_assoc "draggable" "true" k (attributes e)).
  - exact (assoc_without "draggable" k (attributes e)).
Qed.

Lemma frames_draggable_by_id : frames draggable_by_id.
Proof.
  intros e. unfold draggable_by_id. destruct (isValidId _); split; reflexivity.
Qed.

Lemma draggable_by_id_keeps e :
  tagName (draggable_by_id e) = tagName e /\ classList (draggable_by_id e) = classList e.
Proof. unfold draggable_by_id. destruct (isValidId _); split; reflexivity. Qed.

Lemma filter_twice {A} (f : A -> bool) l : filter f (filter f l) = filter f l.
Proof.
  induction l as [|a l IH]; simpl; [reflexivity|].
  destruct (f a) eqn:Ha; simpl; [rewrite Ha; now f_equal|assumption].
Qed.

Lemma setAttribute_twice k v e : setAttribute k v (setAttribute k v e) = setAttribute k v e.
Proof.
  destruct e as [n t c a p sd sc ih]. unfold setAttribute, with_attributes.
  cbn [nid tagName classList attributes parentNode style_display style_cursor innerHTML].
  now rewrite set_assoc_twice.
Qed.

Lemma removeAttribute_twice k e : removeAttribute k (removeAttribute k e) = removeAttribute k e.
Proof.
  destruct e as [n t c a p sd sc ih]. unfold removeAttribute, with_attributes.
  cbn [nid tagName classList attributes parentNode style_display style_cursor innerHTML].
  now rewrite filter_twice.
Qed.

Lemma draggable_by_id_idem e : draggable_by_id (draggable_by_id e) = draggable_by_id e.
Proof.
  unfold draggable_by_id at 1. rewrite getAttribute_draggable_by_id.
  change (String.eqb "data-id" "draggable") with false. cbv iota.
  unfold draggable_by_id. destruct (isValidId (getAttribute e "data-id")).
  - apply setAttribute_twice.
  - apply removeAttribute_twice.
Qed.

Lemma rows_fold d :
  wf_document d ->
  forall trs rows,
    Forall2 (fun tr r => nid tr = nid r
                         /\ getAttribute tr "data-id" = getAttribute r "data-id") trs rows ->
    (forall r, In r rows -> In r d) ->
    forall g,
      (forall e, g e = e \/ g e = draggable_by_id e) ->
      fold_left
        (fun c tr =>
           if isValidId (getAttribute tr "data-id")
           then modify (nid tr) (setAttribute "draggable" "true") c
           else modify (nid tr) (removeAttribute "draggable") c)
        trs (map g d)
      = map (fun e => if existsb (fun r => Nat.eqb (nid r) (nid e)) rows
                      then draggable_by_id e else g e) d.
Proof.
  intros Hwf trs rows HR. induction HR as [|tr r trs rows [Hn Hid] HR IH];
    intros Hin g Hg; simpl; [reflexivity|].
  assert (Hgn : forall e, nid (g e) = nid e).
  { intros e. destruct (Hg e) as [->| ->]; [reflexivity|apply frames_draggable_by_id]. }
  assert (Hstep :
    (if isValidId (getAttribute tr "data-id")
     then modify (nid tr) (setAttribute "draggable" "true") (map g d)
     else modify (nid tr) (removeAttribute "draggable") (map g d))
    = map (fun e => if Nat.eqb (nid r) (nid e) then draggable_by_id e else g e) d).
  { assert (Hmod : forall F,
              modify (nid tr) F (map g d)
              = map (fun e => if Nat.eqb (nid r) (nid e) then F (g e) else g e) d).
    { intros F. unfold modify. rewrite map_map. apply map_ext. intros e.
      now rewrite Hgn, Hn, (Nat.eqb_sym (nid e)). }
    assert (Hr : forall e, In e d -> Nat.eqb (nid r) (nid e) = true -> e = r).
    { intros e He Heq. apply Nat.eqb_eq in Heq.
      apply (nid_inj d); auto. apply Hin. now left. }
    rewrite Hid.
    destruct (isValidId (getAttribute r "data-id")) eqn:Hv; rewrite Hmod;
      apply map_ext_in; intros e He;
      destruct (Nat.eqb (nid r) (nid e)) eqn:Heq; try reflexivity;
      rewrite (Hr e He Heq);
      (destruct (Hg r) as [->| ->];
       [unfold draggable_by_id; now rewrite Hv
       |rewrite <- (draggable_by_id_idem r) at 2;
        unfold draggable_by_id at 2;
        rewrite getAttribute_draggable_by_id;
        change (String.eqb "data-id" "draggable") with false; cbv iota;
        now rewrite Hv]). }
  rewrite Hstep. rewrite IH.
  - apply map_ext. intros e.
    destruct (Nat.eqb (nid r) (nid e)); simpl; [now destruct (existsb _ rows)|reflexivity].
  - intros r0 H0. apply Hin. now right.
  - intros e. destruct (Nat.eqb (nid r) (nid e)); auto.
Qed.

Lemma tables_fold d :
  wf_document d ->
  forall tables g,
    (forall e, g e = e \/ g e = draggable_by_id e) ->
    fold_left
      (fun c table =>
         match querySelector c (nid table) (has_tag "tbody") with
         | None => c
         | Some tbody =>
             fold_left
               (fun c tr =>
                  if isValidId (getAttribute tr "data-id")
                  then modify (nid tr) (setAttribute "draggable" "true") c
                  else modify (nid tr) (removeAttribute "draggable") c)
               (querySelectorAll c (nid tbody) (has_tag "tr")) c
         end)
      tables (map g d)
    = map (fun e =>
             if existsb (fun r => Nat.eqb (nid r) (nid e))
                  (flat_map (fun table =>
                               match querySelector d (nid table) (has_tag "tbody") with
                               | Some tbody => querySelectorAll d (nid tbody) (has_tag "tr")
                               | None => []
                               end) tables)
             then draggable_by_id e else g e) d.
Proof.
  intros Hwf tables. induction tables as [|table tables IH]; intros g Hg; simpl;
    [reflexivity|].
  assert (Hfr : frames g).
  { intros e. destruct (Hg e) as [->| ->]; [split; reflexivity|apply frames_draggable_by_id]. }
  assert (Htag : forall t e, has_tag t (g e) = has_tag t e).
  { intros t e. unfold has_tag.
    destruct (Hg e) as [->| ->]; [reflexivity|now rewrite (proj1 (draggable_by_id_keeps e))]. }
  assert (Hq : querySelector (map g d) (nid table) (has_tag "tbody")
               = option_map g (querySelector d (nid table) (has_tag "tbody"))).
  { unfold querySelector. rewrite querySelectorAll_map by auto.
    now destruct (querySelectorAll d (nid table) (has_tag "tbody")). }
  rewrite Hq. destruct (querySelector d (nid table) (has_tag "tbody")) as [tbody|]; simpl.
  - rewrite (proj1 (Hfr tbody)), querySelectorAll_map by auto.
    rewrite (rows_fold d Hwf _ (querySelectorAll d (nid tbody) (has_tag "tr"))).
    + rewrite IH.
      * apply map_ext. intros e. rewrite existsb_app.
        destruct (existsb _ (querySelectorAll d (nid tbody) (has_tag "tr")));
          simpl; [now destruct (existsb _ _)|reflexivity].
      * intros e. destruct (existsb _ _); auto.
    + induction (querySelectorAll d (nid tbody) (has_tag "tr")) as [|r l IHl];
        simpl; constructor; [|assumption].
      split; [apply Hfr|].
      destruct (Hg r) as [->| ->]; [reflexivity|apply getAttribute_draggable_by_id].
    + intros r Hr. unfold querySelectorAll in Hr. now apply filter_In in Hr.
    + assumption.
  - now rewrite IH.
Qed.

(** At load the rows of the reorder tables, and nothing else, get their
    [draggable] attribute from their [data-id]: [draggable="true"] when it
    is a valid identifier, no [draggable] attribute otherwise; no other
    attribute, no class and no tag is touched.  So the identifiers a
    [dragend] posts right after the load are those of the rows that can be
    dragged. *)
Theorem init_rows_draggable_iff_valid (d : document) :
  wf_document d ->
  init_rows d
  = map (fun e => if existsb (fun r => Nat.eqb (nid r) (nid e)) (reorder_rows d)
                  then draggable_by_id e else e) d
  /\ (forall e k,
        getAttribute (draggable_by_id e) k
        = if String.eqb k "draggable"
          then (if isValidId (getAttribute e "data-id") then Some "true" else None)
          else getAttribute e k)
  /\ (forall e, tagName (draggable_by_id e) = tagName e
                /\ classList (draggable_by_id e) = classList e
                /\ nid (draggable_by_id e) = nid e
                /\ parentNode (draggable_by_id e) = parentNode e)
  /\ (forall table tbody,
        In table (document_querySelectorAll d
                    (sel_and (has_tag "table") (has_class "reorder-table"))) ->
        querySelector d (nid table) (has_tag "tbody") = Some tbody ->
        row_ids (init_rows d) (nid tbody)
        = map (fun r => string_of_attr (getAttribute r "data-id"))
              (filter (has_attr "draggable" "true")
                      (querySelectorAll (init_rows d) (nid tbody) (has_tag "tr")))).
Proof.
  intros Hwf.
  assert (Hform : init_rows d
                  = map (fun e => if existsb (fun r => Nat.eqb (nid r) (nid e)) (reorder_rows d)
                                  then draggable_by_id e else e) d).
  { unfold init_rows, reorder_rows.
    pose proof (tables_fold d Hwf
                  (document_querySelectorAll d
                     (sel_and (has_tag "table") (has_class "reorder-table")))
                  (fun e => e) (fun e => or_introl eq_refl)) as H.
    rewrite map_id in H. exact H. }
  split; [exact Hform|]. split; [intros e k; apply getAttribute_draggable_by_id|].
  split.
  { intros e. destruct (draggable_by_id_keeps e) as [Ht Hc].
    destruct (frames_draggable_by_id e) as [Hn Hp]. auto. }
  intros table tbody Htable Htbody. rewrite Hform.
  set (G := fun e => if existsb (fun r => Nat.eqb (nid r) (nid e)) (reorder_rows d)
                     then draggable_by_id e else e).
  assert (HG : frames G).
  { intros e. unfold G. destruct (existsb _ _); [apply frames_draggable_by_id|now split]. }
  unfold row_ids. rewrite querySelectorAll_map; [|assumption|].
  2:{ intros e. unfold G, has_tag. destruct (existsb _ _); [|reflexivity].
      now rewrite (proj1 (draggable_by_id_keeps e)). }
  assert (Hrows : forall r, In r (querySelectorAll d (nid tbody) (has_tag "tr")) ->
                            G r = draggable_by_id r).
  { intros r Hr. unfold G.
    assert (Hex : existsb (fun r0 => Nat.eqb (nid r0) (nid r)) (reorder_rows d) = true).
    { apply existsb_exists. exists r. split; [|apply Nat.eqb_refl].
      unfold reorder_rows. apply in_flat_map. exists table. split; [assumption|].
      now rewrite Htbody. }
    now rewrite Hex. }
  induction (querySelectorAll d (nid tbody) (has_tag "tr")) as [|r l IH]; simpl;
    [reflexivity|].
  rewrite (Hrows r) by now left.
  specialize (IH (fun r0 H0 => Hrows r0 (or_intror H0))).
  assert (Hd : has_attr "draggable" "true" (draggable_by_id r)
               = isValidId (getAttribute r "data-id")).
  { unfold has_attr. rewrite getAttribute_draggable_by_id.
    change (String.eqb "draggable" "draggable") with true. cbv iota.
    now destruct (isValidId (getAttribute r "data-id")). }
  cbn [map filter flat_map]. rewrite Hd.
  assert (Hi : getAttribute (draggable_by_id r) "data-id" = getAttribute r "data-id")
    by (rewrite getAttribute_draggable_by_id; reflexivity).
  rewrite Hi. fold (has_attr "draggable" "true").
  destruct (getAttribute r "data-id") as [i|] eqn:Hid; cbn [isValidId];
    [|cbn [app]; exact IH].
  destruct (test_digits (trim i)); cbn [map app]; [|exact IH].
  now rewrite Hi, IH.
Qed.

Lemma init_rows_draggable_iff_valid_witness :
  map (fun e => getAttribute e "draggable")
      (querySelectorAll (init_rows (Page.statement "ACME" "asc")) 4 (has_tag "tr"))
  = [Some "true"; None; None]
  /\ row_ids (init_rows (Page.statement "ACME" "asc")) 4 = ["7"].
Proof.
  split; [reflexivity|].
  assert (Hin : In (Page.el 1 "table" ["reorder-table"]
                            [("data-cliente", "ACME"); ("data-orden", "asc")] (Some 0%nat))
                   (document_querySelectorAll (Page.statement "ACME" "asc")
                      (sel_and (has_tag "table") (has_class "reorder-table"))))
    by (simpl; auto).
  pose proof (proj2 (proj2 (proj2 (init_rows_draggable_iff_valid
                                     (Page.statement "ACME" "asc") (statement_wf _ _))))
                _ (Page.el 4 "tbody" [] [] (Some 1%nat)) Hin eq_refl) as H.
  change (nid (Page.el 4 "tbody" [] [] (Some 1%nat))) with 4%nat in H.
  rewrite H. reflexivity.
Defined.

(** *** One bar per card *)

Lemma closest_from_le fuel fuel' d sel x c :
  (fuel <= fuel')%nat ->
  closest_from fuel d sel x = Some c -> closest_from fuel' d sel x = Some c.
Proof.
  intros Hle. induction Hle as [|m _ IH]; [auto|].
  intros H. now apply closest_from_more, IH.
Qed.

Lemma closest_from_by_id fuel d sel x c :
  closest_from fuel d sel x = Some c ->
  closest_from fuel d (fun a => Nat.eqb (nid a) c) x = Some c.
Proof.
  revert x. induction fuel as [|fuel IH]; intros x; simpl; [discriminate|].
  destruct (getElement d x) as [e|] eqn:He; [|discriminate].
  apply getElement_In in He as [_ Hn].
  destruct (sel e).
  - intros [= <-]. now rewrite Hn, Nat.eqb_refl.
  - destruct (Nat.eqb_spec (nid e) c) as [Heq|_]; [intros _; congruence|].
    destruct (parentNode e); [apply IH|discriminate].
Qed.

Lemma filter_insert_before_new (f : element -> bool) new ref d :
  (forall e, In e d -> f e = false) -> f new = true ->
  (exists e, In e d /\ nid e = ref) ->
  filter f (insert_before new ref d) = [new].
Proof.
  intros Hold Hnew. induction d as [|a d IH]; simpl; intros (e & He & Hn); [destruct He|].
  assert (Hnil : filter f d = []).
  { clear -Hold. induction d as [|x d IH]; simpl; [reflexivity|].
    rewrite (Hold x) by (right; now left). apply IH. intros e [He|He]; apply Hold; auto.
    - now left.
    - right. now right. }
  destruct (Nat.eqb_spec (nid a) ref) as [Ha|Ha]; simpl.
  - now rewrite Hnew, (Hold a (or_introl eq_refl)), Hnil.
  - rewrite (Hold a (or_introl eq_refl)). apply IH.
    + intros x Hx. apply Hold. now right.
    + destruct He as [->|He]; [contradiction|]. eauto.
Qed.

Lemma length_insert_before_most new ref d :
  (List.length (insert_before new ref d) <= S (List.length d))%nat.
Proof.
  induction d as [|a d IH]; simpl; [lia|].
  destruct (Nat.eqb (nid a) ref); simpl; lia.
Qed.

Lemma modify_bar_twice n v h d :
  modify n (with_display v) (modify n (with_innerHTML h)
    (modify n (with_display v) (modify n (with_innerHTML h) d)))
  = modify n (with_display v) (modify n (with_innerHTML h) d).
Proof.
  unfold modify. rewrite !map_map. apply map_ext. intros e.
  destruct e as [m t c a p sd sc ih].
  destruct (Nat.eqb m n) eqn:Hm; repeat (simpl; rewrite ?Hm); reflexivity.
Qed.

Section OneBar.
Context {F : Float}.

(** On a page where no element lies inside a bar, computing the sum bar of
    a table again changes nothing: the bar made or found by the first
    computation is found by the second, which writes the same totals and
    the same display into it, so a card never gets a second bar however
    many marks are answered.  (The table must not itself be the [.card].) *)
Theorem computeSumBar_idempotent (t : node) (d : document) :
  wf_document d -> tree_shaped d ->
  bars_empty d = true ->
  (forall te, getElement d t = Some te -> has_class "card" te = false) ->
  computeSumBar (Some t) (computeSumBar (Some t) d) = computeSumBar (Some t) d.
Proof.
  intros Hwf Htree _ Hnc.
  destruct (closest d (has_class "card") t) as [card|] eqn:Hcard.
  2:{ assert (H : computeSumBar (Some t) d = d)
        by (unfold computeSumBar, computeSumBar_bar; now rewrite Hcard).
      now rewrite !H. }
  destruct (closest_getElement _ _ _ _ Hcard) as (te & Hte).
  pose proof (getElement_In _ _ _ Hte) as [Hte_in Hte_n].
  assert (Hsum : forall col, sumMarked (computeSumBar (Some t) d) t col = sumMarked d t col)
    by (intros col; now apply sumMarked_computeSumBar).
  set (h := sum_bar_html (sumMarked d t "DEBE") (sumMarked d t "HABER")).
  set (v := if strict_zero (sumMarked d t "DEBE") && strict_zero (sumMarked d t "HABER")
            then "none" else "block").
  assert (Hkey : exists d0 bar b',
    computeSumBar (Some t) d = modify bar (with_display v) (modify bar (with_innerHTML h) d0)
    /\ (List.length d0 <= S (List.length d))%nat
    /\ closest (computeSumBar (Some t) d) (has_class "card") t = Some card
    /\ (exists te', getElement (computeSumBar (Some t) d) t = Some te')
    /\ querySelector (computeSumBar (Some t) d) card (has_class "sum-bar") = Some b'
    /\ nid b' = bar).
  { unfold computeSumBar, computeSumBar_bar. rewrite Hcard, Hte. fold h v.
    assert (Hsel : forall (n : node) (g : element -> element) (e : element),
              (forall x, classList (g x) = classList x) ->
              forall c, has_class c (if Nat.eqb (nid e) n then g e else e) = has_class c e).
    { intros n g e Hg c. unfold has_class. destruct (Nat.eqb (nid e) n); [|reflexivity].
      now rewrite Hg. }
    destruct (querySelector d card (has_class "sum-bar")) as [b|] eqn:Hq; simpl.
    - exists d, (nid b). eexists. split; [reflexivity|]. split; [lia|].
      split; [|split; [|split]].
      + unfold modify. rewrite !closest_map; auto with frames; intros e; now apply Hsel.
      + rewrite !getElement_modify, Hte by auto with frames. simpl. eauto.
      + unfold querySelector, modify in *.
        rewrite !querySelectorAll_map; auto with frames;
          try (intros e; now apply Hsel).
        destruct (querySelectorAll d card (has_class "sum-bar")) as [|x l];
          [discriminate|]. injection Hq as ->. simpl. reflexivity.
      + simpl. destruct (Nat.eqb (nid b) (nid b)); simpl;
          destruct (Nat.eqb (nid b) (nid b)); reflexivity.
    - unfold insertBefore.
      set (b1 := mkElement _ _ _ _ _ _ _ _).
      assert (Hb1 : nid b1 = fresh d) by reflexivity.
      assert (Hnew : ~ In (nid b1) (map nid d)) by (rewrite Hb1; apply fresh_not_In).
      assert (Hfresh : forall e, In e d -> nid e <> nid b1).
      { intros e He. apply fresh_above in He. rewrite Hb1. lia. }
      assert (Href : exists e, In e d /\ nid e = nid te) by eauto.
      destruct Htree as [depth Hd].
      assert (Hparents : forall e, In e d -> forall p, parentNode e = Some p ->
                                                       In p (map nid d))
        by (intros e He p Hp; now apply (Hd e He)).
      (* the parent of the table, from which the walk reaches the card *)
      assert (Hp : exists p, parentNode te = Some p
                             /\ closest_from (List.length d) d (has_class "card") p
                                = Some card).
      { unfold closest in Hcard. simpl in Hcard. rewrite Hte, (Hnc te Hte) in Hcard.
        destruct (parentNode te) as [p|]; [eauto|discriminate]. }
      destruct Hp as (p & Hp & Hwalk).
      assert (Hlen : (List.length d <= List.length (insert_before b1 (nid te) d))%nat)
        by apply length_insert_before.
      assert (Hlen' : (List.length (insert_before b1 (nid te) d) <= S (List.length d))%nat).
      { apply length_insert_before_most. }
      exists (insert_before b1 (nid te) d), (fresh d). eexists.
      split; [reflexivity|]. split; [assumption|].
      split; [|split; [|split]].
      + unfold modify. rewrite !closest_map; auto with frames;
          try (intros e; now apply Hsel).
        unfold closest. rewrite closest_from_insert_before; auto.
        * apply (closest_from_le (S (List.length d))); [lia|exact Hcard].
        * apply in_map_iff. exists te. auto.
      + rewrite !getElement_modify by auto with frames.
        rewrite getElement_insert_before_other, Hte; [simpl; eauto|].
        rewrite <- Hte_n. now apply Hfresh.
      + unfold querySelector, modify.
        rewrite !querySelectorAll_map; auto with frames;
          try (intros e; now apply Hsel).
        unfold querySelectorAll.
        rewrite (filter_insert_before_new _ b1 (nid te) d); [reflexivity| | |assumption].
        * intros e He.
          rewrite (inside_insert_before b1 (nid te) d card e); auto;
            [|exists depth; exact Hd].
          unfold querySelector in Hq.
          destruct (querySelectorAll d card (has_class "sum-bar")) as [|x l] eqn:Hl;
            [|discriminate].
          destruct (has_class "sum-bar" e && inside d card e) eqn:Hf; [|reflexivity].
          assert (Hin : In e (querySelectorAll d card (has_class "sum-bar")))
            by (apply filter_In; auto).
          rewrite Hl in Hin. destruct Hin.
        * change (has_class "sum-bar" b1) with true. simpl.
          unfold inside. change (parentNode b1) with (parentNode te). rewrite Hp.
          apply closest_from_by_id in Hwalk.
          apply (closest_from_le _ (List.length (insert_before b1 (nid te) d))) in Hwalk;
            [|assumption].
          rewrite closest_from_insert_before, Hwalk; auto.
          now apply (Hparents te).
      + cbv beta.
        assert (Hn : forall (c : bool) (f : element -> element) x,
                  (forall y, nid (f y) = nid y) -> nid (if c then f x else x) = nid x)
          by (intros [] f x Hf; auto).
        rewrite !Hn by reflexivity. exact Hb1. }
  destruct Hkey as (d0 & bar & b' & Hform & Hlen & Hc' & (te' & Hte') & Hq' & Hn').
  remember (computeSumBar (Some t) d) as d' eqn:Hd'.
  unfold computeSumBar, computeSumBar_bar. rewrite Hc', Hte', Hq'. simpl.
  rewrite !Hsum, Hn'. fold h v. rewrite Hform. apply modify_bar_twice.
Qed.

End OneBar.

Lemma computeSumBar_idempotent_witness :
  let d := computeSumBar (F := Exact.float) (Some 1%nat) (Page.statement "ACME" "asc") in
  map nid d = [0; 13; 1; 2; 3; 4; 5; 6; 7; 8; 9; 10; 11; 12]%nat
  /\ computeSumBar (F := Exact.float) (Some 1%nat) d = d.
Proof.
  intros d. split; [reflexivity|].
  apply (computeSumBar_idempotent (F := Exact.float)).
  - apply statement_wf.
  - apply statement_tree.
  - reflexivity.
  - intros te Hte. vm_compute in Hte. injection Hte as <-. reflexivity.
Defined.

(** *** What no listener does *)

Ltac appended :=
  first [ exists []; split; [now rewrite app_nil_r|simpl; lia]
        | eexists; split; [reflexivity|simpl; lia] ].

Ltac printed :=
  first [ exists []; split; [now rewrite app_nil_r|intros; reflexivity]
        | eexists; split; [reflexivity|intros; first [discriminate|reflexivity]]
        | eexists; split;
          [rewrite <- app_assoc; reflexivity|intros; first [discriminate|reflexivity]] ].

Section Steps.
Context {F : Float} {L : Layout}.

Lemma settle_appends k o st :
  DEBUG_LOG (settle k o st) = DEBUG_LOG st
  /\ fetched (settle k o st) = fetched st
  /\ (exists ns, navigated (settle k o st) = (navigated st ++ ns)%list
                 /\ (List.length ns <= 1)%nat)
  /\ (exists ms, console (settle k o st) = (console st ++ ms)%list
                 /\ (DEBUG_LOG st = false ->
                     forallb (fun m => match fst m with Error => true | _ => false end) ms
                     = true)).
Proof.
  unfold settle, mark_response, pagado_response, log, err, navigate.
  destruct k as [|td| |tr]; destruct o as [|status [data|]];
    destruct (DEBUG_LOG st) eqn:Hd; simpl; rewrite ?Hd;
    try destruct (refused data); try destruct (lastClickedCell st);
    simpl; rewrite ?Hd; (split; [reflexivity|]); (split; [reflexivity|]);
    (split; [appended|printed]).
Qed.

(** Every step appends to the requests, to the console and to the
    navigations, and never rewrites what is there.  It sends at most one
    request, which is a [POST] under [/estado-cuenta/], and asks for at most
    one navigation.  No step changes [DEBUG_LOG], and once it is switched
    off a step prints errors only. *)
Theorem steps_post_at_most_once (st st' : state) :
  one_step st st' ->
  DEBUG_LOG st' = DEBUG_LOG st
  /\ (exists rs, fetched st' = (fetched st ++ rs)%list
                 /\ (List.length rs <= 1)%nat
                 /\ forallb (fun rk => is_post (fst rk)) rs = true)
  /\ (exists ns, navigated st' = (navigated st ++ ns)%list /\ (List.length ns <= 1)%nat)
  /\ (exists ms, console st' = (console st ++ ms)%list
                 /\ (DEBUG_LOG st = false ->
                     forallb (fun m => match fst m with Error => true | _ => false end) ms
                     = true)).
Proof.
  intros H.
  assert (Hnil : forall A (l : list A), l = (l ++ [])%list)
    by (intros; now rewrite app_nil_r).
  assert (Hquiet : exists ms, console st = (console st ++ ms)%list
                 /\ (DEBUG_LOG st = false ->
                     forallb (fun m => match fst m with Error => true | _ => false end) ms
                     = true))
    by (exists []; split; [apply Hnil|reflexivity]).
  assert (Herr : forall msg, exists ms,
                 (console st ++ [(Error, msg)])%list = (console st ++ ms)%list
                 /\ (DEBUG_LOG st = false ->
                     forallb (fun m => match fst m with Error => true | _ => false end) ms
                     = true))
    by (intros msg; eexists; split; reflexivity).
  assert (Hsame : forall s0 : state,
            DEBUG_LOG s0 = DEBUG_LOG st -> fetched s0 = fetched st ->
            navigated s0 = navigated st ->
            (exists ms, console s0 = (console st ++ ms)%list
                 /\ (DEBUG_LOG st = false ->
                     forallb (fun m => match fst m with Error => true | _ => false end) ms
                     = true)) ->
            DEBUG_LOG s0 = DEBUG_LOG st
            /\ (exists rs, fetched s0 = (fetched st ++ rs)%list
                           /\ (List.length rs <= 1)%nat
                           /\ forallb (fun rk => is_post (fst rk)) rs = true)
            /\ (exists ns, navigated s0 = (navigated st ++ ns)%list
                           /\ (List.length ns <= 1)%nat)
            /\ (exists ms, console s0 = (console st ++ ms)%list
                 /\ (DEBUG_LOG st = false ->
                     forallb (fun m => match fst m with Error => true | _ => false end) ms
                     = true))).
  { intros s0 H1 H2 H3 H4. split; [assumption|]. split; [|split; [|assumption]].
    - exists []. rewrite H2. split; [apply Hnil|]. split; [simpl; lia|reflexivity].
    - exists []. rewrite H3. split; [apply Hnil|simpl; lia]. }
  assert (Hlog : forall msg s0,
            DEBUG_LOG s0 = DEBUG_LOG st -> console s0 = console st ->
            DEBUG_LOG (log msg s0) = DEBUG_LOG st /\ fetched (log msg s0) = fetched s0
            /\ navigated (log msg s0) = navigated s0
            /\ exists ms, console (log msg s0) = (console st ++ ms)%list
                 /\ (DEBUG_LOG st = false ->
                     forallb (fun m => match fst m with Error => true | _ => false end) ms
                     = true)).
  { intros msg s0 Hd0 Hc0. unfold log. rewrite Hd0.
    destruct (DEBUG_LOG st) eqn:Hd; simpl; rewrite ?Hc0.
    - repeat split; auto. eexists. split; [reflexivity|discriminate].
    - repeat split; auto. }
  assert (Hfetch : forall r k msg s0,
            DEBUG_LOG s0 = DEBUG_LOG st -> console s0 = console st ->
            fetched s0 = fetched st -> navigated s0 = navigated st ->
            is_post r = true ->
            DEBUG_LOG (fetch r k (log msg s0)) = DEBUG_LOG st
            /\ (exists rs, fetched (fetch r k (log msg s0)) = (fetched st ++ rs)%list
                           /\ (List.length rs <= 1)%nat
                           /\ forallb (fun rk => is_post (fst rk)) rs = true)
            /\ (exists ns, navigated (fetch r k (log msg s0)) = (navigated st ++ ns)%list
                           /\ (List.length ns <= 1)%nat)
            /\ (exists ms, console (fetch r k (log msg s0)) = (console st ++ ms)%list
                 /\ (DEBUG_LOG st = false ->
                     forallb (fun m => match fst m with Error => true | _ => false end) ms
                     = true))).
  { intros r k msg s0 Hd0 Hc0 Hf0 Hn0 Hr.
    destruct (Hlog msg s0 Hd0 Hc0) as (H1 & H2 & H3 & H4). simpl.
    split; [assumption|]. split; [|split; [|assumption]].
    - exists [(r, k)]. rewrite H2, Hf0. split; [reflexivity|]. split; [simpl; lia|].
      simpl. now rewrite Hr.
    - exists []. rewrite H3, Hn0. split; [apply Hnil|simpl; lia]. }
  destruct H as [(target & ->)|[(td & s & c & m & ->)|[(key & ->)|[(td & ->)|[(th & ->)|
                [(btn & ->)|[(id & tr & transfer & row & ->)|
                [(tbody & y & transfer & row & ->)|[(table & tbody & tr & ->)|
                 (k & o & ->)]]]]]]]]].
  - unfold document_click. destruct (closest _ _ _); apply Hsame; simpl; auto.
  - unfold td_click. destruct (getElement _ _); [|apply Hsame; auto].
    now apply Hfetch.
  - unfold document_keydown. destruct (lastClickedCell st); [|apply Hsame; auto].
    destruct (keydown_mark key); [|apply Hsame; auto].
    destruct (getElement _ _); [|apply Hsame; auto].
    now apply Hfetch.
  - unfold td_dblclick. destruct (closest _ _ _); [|apply Hsame; auto].
    destruct (negb _); [apply Hsame; auto|].
    simpl. split; [reflexivity|]. split; [|split; [|assumption]].
    + eexists. split; [reflexivity|]. split; [simpl; lia|reflexivity].
    + exists []. split; [apply Hnil|simpl; lia].
  - unfold th_click. destruct (closest _ _ _); [|apply Hsame; auto].
    simpl. split; [reflexivity|]. split; [|split; [|assumption]].
    + exists []. split; [apply Hnil|]. split; [simpl; lia|reflexivity].
    + eexists. split; [reflexivity|simpl; lia].
  - unfold toggle_click. destruct (getElement _ _); [|apply Hsame; auto].
    destruct (getElementById _ _); [|apply Hsame; auto].
    destruct (closest _ _ _) as [p|].
    + destruct (match getElement (dom st) p with
                | Some parent_el => contains "open" (classList parent_el)
                | None => false
                end); apply Hsame; simpl; auto.
    + apply Hsame; simpl; auto.
  - unfold tr_dragstart. destruct (negb _); simpl; [apply Hsame; auto|].
    destruct (Hlog "dragstart"
                (set_dom (modify tr (with_classList (add "dragging")) (dom st)) st)
                eq_refl eq_refl)
      as (H1 & H2 & H3 & H4).
    now apply Hsame.
  - unfold tbody_dragover. simpl. destruct row as [row|]; [|apply Hsame; auto].
    destruct (getDragAfterElement (dom st) tbody y) as [a|].
    + destruct (match parentNode a with Some p => Nat.eqb p tbody | None => false end);
        [|apply Hsame; auto].
      destruct (insertBefore_moving tbody row a (dom st)); apply Hsame; simpl; auto.
    + destruct (appendChild tbody row (dom st)); apply Hsame; simpl; auto.
  - unfold tr_dragend. simpl.
    destruct (getElement _ table) as [table_el|]; [|apply Hsame; simpl; auto].
    destruct (negb _ || _); [apply Hsame; simpl; auto|].
    now apply Hfetch.
  - destruct (settle_appends k o st) as (Hd & Hf & Hn & Hc).
    split; [assumption|]. split; [|split; assumption].
    exists []. rewrite Hf. split; [apply Hnil|]. split; [simpl; lia|reflexivity].
Qed.

End Steps.

Lemma steps_post_at_most_once_witness :
  let st := Page.loaded "ACME" "asc" in
  let st' := td_click 6 true false false st in
  exists rs, fetched st' = (fetched st ++ rs)%list
             /\ (List.length rs <= 1)%nat
             /\ forallb (fun rk => is_post (fst rk)) rs = true.
Proof.
  intros st st'.
  apply (steps_post_at_most_once (F := Exact.float) (L := Page.boxes) st st').
  right. left. exists 6%nat, true, false, false. reflexivity.
Defined.

(** *** The paths of the requests *)

Lemma encodeURIComponent_one c :
  forallb (fun x => unreserved x || Ascii.eqb x "%")
          (list_ascii_of_string (encodeURIComponent (String c ""))) = true.
Proof. destruct c as [[] [] [] [] [] [] [] []]; vm_compute; reflexivity. Qed.

Lemma list_ascii_of_string_app a b :
  list_ascii_of_string (a ++ b) = (list_ascii_of_string a ++ list_ascii_of_string b)%list.
Proof. induction a as [|c a IH]; simpl; [reflexivity|]. now rewrite IH. Qed.

Lemma string_app_nil_r (s : string) : s ++ "" = s.
Proof. induction s as [|c s IH]; simpl; [reflexivity|]. now rewrite IH. Qed.

(** What the script puts into the path of a request, an identifier, a
    column or a client, is one path segment whatever the text: after
    [encodeURIComponent] it holds letters, digits, [-_.!~*'()] and [%]
    only, so no [/], [?], [#], [&] or [=] that would change the route or
    add a query; and the text of a valid identifier is sent as it is. *)
Theorem request_paths_are_segments (s : string) :
  (forall c, In c (list_ascii_of_string (encodeURIComponent s)) ->
             (unreserved c = true \/ c = "%"%char)
             /\ c <> "/"%char /\ c <> "?"%char /\ c <> "#"%char
             /\ c <> "&"%char /\ c <> "="%char)
  /\ (all_digits s = true -> encodeURIComponent s = s).
Proof.
  split.
  - assert (H : forallb (fun x => unreserved x || Ascii.eqb x "%")
                        (list_ascii_of_string (encodeURIComponent s)) = true).
    { induction s as [|a s IH]; [reflexivity|].
      change (encodeURIComponent (String a s))
        with ((if unreserved a then String a ""
               else if (nat_of_ascii a <? 128)%nat then percent (nat_of_ascii a)
               else percent (192 + nat_of_ascii a / 64)
                    ++ percent (128 + nat_of_ascii a mod 64))
              ++ encodeURIComponent s).
      rewrite list_ascii_of_string_app, forallb_app, IH, andb_true_r.
      pose proof (encodeURIComponent_one a) as H1.
      change (encodeURIComponent (String a ""))
        with ((if unreserved a then String a ""
               else if (nat_of_ascii a <? 128)%nat then percent (nat_of_ascii a)
               else percent (192 + nat_of_ascii a / 64)
                    ++ percent (128 + nat_of_ascii a mod 64)) ++ "") in H1.
      now rewrite string_app_nil_r in H1. }
    intros c Hc. rewrite forallb_forall in H. specialize (H c Hc).
    split.
    + apply orb_prop in H as [H|H]; [now left|right].
      symmetry. now apply Ascii.eqb_eq.
    + repeat split; intros ->; discriminate.
  - induction s as [|a s IH]; [reflexivity|]. simpl. intros H.
    apply andb_prop in H as [Ha Hs]. rewrite (IH Hs).
    assert (Hu : unreserved a = true).
    { unfold unreserved. unfold is_digit in Ha. now rewrite Ha. }
    now rewrite Hu.
Qed.

Lemma request_paths_are_segments_witness :
  encodeURIComponent "0042" = "0042".
Proof. apply (request_paths_are_segments "0042"). reflexivity. Defined.

(** *** What the load keeps *)



Section Load.
Context {F : Float}.


End Load.

